(** * Edax move kernel: [flip] (flip_sse_bitscan.c) and [last_flip]
      (count_last_flip_sse.c)

    A shallow embedding of the two functions and of the constant tables they
    read.  [unsigned long long] values are integers of [Z] in [0, 2^64) with
    the wrap-around written out; SSE and AVX2 registers are records of 64-bit
    lanes; a table read outside its bounds has no value ([None]).  The
    conditional compilation of the source is a parameter of each function:
    [build] selects the variant of [count_opp_reverse] in [flip], [strategy]
    the AVX2 or SSE path of [last_flip].  The initializer of [mask_d], which
    only the SSE path reads, holds a token that is no initializer: it is
    embedded with that token ([mask_d_initializer]), [mask_d] is the array of
    its 64 entries, and [last_flip_built] is [last_flip] as a build of the
    file gives it.

    The file first embeds the source, then states the reference definitions
    for the properties (the rays of the board, the postcondition of [flip],
    the rule of the count-flip table), then proves, in this order: the
    arithmetic of [last_flip]; the two bit tricks of [flip]; [flip] against
    its postcondition; bit reversal; [last_flip] against the postcondition
    of [flip]; and last the main results. *)

From Stdlib Require Import String ZArith List Lia Bool.
Import ListNotations.
Local Open Scope Z_scope.

(** ** Machine integers *)

Definition u64 (x : Z) : Z := x mod 2 ^ 64.
Definition u32 (x : Z) : Z := x mod 2 ^ 32.
Definition uchar (x : Z) : Z := x mod 2 ^ 8.

(** [int] seen from its 32-bit pattern. *)
Definition int32 (x : Z) : Z := if x <? 2 ^ 31 then x else x - 2 ^ 32.

(** [~x], [-x], [x * y] and [x - y] on [unsigned long long]. *)
Definition not64 (x : Z) : Z := u64 (Z.lnot x).
Definition neg64 (x : Z) : Z := u64 (- x).
Definition mul64 (x y : Z) : Z := u64 (x * y).
Definition sub64 (x y : Z) : Z := u64 (x - y).

(** [x >> c] on [unsigned long long] as the x86-64 shift instructions
    compute it: the count is taken modulo 64.  C leaves a count of 64
    undefined; [flip] reaches it when [count_opp_reverse] returns 64. *)
Definition shr64 (x c : Z) : Z := Z.shiftr x (Z.land c 63).

(** [_lzcnt_u64]: the number of leading zero bits, 64 for 0. *)
Definition lzcnt64 (x : Z) : Z := if x =? 0 then 64 else 63 - Z.log2 x.

(** [__builtin_clzll]: as [lzcnt64] on a non-zero argument.  Its value at 0
    is undefined in C; the model returns 64 there, and [flip] masks the
    result with an empty [maskr] entry whenever that happens. *)
Definition builtin_clzll (x : Z) : Z := lzcnt64 x.

(** The value stored for the initializer [~0x...] of an [unsigned long long]
    table entry, for an unsuffixed hexadecimal literal of value [v].  C types
    the literal with the first of [int], [unsigned int], [long],
    [unsigned long] that holds [v], computes [~] in that type and converts
    the result: a literal below 2^31 is an [int] whose negative complement is
    sign-extended; a literal in [2^31, 2^32) is an [unsigned int] whose
    32-bit complement is zero-extended; a larger one is complemented in 64
    bits. *)
Definition not_literal (v : Z) : Z :=
  if v <? 2 ^ 31 then u64 (int32 (u32 (Z.lnot v)))
  else if v <? 2 ^ 32 then u32 (Z.lnot v)
  else u64 (Z.lnot v).

Notation "~' v" := (not_literal v) (at level 35, right associativity).

(** ** Vector registers *)

(** [__m128i] / [__v2di]: two 64-bit lanes, lane 0 the low one. *)
Record v2di : Type := V2 { q0 : Z; q1 : Z }.

(** [__m256i]: four 64-bit lanes. *)
Record v4di : Type := V4 { w0 : Z; w1 : Z; w2 : Z; w3 : Z }.

Definition lo32 (x : Z) : Z := x mod 2 ^ 32.
Definition hi32 (x : Z) : Z := (x / 2 ^ 32) mod 2 ^ 32.
Definition join32 (lo hi : Z) : Z := lo + 2 ^ 32 * hi.

(** The four 32-bit elements of a 128-bit register. *)
Definition dword (v : v2di) (i : Z) : Z :=
  if i =? 0 then lo32 (q0 v)
  else if i =? 1 then hi32 (q0 v)
  else if i =? 2 then lo32 (q1 v)
  else hi32 (q1 v).

Definition of_dwords (d0 d1 d2 d3 : Z) : v2di :=
  V2 (join32 d0 d1) (join32 d2 d3).

Definition byte (k : Z) (x : Z) : Z := Z.land (Z.shiftr x (8 * k)) 255.

Definition lanes8 : list Z := [0; 1; 2; 3; 4; 5; 6; 7].

(** Sum over the eight bytes of a lane of [w k] where [f k] holds. *)
Definition sum8 (w : Z -> Z) (f : Z -> bool) : Z :=
  fold_right (fun k acc => (if f k then w k else 0) + acc) 0 lanes8.

(** One 64-bit lane of [pcmpeqb]: 0xff in each byte where the operands
    agree. *)
Definition cmpeq8_lane (a b : Z) : Z :=
  sum8 (fun k => Z.shiftl 255 (8 * k)) (fun k => byte k a =? byte k b).

(** One 64-bit lane of [pmovmskb]: the top bit of each byte. *)
Definition movemask_lane (a : Z) : Z :=
  sum8 (fun k => 2 ^ k) (fun k => Z.testbit a (8 * k + 7)).

Definition v2_map2 (f : Z -> Z -> Z) (a b : v2di) : v2di :=
  V2 (f (q0 a) (q0 b)) (f (q1 a) (q1 b)).
Definition v4_map2 (f : Z -> Z -> Z) (a b : v4di) : v4di :=
  V4 (f (w0 a) (w0 b)) (f (w1 a) (w1 b)) (f (w2 a) (w2 b)) (f (w3 a) (w3 b)).

(** GCC vector operators on [__v2di]. *)
Definition v_not (a : v2di) : v2di := V2 (not64 (q0 a)) (not64 (q1 a)).
Definition v_and : v2di -> v2di -> v2di := v2_map2 Z.land.
Definition v_or : v2di -> v2di -> v2di := v2_map2 Z.lor.
Definition v_sub : v2di -> v2di -> v2di := v2_map2 sub64.

(** Intrinsics, named after the source. *)
Definition mm_set1_epi64x (x : Z) : v2di := V2 x x.
Definition mm_cvtsi64_si128 (x : Z) : v2di := V2 x 0.
Definition mm_cvtsi32_si128 (x : Z) : v2di := V2 (u32 x) 0.
Definition mm_setzero_si128 : v2di := V2 0 0.
Definition mm_unpacklo_epi64 (a b : v2di) : v2di := V2 (q0 a) (q0 b).
Definition mm_and_si128 : v2di -> v2di -> v2di := v2_map2 Z.land.
Definition mm_cmpeq_epi8 : v2di -> v2di -> v2di := v2_map2 cmpeq8_lane.
Definition mm_movemask_epi8 (a : v2di) : Z :=
  movemask_lane (q0 a) + 2 ^ 8 * movemask_lane (q1 a).
Definition mm_sll_epi64 (a cnt : v2di) : v2di :=
  if 63 <? q0 cnt then V2 0 0
  else V2 (u64 (Z.shiftl (q0 a) (q0 cnt))) (u64 (Z.shiftl (q1 a) (q0 cnt))).
Definition mm_shuffle_epi32 (a : v2di) (imm : Z) : v2di :=
  of_dwords (dword a (Z.land imm 3))
            (dword a (Z.land (Z.shiftr imm 2) 3))
            (dword a (Z.land (Z.shiftr imm 4) 3))
            (dword a (Z.land (Z.shiftr imm 6) 3)).
Definition mm_cmpeq_epi32 (a b : v2di) : v2di :=
  let eq i := if dword a i =? dword b i then 2 ^ 32 - 1 else 0 in
  of_dwords (eq 0) (eq 1) (eq 2) (eq 3).

Definition mm256_broadcastq_epi64 (a : v2di) : v4di :=
  V4 (q0 a) (q0 a) (q0 a) (q0 a).
Definition mm256_setzero_si256 : v4di := V4 0 0 0 0.
Definition mm256_and_si256 : v4di -> v4di -> v4di := v4_map2 Z.land.
Definition mm256_cmpeq_epi8 : v4di -> v4di -> v4di := v4_map2 cmpeq8_lane.
(** The 32-bit mask; the intrinsic returns it as an [int]. *)
Definition mm256_movemask_epi8 (a : v4di) : Z :=
  int32 (movemask_lane (w0 a) + 2 ^ 8 * movemask_lane (w1 a)
         + 2 ^ 16 * movemask_lane (w2 a) + 2 ^ 24 * movemask_lane (w3 a)).

(** ** Table reads *)

Definition zth {A : Type} (l : list A) (i : Z) : option A :=
  if i <? 0 then None else nth_error l (Z.to_nat i).

Definition bind {A B : Type} (o : option A) (k : A -> option B) : option B :=
  match o with
  | Some a => k a
  | None => None
  end.

Notation "x <- o ;; k" := (bind o (fun x => k))
  (at level 61, o at next level, right associativity).
Notation "' p <- o ;; k" := (bind o (fun p => k))
  (at level 61, p pattern, o at next level, right associativity).

(** ** Tables of count_last_flip_sse.c

    [mask_d_v] is compiled with AVX2 and [mask_d] without. *)

(** An item of the initializer list of [mask_d]: an entry
    [{{ lo, hi }}], or a token that starts no initializer. *)
Inductive init_item : Type :=
| Entry (v : v2di)
| Stray (tok : string).

(** The array that an initializer list denotes.  A list that holds a stray
    token denotes none: the compiler rejects the translation unit. *)
Fixpoint elaborate (l : list init_item) : option (list v2di) :=
  match l with
  | [] => Some []
  | Entry v :: t => option_map (cons v) (elaborate t)
  | Stray _ :: _ => None
  end.

(** The entries of an initializer list, in order, its stray tokens left
    out. *)
Fixpoint entries (l : list init_item) : list v2di :=
  match l with
  | [] => []
  | Entry v :: t => v :: entries t
  | Stray _ :: t => entries t
  end.

Definition COUNT_FLIP : list (list Z) :=
  [ [ 0;  0;  0;  0;  2;  2;  0;  0;  4;  4;  0;  0;  2;  2;  0;  0;  6;  6;  0;  0;  2;  2;  0;  0;  4;  4;  0;  0;  2;  2;  0;  0;
       8;  8;  0;  0;  2;  2;  0;  0;  4;  4;  0;  0;  2;  2;  0;  0;  6;  6;  0;  0;  2;  2;  0;  0;  4;  4;  0;  0;  2;  2;  0;  0;
      10; 10;  0;  0;  2;  2;  0;  0;  4;  4;  0;  0;  2;  2;  0;  0;  6;  6;  0;  0;  2;  2;  0;  0;  4;  4;  0;  0;  2;  2;  0;  0;
       8;  8;  0;  0;  2;  2;  0;  0;  4;  4;  0;  0;  2;  2;  0;  0;  6;  6;  0;  0;  2;  2;  0;  0;  4;  4;  0;  0;  2;  2;  0;  0;
      12; 12;  0;  0;  2;  2;  0;  0;  4;  4;  0;  0;  2;  2;  0;  0;  6;  6;  0;  0;  2;  2;  0;  0;  4;  4;  0;  0;  2;  2;  0;  0;
       8;  8;  0;  0;  2;  2;  0;  0;  4;  4;  0;  0;  2;  2;  0;  0;  6;  6;  0;  0;  2;  2;  0;  0;  4;  4;  0;  0;  2;  2;  0;  0;
      10; 10;  0;  0;  2;  2;  0;  0;  4;  4;  0;  0;  2;  2;  0;  0;  6;  6;  0;  0;  2;  2;  0;  0;  4;  4;  0;  0;  2;  2;  0;  0;
       8;  8;  0;  0;  2;  2;  0;  0;  4;  4;  0;  0;  2;  2;  0;  0;  6;  6;  0;  0;  2;  2;  0;  0;  4;  4;  0;  0;  2;  2;  0;  0];
    [ 0;  0;  0;  0;  0;  0;  0;  0;  2;  2;  2;  2;  0;  0;  0;  0;  4;  4;  4;  4;  0;  0;  0;  0;  2;  2;  2;  2;  0;  0;  0;  0;
       6;  6;  6;  6;  0;  0;  0;  0;  2;  2;  2;  2;  0;  0;  0;  0;  4;  4;  4;  4;  0;  0;  0;  0;  2;  2;  2;  2;  0;  0;  0;  0;
       8;  8;  8;  8;  0;  0;  0;  0;  2;  2;  2;  2;  0;  0;  0;  0;  4;  4;  4;  4;  0;  0;  0;  0;  2;  2;  2;  2;  0;  0;  0;  0;
       6;  6;  6;  6;  0;  0;  0;  0;  2;  2;  2;  2;  0;  0;  0;  0;  4;  4;  4;  4;  0;  0;  0;  0;  2;  2;  2;  2;  0;  0;  0;  0;
      10; 10; 10; 10;  0;  0;  0;  0;  2;  2;  2;  2;  0;  0;  0;  0;  4;  4;  4;  4;  0;  0;  0;  0;  2;  2;  2;  2;  0;  0;  0;  0;
       6;  6;  6;  6;  0;  0;  0;  0;  2;  2;  2;  2;  0;  0;  0;  0;  4;  4;  4;  4;  0;  0;  0;  0;  2;  2;  2;  2;  0;  0;  0;  0;
       8;  8;  8;  8;  0;  0;  0;  0;  2;  2;  2;  2;  0;  0;  0;  0;  4;  4;  4;  4;  0;  0;  0;  0;  2;  2;  2;  2;  0;  0;  0;  0;
       6;  6;  6;  6;  0;  0;  0;  0;  2;  2;  2;  2;  0;  0;  0;  0;  4;  4;  4;  4;  0;  0;  0;  0;  2;  2;  2;  2;  0;  0;  0;  0];
    [ 0;  2;  0;  0;  0;  2;  0;  0;  0;  2;  0;  0;  0;  2;  0;  0;  2;  4;  2;  2;  2;  4;  2;  2;  0;  2;  0;  0;  0;  2;  0;  0;
       4;  6;  4;  4;  4;  6;  4;  4;  0;  2;  0;  0;  0;  2;  0;  0;  2;  4;  2;  2;  2;  4;  2;  2;  0;  2;  0;  0;  0;  2;  0;  0;
       6;  8;  6;  6;  6;  8;  6;  6;  0;  2;  0;  0;  0;  2;  0;  0;  2;  4;  2;  2;  2;  4;  2;  2;  0;  2;  0;  0;  0;  2;  0;  0;
       4;  6;  4;  4;  4;  6;  4;  4;  0;  2;  0;  0;  0;  2;  0;  0;  2;  4;  2;  2;  2;  4;  2;  2;  0;  2;  0;  0;  0;  2;  0;  0;
       8; 10;  8;  8;  8; 10;  8;  8;  0;  2;  0;  0;  0;  2;  0;  0;  2;  4;  2;  2;  2;  4;  2;  2;  0;  2;  0;  0;  0;  2;  0;  0;
       4;  6;  4;  4;  4;  6;  4;  4;  0;  2;  0;  0;  0;  2;  0;  0;  2;  4;  2;  2;  2;  4;  2;  2;  0;  2;  0;  0;  0;  2;  0;  0;
       6;  8;  6;  6;  6;  8;  6;  6;  0;  2;  0;  0;  0;  2;  0;  0;  2;  4;  2;  2;  2;  4;  2;  2;  0;  2;  0;  0;  0;  2;  0;  0;
       4;  6;  4;  4;  4;  6;  4;  4;  0;  2;  0;  0;  0;  2;  0;  0;  2;  4;  2;  2;  2;  4;  2;  2;  0;  2;  0;  0;  0;  2;  0;  0];
    [ 0;  4;  2;  2;  0;  0;  0;  0;  0;  4;  2;  2;  0;  0;  0;  0;  0;  4;  2;  2;  0;  0;  0;  0;  0;  4;  2;  2;  0;  0;  0;  0;
       2;  6;  4;  4;  2;  2;  2;  2;  2;  6;  4;  4;  2;  2;  2;  2;  0;  4;  2;  2;  0;  0;  0;  0;  0;  4;  2;  2;  0;  0;  0;  0;
       4;  8;  6;  6;  4;  4;  4;  4;  4;  8;  6;  6;  4;  4;  4;  4;  0;  4;  2;  2;  0;  0;  0;  0;  0;  4;  2;  2;  0;  0;  0;  0;
       2;  6;  4;  4;  2;  2;  2;  2;  2;  6;  4;  4;  2;  2;  2;  2;  0;  4;  2;  2;  0;  0;  0;  0;  0;  4;  2;  2;  0;  0;  0;  0;
       6; 10;  8;  8;  6;  6;  6;  6;  6; 10;  8;  8;  6;  6;  6;  6;  0;  4;  2;  2;  0;  0;  0;  0;  0;  4;  2;  2;  0;  0;  0;  0;
       2;  6;  4;  4;  2;  2;  2;  2;  2;  6;  4;  4;  2;  2;  2;  2;  0;  4;  2;  2;  0;  0;  0;  0;  0;  4;  2;  2;  0;  0;  0;  0;
       4;  8;  6;  6;  4;  4;  4;  4;  4;  8;  6;  6;  4;  4;  4;  4;  0;  4;  2;  2;  0;  0;  0;  0;  0;  4;  2;  2;  0;  0;  0;  0;
       2;  6;  4;  4;  2;  2;  2;  2;  2;  6;  4;  4;  2;  2;  2;  2;  0;  4;  2;  2;  0;  0;  0;  0;  0;  4;  2;  2;  0;  0;  0;  0];
    [ 0;  6;  4;  4;  2;  2;  2;  2;  0;  0;  0;  0;  0;  0;  0;  0;  0;  6;  4;  4;  2;  2;  2;  2;  0;  0;  0;  0;  0;  0;  0;  0;
       0;  6;  4;  4;  2;  2;  2;  2;  0;  0;  0;  0;  0;  0;  0;  0;  0;  6;  4;  4;  2;  2;  2;  2;  0;  0;  0;  0;  0;  0;  0;  0;
       2;  8;  6;  6;  4;  4;  4;  4;  2;  2;  2;  2;  2;  2;  2;  2;  2;  8;  6;  6;  4;  4;  4;  4;  2;  2;  2;  2;  2;  2;  2;  2;
       0;  6;  4;  4;  2;  2;  2;  2;  0;  0;  0;  0;  0;  0;  0;  0;  0;  6;  4;  4;  2;  2;  2;  2;  0;  0;  0;  0;  0;  0;  0;  0;
       4; 10;  8;  8;  6;  6;  6;  6;  4;  4;  4;  4;  4;  4;  4;  4;  4; 10;  8;  8;  6;  6;  6;  6;  4;  4;  4;  4;  4;  4;  4;  4;
       0;  6;  4;  4;  2;  2;  2;  2;  0;  0;  0;  0;  0;  0;  0;  0;  0;  6;  4;  4;  2;  2;  2;  2;  0;  0;  0;  0;  0;  0;  0;  0;
       2;  8;  6;  6;  4;  4;  4;  4;  2;  2;  2;  2;  2;  2;  2;  2;  2;  8;  6;  6;  4;  4;  4;  4;  2;  2;  2;  2;  2;  2;  2;  2;
       0;  6;  4;  4;  2;  2;  2;  2;  0;  0;  0;  0;  0;  0;  0;  0;  0;  6;  4;  4;  2;  2;  2;  2;  0;  0;  0;  0;  0;  0;  0;  0];
    [ 0;  8;  6;  6;  4;  4;  4;  4;  2;  2;  2;  2;  2;  2;  2;  2;  0;  0;  0;  0;  0;  0;  0;  0;  0;  0;  0;  0;  0;  0;  0;  0;
       0;  8;  6;  6;  4;  4;  4;  4;  2;  2;  2;  2;  2;  2;  2;  2;  0;  0;  0;  0;  0;  0;  0;  0;  0;  0;  0;  0;  0;  0;  0;  0;
       0;  8;  6;  6;  4;  4;  4;  4;  2;  2;  2;  2;  2;  2;  2;  2;  0;  0;  0;  0;  0;  0;  0;  0;  0;  0;  0;  0;  0;  0;  0;  0;
       0;  8;  6;  6;  4;  4;  4;  4;  2;  2;  2;  2;  2;  2;  2;  2;  0;  0;  0;  0;  0;  0;  0;  0;  0;  0;  0;  0;  0;  0;  0;  0;
       2; 10;  8;  8;  6;  6;  6;  6;  4;  4;  4;  4;  4;  4;  4;  4;  2;  2;  2;  2;  2;  2;  2;  2;  2;  2;  2;  2;  2;  2;  2;  2;
       2; 10;  8;  8;  6;  6;  6;  6;  4;  4;  4;  4;  4;  4;  4;  4;  2;  2;  2;  2;  2;  2;  2;  2;  2;  2;  2;  2;  2;  2;  2;  2;
       0;  8;  6;  6;  4;  4;  4;  4;  2;  2;  2;  2;  2;  2;  2;  2;  0;  0;  0;  0;  0;  0;  0;  0;  0;  0;  0;  0;  0;  0;  0;  0;
       0;  8;  6;  6;  4;  4;  4;  4;  2;  2;  2;  2;  2;  2;  2;  2;  0;  0;  0;  0;  0;  0;  0;  0;  0;  0;  0;  0;  0;  0;  0;  0];
    [ 0; 10;  8;  8;  6;  6;  6;  6;  4;  4;  4;  4;  4;  4;  4;  4;  2;  2;  2;  2;  2;  2;  2;  2;  2;  2;  2;  2;  2;  2;  2;  2;
       0;  0;  0;  0;  0;  0;  0;  0;  0;  0;  0;  0;  0;  0;  0;  0;  0;  0;  0;  0;  0;  0;  0;  0;  0;  0;  0;  0;  0;  0;  0;  0;
       0; 10;  8;  8;  6;  6;  6;  6;  4;  4;  4;  4;  4;  4;  4;  4;  2;  2;  2;  2;  2;  2;  2;  2;  2;  2;  2;  2;  2;  2;  2;  2;
       0;  0;  0;  0;  0;  0;  0;  0;  0;  0;  0;  0;  0;  0;  0;  0;  0;  0;  0;  0;  0;  0;  0;  0;  0;  0;  0;  0;  0;  0;  0;  0;
       0; 10;  8;  8;  6;  6;  6;  6;  4;  4;  4;  4;  4;  4;  4;  4;  2;  2;  2;  2;  2;  2;  2;  2;  2;  2;  2;  2;  2;  2;  2;  2;
       0;  0;  0;  0;  0;  0;  0;  0;  0;  0;  0;  0;  0;  0;  0;  0;  0;  0;  0;  0;  0;  0;  0;  0;  0;  0;  0;  0;  0;  0;  0;  0;
       0; 10;  8;  8;  6;  6;  6;  6;  4;  4;  4;  4;  4;  4;  4;  4;  2;  2;  2;  2;  2;  2;  2;  2;  2;  2;  2;  2;  2;  2;  2;  2;
       0;  0;  0;  0;  0;  0;  0;  0;  0;  0;  0;  0;  0;  0;  0;  0;  0;  0;  0;  0;  0;  0;  0;  0;  0;  0;  0;  0;  0;  0;  0;  0];
    [ 0; 12; 10; 10;  8;  8;  8;  8;  6;  6;  6;  6;  6;  6;  6;  6;  4;  4;  4;  4;  4;  4;  4;  4;  4;  4;  4;  4;  4;  4;  4;  4;
       2;  2;  2;  2;  2;  2;  2;  2;  2;  2;  2;  2;  2;  2;  2;  2;  2;  2;  2;  2;  2;  2;  2;  2;  2;  2;  2;  2;  2;  2;  2;  2;
       0;  0;  0;  0;  0;  0;  0;  0;  0;  0;  0;  0;  0;  0;  0;  0;  0;  0;  0;  0;  0;  0;  0;  0;  0;  0;  0;  0;  0;  0;  0;  0;
       0;  0;  0;  0;  0;  0;  0;  0;  0;  0;  0;  0;  0;  0;  0;  0;  0;  0;  0;  0;  0;  0;  0;  0;  0;  0;  0;  0;  0;  0;  0;  0;
       0; 12; 10; 10;  8;  8;  8;  8;  6;  6;  6;  6;  6;  6;  6;  6;  4;  4;  4;  4;  4;  4;  4;  4;  4;  4;  4;  4;  4;  4;  4;  4;
       2;  2;  2;  2;  2;  2;  2;  2;  2;  2;  2;  2;  2;  2;  2;  2;  2;  2;  2;  2;  2;  2;  2;  2;  2;  2;  2;  2;  2;  2;  2;  2;
       0;  0;  0;  0;  0;  0;  0;  0;  0;  0;  0;  0;  0;  0;  0;  0;  0;  0;  0;  0;  0;  0;  0;  0;  0;  0;  0;  0;  0;  0;  0;  0;
       0;  0;  0;  0;  0;  0;  0;  0;  0;  0;  0;  0;  0;  0;  0;  0;  0;  0;  0;  0;  0;  0;  0;  0;  0;  0;  0;  0;  0;  0;  0;  0] ].

Definition mask_d_v : list v4di :=
  [ V4 0x0000000000000001 0x8040201008040201 0x0101010101010101 0;
    V4 0x0000000000000102 0x0080402010080402 0x0202020202020202 0;
    V4 0x0000000000010204 0x0000804020100804 0x0404040404040404 0;
    V4 0x0000000001020408 0x0000008040201008 0x0808080808080808 0;
    V4 0x0000000102040810 0x0000000080402010 0x1010101010101010 0;
    V4 0x0000010204081020 0x0000000000804020 0x2020202020202020 0;
    V4 0x0001020408102040 0x0000000000008040 0x4040404040404040 0;
    V4 0x0102040810204080 0x0000000000000080 0x8080808080808080 0;
    V4 0x0000000000000102 0x4020100804020100 0x0101010101010101 0;
    V4 0x0000000000010204 0x8040201008040201 0x0202020202020202 0;
    V4 0x0000000001020408 0x0080402010080402 0x0404040404040404 0;
    V4 0x0000000102040810 0x0000804020100804 0x0808080808080808 0;
    V4 0x0000010204081020 0x0000008040201008 0x1010101010101010 0;
    V4 0x0001020408102040 0x0000000080402010 0x2020202020202020 0;
    V4 0x0102040810204080 0x0000000000804020 0x4040404040404040 0;
    V4 0x0204081020408000 0x0000000000008040 0x8080808080808080 0;
    V4 0x0000000000010204 0x2010080402010000 0x0101010101010101 0;
    V4 0x0000000001020408 0x4020100804020100 0x0202020202020202 0;
    V4 0x0000000102040810 0x8040201008040201 0x0404040404040404 0;
    V4 0x0000010204081020 0x0080402010080402 0x0808080808080808 0;
    V4 0x0001020408102040 0x0000804020100804 0x1010101010101010 0;
    V4 0x0102040810204080 0x0000008040201008 0x2020202020202020 0;
    V4 0x0204081020408000 0x0000000080402010 0x4040404040404040 0;
    V4 0x0408102040800000 0x0000000000804020 0x8080808080808080 0;
    V4 0x0000000001020408 0x1008040201000000 0x0101010101010101 0;
    V4 0x0000000102040810 0x2010080402010000 0x0202020202020202 0;
    V4 0x0000010204081020 0x4020100804020100 0x0404040404040404 0;
    V4 0x0001020408102040 0x8040201008040201 0x0808080808080808 0;
    V4 0x0102040810204080 0x0080402010080402 0x1010101010101010 0;
    V4 0x0204081020408000 0x0000804020100804 0x2020202020202020 0;
    V4 0x0408102040800000 0x0000008040201008 0x4040404040404040 0;
    V4 0x0810204080000000 0x0000000080402010 0x8080808080808080 0;
    V4 0x0000000102040810 0x0804020100000000 0x0101010101010101 0;
    V4 0x0000010204081020 0x1008040201000000 0x0202020202020202 0;
    V4 0x0001020408102040 0x2010080402010000 0x0404040404040404 0;
    V4 0x0102040810204080 0x4020100804020100 0x0808080808080808 0;
    V4 0x0204081020408000 0x8040201008040201 0x1010101010101010 0;
    V4 0x0408102040800000 0x0080402010080402 0x2020202020202020 0;
    V4 0x0810204080000000 0x0000804020100804 0x4040404040404040 0;
    V4 0x1020408000000000 0x0000008040201008 0x8080808080808080 0;
    V4 0x0000010204081020 0x0402010000000000 0x0101010101010101 0;
    V4 0x0001020408102040 0x0804020100000000 0x0202020202020202 0;
    V4 0x0102040810204080 0x1008040201000000 0x0404040404040404 0;
    V4 0x0204081020408000 0x2010080402010000 0x0808080808080808 0;
    V4 0x0408102040800000 0x4020100804020100 0x1010101010101010 0;
    V4 0x0810204080000000 0x8040201008040201 0x2020202020202020 0;
    V4 0x1020408000000000 0x0080402010080402 0x4040404040404040 0;
    V4 0x2040800000000000 0x0000804020100804 0x8080808080808080 0;
    V4 0x0001020408102040 0x0201000000000000 0x0101010101010101 0;
    V4 0x0102040810204080 0x0402010000000000 0x0202020202020202 0;
    V4 0x0204081020408000 0x0804020100000000 0x0404040404040404 0;
    V4 0x0408102040800000 0x1008040201000000 0x0808080808080808 0;
    V4 0x0810204080000000 0x2010080402010000 0x1010101010101010 0;
    V4 0x1020408000000000 0x4020100804020100 0x2020202020202020 0;
    V4 0x2040800000000000 0x8040201008040201 0x4040404040404040 0;
    V4 0x4080000000000000 0x0080402010080402 0x8080808080808080 0;
    V4 0x0102040810204080 0x0100000000000000 0x0101010101010101 0;
    V4 0x0204081020408000 0x0201000000000000 0x0202020202020202 0;
    V4 0x0408102040800000 0x0402010000000000 0x0404040404040404 0;
    V4 0x0810204080000000 0x0804020100000000 0x0808080808080808 0;
    V4 0x1020408000000000 0x1008040201000000 0x1010101010101010 0;
    V4 0x2040800000000000 0x2010080402010000 0x2020202020202020 0;
    V4 0x4080000000000000 0x4020100804020100 0x4040404040404040 0;
    V4 0x8000000000000000 0x8040201008040201 0x8080808080808080 0 ].

(** The initializer of [mask_d] as the file has it, lines 182 to 215: 64
    entries and, in front of entry 16 (line 191), the identifier [y]. *)
Definition mask_d_initializer : list init_item :=
  [ Entry (V2 0x0000000000000001 0x8040201008040201);
    Entry (V2 0x0000000000000102 0x0080402010080402);
    Entry (V2 0x0000000000010204 0x0000804020100804);
    Entry (V2 0x0000000001020408 0x0000008040201008);
    Entry (V2 0x0000000102040810 0x0000000080402010);
    Entry (V2 0x0000010204081020 0x0000000000804020);
    Entry (V2 0x0001020408102040 0x0000000000008040);
    Entry (V2 0x0102040810204080 0x0000000000000080);
    Entry (V2 0x0000000000000102 0x4020100804020100);
    Entry (V2 0x0000000000010204 0x8040201008040201);
    Entry (V2 0x0000000001020408 0x0080402010080402);
    Entry (V2 0x0000000102040810 0x0000804020100804);
    Entry (V2 0x0000010204081020 0x0000008040201008);
    Entry (V2 0x0001020408102040 0x0000000080402010);
    Entry (V2 0x0102040810204080 0x0000000000804020);
    Entry (V2 0x0204081020408000 0x0000000000008040);
    Stray "y";
    Entry (V2 0x0000000000010204 0x2010080402010000);
    Entry (V2 0x0000000001020408 0x4020100804020100);
    Entry (V2 0x0000000102040810 0x8040201008040201);
    Entry (V2 0x0000010204081020 0x0080402010080402);
    Entry (V2 0x0001020408102040 0x0000804020100804);
    Entry (V2 0x0102040810204080 0x0000008040201008);
    Entry (V2 0x0204081020408000 0x0000000080402010);
    Entry (V2 0x0408102040800000 0x0000000000804020);
    Entry (V2 0x0000000001020408 0x1008040201000000);
    Entry (V2 0x0000000102040810 0x2010080402010000);
    Entry (V2 0x0000010204081020 0x4020100804020100);
    Entry (V2 0x0001020408102040 0x8040201008040201);
    Entry (V2 0x0102040810204080 0x0080402010080402);
    Entry (V2 0x0204081020408000 0x0000804020100804);
    Entry (V2 0x0408102040800000 0x0000008040201008);
    Entry (V2 0x0810204080000000 0x0000000080402010);
    Entry (V2 0x0000000102040810 0x0804020100000000);
    Entry (V2 0x0000010204081020 0x1008040201000000);
    Entry (V2 0x0001020408102040 0x2010080402010000);
    Entry (V2 0x0102040810204080 0x4020100804020100);
    Entry (V2 0x0204081020408000 0x8040201008040201);
    Entry (V2 0x0408102040800000 0x0080402010080402);
    Entry (V2 0x0810204080000000 0x0000804020100804);
    Entry (V2 0x1020408000000000 0x0000008040201008);
    Entry (V2 0x0000010204081020 0x0402010000000000);
    Entry (V2 0x0001020408102040 0x0804020100000000);
    Entry (V2 0x0102040810204080 0x1008040201000000);
    Entry (V2 0x0204081020408000 0x2010080402010000);
    Entry (V2 0x0408102040800000 0x4020100804020100);
    Entry (V2 0x0810204080000000 0x8040201008040201);
    Entry (V2 0x1020408000000000 0x0080402010080402);
    Entry (V2 0x2040800000000000 0x0000804020100804);
    Entry (V2 0x0001020408102040 0x0201000000000000);
    Entry (V2 0x0102040810204080 0x0402010000000000);
    Entry (V2 0x0204081020408000 0x0804020100000000);
    Entry (V2 0x0408102040800000 0x1008040201000000);
    Entry (V2 0x0810204080000000 0x2010080402010000);
    Entry (V2 0x1020408000000000 0x4020100804020100);
    Entry (V2 0x2040800000000000 0x8040201008040201);
    Entry (V2 0x4080000000000000 0x0080402010080402);
    Entry (V2 0x0102040810204080 0x0100000000000000);
    Entry (V2 0x0204081020408000 0x0201000000000000);
    Entry (V2 0x0408102040800000 0x0402010000000000);
    Entry (V2 0x0810204080000000 0x0804020100000000);
    Entry (V2 0x1020408000000000 0x1008040201000000);
    Entry (V2 0x2040800000000000 0x2010080402010000);
    Entry (V2 0x4080000000000000 0x4020100804020100);
    Entry (V2 0x8000000000000000 0x8040201008040201) ].

(** [mask_d]: the 64 entries of the initializer, which is what the SSE
    path of [last_flip] reads once the stray token is taken out.  As the
    file stands the initializer denotes no array ([elaborate] gives
    [None]): see [last_flip_built]. *)
Definition mask_d : list v2di := entries mask_d_initializer.

(** ** Tables of flip_sse_bitscan.c

    [maskl] is written [~0x...] without a suffix: see [not_literal].  [masko]
    is compiled only without LZCNT, for the guardian-bit variant of
    [count_opp_reverse]. *)

Definition maskl : list (v2di * v2di) :=
  [ (V2 (~' 0x00000000000000fe) (~' 0x0000000000000000), V2 (~' 0x0101010101010100) (~' 0x8040201008040200));
    (V2 (~' 0x00000000000000fc) (~' 0x0000000000000100), V2 (~' 0x0202020202020200) (~' 0x0080402010080400));
    (V2 (~' 0x00000000000000f8) (~' 0x0000000000010200), V2 (~' 0x0404040404040400) (~' 0x0000804020100800));
    (V2 (~' 0x00000000000000f0) (~' 0x0000000001020400), V2 (~' 0x0808080808080800) (~' 0x0000008040201000));
    (V2 (~' 0x00000000000000e0) (~' 0x0000000102040800), V2 (~' 0x1010101010101000) (~' 0x0000000080402000));
    (V2 (~' 0x00000000000000c0) (~' 0x0000010204081000), V2 (~' 0x2020202020202000) (~' 0x0000000000804000));
    (V2 (~' 0x0000000000000080) (~' 0x0001020408102000), V2 (~' 0x4040404040404000) (~' 0x0000000000008000));
    (V2 (~' 0x0000000000000000) (~' 0x0102040810204000), V2 (~' 0x8080808080808000) (~' 0x0000000000000000));
    (V2 (~' 0x000000000000fe00) (~' 0x0000000000000000), V2 (~' 0x0101010101010000) (~' 0x4020100804020000));
    (V2 (~' 0x000000000000fc00) (~' 0x0000000000010000), V2 (~' 0x0202020202020000) (~' 0x8040201008040000));
    (V2 (~' 0x000000000000f800) (~' 0x0000000001020000), V2 (~' 0x0404040404040000) (~' 0x0080402010080000));
    (V2 (~' 0x000000000000f000) (~' 0x0000000102040000), V2 (~' 0x0808080808080000) (~' 0x0000804020100000));
    (V2 (~' 0x000000000000e000) (~' 0x0000010204080000), V2 (~' 0x1010101010100000) (~' 0x0000008040200000));
    (V2 (~' 0x000000000000c000) (~' 0x0001020408100000), V2 (~' 0x2020202020200000) (~' 0x0000000080400000));
    (V2 (~' 0x0000000000008000) (~' 0x0102040810200000), V2 (~' 0x4040404040400000) (~' 0x0000000000800000));
    (V2 (~' 0x0000000000000000) (~' 0x0204081020400000), V2 (~' 0x8080808080800000) (~' 0x0000000000000000));
    (V2 (~' 0x0000000000fe0000) (~' 0x0000000000000000), V2 (~' 0x0101010101000000) (~' 0x2010080402000000));
    (V2 (~' 0x0000000000fc0000) (~' 0x0000000001000000), V2 (~' 0x0202020202000000) (~' 0x4020100804000000));
    (V2 (~' 0x0000000000f80000) (~' 0x0000000102000000), V2 (~' 0x0404040404000000) (~' 0x8040201008000000));
    (V2 (~' 0x0000000000f00000) (~' 0x0000010204000000), V2 (~' 0x0808080808000000) (~' 0x0080402010000000));
    (V2 (~' 0x0000000000e00000) (~' 0x0001020408000000), V2 (~' 0x1010101010000000) (~' 0x0000804020000000));
    (V2 (~' 0x0000000000c00000) (~' 0x0102040810000000), V2 (~' 0x2020202020000000) (~' 0x0000008040000000));
    (V2 (~' 0x0000000000800000) (~' 0x0204081020000000), V2 (~' 0x4040404040000000) (~' 0x0000000080000000));
    (V2 (~' 0x0000000000000000) (~' 0x0408102040000000), V2 (~' 0x8080808080000000) (~' 0x0000000000000000));
    (V2 (~' 0x00000000fe000000) (~' 0x0000000000000000), V2 (~' 0x0101010100000000) (~' 0x1008040200000000));
    (V2 (~' 0x00000000fc000000) (~' 0x0000000100000000), V2 (~' 0x0202020200000000) (~' 0x2010080400000000));
    (V2 (~' 0x00000000f8000000) (~' 0x0000010200000000), V2 (~' 0x0404040400000000) (~' 0x4020100800000000));
    (V2 (~' 0x00000000f0000000) (~' 0x0001020400000000), V2 (~' 0x0808080800000000) (~' 0x8040201000000000));
    (V2 (~' 0x00000000e0000000) (~' 0x0102040800000000), V2 (~' 0x1010101000000000) (~' 0x0080402000000000));
    (V2 (~' 0x00000000c0000000) (~' 0x0204081000000000), V2 (~' 0x2020202000000000) (~' 0x0000804000000000));
    (V2 (~' 0x0000000080000000) (~' 0x0408102000000000), V2 (~' 0x4040404000000000) (~' 0x0000008000000000));
    (V2 (~' 0x0000000000000000) (~' 0x0810204000000000), V2 (~' 0x8080808000000000) (~' 0x0000000000000000));
    (V2 (~' 0x000000fe00000000) (~' 0x0000000000000000), V2 (~' 0x0101010000000000) (~' 0x0804020000000000));
    (V2 (~' 0x000000fc00000000) (~' 0x0000010000000000), V2 (~' 0x0202020000000000) (~' 0x1008040000000000));
    (V2 (~' 0x000000f800000000) (~' 0x0001020000000000), V2 (~' 0x0404040000000000) (~' 0x2010080000000000));
    (V2 (~' 0x000000f000000000) (~' 0x0102040000000000), V2 (~' 0x0808080000000000) (~' 0x4020100000000000));
    (V2 (~' 0x000000e000000000) (~' 0x0204080000000000), V2 (~' 0x1010100000000000) (~' 0x8040200000000000));
    (V2 (~' 0x000000c000000000) (~' 0x0408100000000000), V2 (~' 0x2020200000000000) (~' 0x0080400000000000));
    (V2 (~' 0x0000008000000000) (~' 0x0810200000000000), V2 (~' 0x4040400000000000) (~' 0x0000800000000000));
    (V2 (~' 0x0000000000000000) (~' 0x1020400000000000), V2 (~' 0x8080800000000000) (~' 0x0000000000000000));
    (V2 (~' 0x0000fe0000000000) (~' 0x0000000000000000), V2 (~' 0x0101000000000000) (~' 0x0402000000000000));
    (V2 (~' 0x0000fc0000000000) (~' 0x0001000000000000), V2 (~' 0x0202000000000000) (~' 0x0804000000000000));
    (V2 (~' 0x0000f80000000000) (~' 0x0102000000000000), V2 (~' 0x0404000000000000) (~' 0x1008000000000000));
    (V2 (~' 0x0000f00000000000) (~' 0x0204000000000000), V2 (~' 0x0808000000000000) (~' 0x2010000000000000));
    (V2 (~' 0x0000e00000000000) (~' 0x0408000000000000), V2 (~' 0x1010000000000000) (~' 0x4020000000000000));
    (V2 (~' 0x0000c00000000000) (~' 0x0810000000000000), V2 (~' 0x2020000000000000) (~' 0x8040000000000000));
    (V2 (~' 0x0000800000000000) (~' 0x1020000000000000), V2 (~' 0x4040000000000000) (~' 0x0080000000000000));
    (V2 (~' 0x0000000000000000) (~' 0x2040000000000000), V2 (~' 0x8080000000000000) (~' 0x0000000000000000));
    (V2 (~' 0x00fe000000000000) (~' 0x0000000000000000), V2 (~' 0x0100000000000000) (~' 0x0200000000000000));
    (V2 (~' 0x00fc000000000000) (~' 0x0100000000000000), V2 (~' 0x0200000000000000) (~' 0x0400000000000000));
    (V2 (~' 0x00f8000000000000) (~' 0x0200000000000000), V2 (~' 0x0400000000000000) (~' 0x0800000000000000));
    (V2 (~' 0x00f0000000000000) (~' 0x0400000000000000), V2 (~' 0x0800000000000000) (~' 0x1000000000000000));
    (V2 (~' 0x00e0000000000000) (~' 0x0800000000000000), V2 (~' 0x1000000000000000) (~' 0x2000000000000000));
    (V2 (~' 0x00c0000000000000) (~' 0x1000000000000000), V2 (~' 0x2000000000000000) (~' 0x4000000000000000));
    (V2 (~' 0x0080000000000000) (~' 0x2000000000000000), V2 (~' 0x4000000000000000) (~' 0x8000000000000000));
    (V2 (~' 0x0000000000000000) (~' 0x4000000000000000), V2 (~' 0x8000000000000000) (~' 0x0000000000000000));
    (V2 (~' 0xfe00000000000000) (~' 0x0000000000000000), V2 (~' 0x0000000000000000) (~' 0x0000000000000000));
    (V2 (~' 0xfc00000000000000) (~' 0x0000000000000000), V2 (~' 0x0000000000000000) (~' 0x0000000000000000));
    (V2 (~' 0xf800000000000000) (~' 0x0000000000000000), V2 (~' 0x0000000000000000) (~' 0x0000000000000000));
    (V2 (~' 0xf000000000000000) (~' 0x0000000000000000), V2 (~' 0x0000000000000000) (~' 0x0000000000000000));
    (V2 (~' 0xe000000000000000) (~' 0x0000000000000000), V2 (~' 0x0000000000000000) (~' 0x0000000000000000));
    (V2 (~' 0xc000000000000000) (~' 0x0000000000000000), V2 (~' 0x0000000000000000) (~' 0x0000000000000000));
    (V2 (~' 0x8000000000000000) (~' 0x0000000000000000), V2 (~' 0x0000000000000000) (~' 0x0000000000000000));
    (V2 (~' 0x0000000000000000) (~' 0x0000000000000000), V2 (~' 0x0000000000000000) (~' 0x0000000000000000)) ].

Definition masko : list (Z * Z * Z * Z) :=
  [ (0x0000000000000000, 0x0000000000000000, 0x0000000000000000, 0x0000000000000000);
    (0x0000000000000000, 0x0000000000000000, 0x0000000000000000, 0x0000000000000000);
    (0x0000000000000002, 0x0000000000000000, 0x0000000000000000, 0x0000000000000000);
    (0x0000000000000006, 0x0000000000000000, 0x0000000000000000, 0x0000000000000000);
    (0x000000000000000e, 0x0000000000000000, 0x0000000000000000, 0x0000000000000000);
    (0x000000000000001e, 0x0000000000000000, 0x0000000000000000, 0x0000000000000000);
    (0x000000000000003e, 0x0000000000000000, 0x0000000000000000, 0x0000000000000000);
    (0x000000000000007e, 0x0000000000000000, 0x0000000000000000, 0x0000000000000000);
    (0x0000000000000000, 0x0000000000000000, 0x0000000000000000, 0x0000000000000000);
    (0x0000000000000000, 0x0000000000000000, 0x0000000000000000, 0x0000000000000000);
    (0x0000000000000200, 0x0000000000000000, 0x0000000000000000, 0x0000000000000000);
    (0x0000000000000600, 0x0000000000000000, 0x0000000000000000, 0x0000000000000000);
    (0x0000000000000e00, 0x0000000000000000, 0x0000000000000000, 0x0000000000000000);
    (0x0000000000001e00, 0x0000000000000000, 0x0000000000000000, 0x0000000000000000);
    (0x0000000000003e00, 0x0000000000000000, 0x0000000000000000, 0x0000000000000000);
    (0x0000000000007e00, 0x0000000000000000, 0x0000000000000000, 0x0000000000000000);
    (0x0000000000000000, 0x0000000000000200, 0x0000000000000100, 0x0000000000000000);
    (0x0000000000000000, 0x0000000000000400, 0x0000000000000200, 0x0000000000000000);
    (0x0000000000020000, 0x0000000000000800, 0x0000000000000400, 0x0000000000000200);
    (0x0000000000060000, 0x0000000000001000, 0x0000000000000800, 0x0000000000000400);
    (0x00000000000e0000, 0x0000000000002000, 0x0000000000001000, 0x0000000000000800);
    (0x00000000001e0000, 0x0000000000004000, 0x0000000000002000, 0x0000000000001000);
    (0x00000000003e0000, 0x0000000000000000, 0x0000000000004000, 0x0000000000002000);
    (0x00000000007e0000, 0x0000000000000000, 0x0000000000008000, 0x0000000000004000);
    (0x0000000000000000, 0x0000000000020400, 0x0000000000010100, 0x0000000000000000);
    (0x0000000000000000, 0x0000000000040800, 0x0000000000020200, 0x0000000000000000);
    (0x0000000002000000, 0x0000000000081000, 0x0000000000040400, 0x0000000000020000);
    (0x0000000006000000, 0x0000000000102000, 0x0000000000080800, 0x0000000000040200);
    (0x000000000e000000, 0x0000000000204000, 0x0000000000101000, 0x0000000000080400);
    (0x000000001e000000, 0x0000000000400000, 0x0000000000202000, 0x0000000000100800);
    (0x000000003e000000, 0x0000000000000000, 0x0000000000404000, 0x0000000000201000);
    (0x000000007e000000, 0x0000000000000000, 0x0000000000808000, 0x0000000000402000);
    (0x0000000000000000, 0x0000000002040800, 0x0000000001010100, 0x0000000000000000);
    (0x0000000000000000, 0x0000000004081000, 0x0000000002020200, 0x0000000000000000);
    (0x0000000200000000, 0x0000000008102000, 0x0000000004040400, 0x0000000002000000);
    (0x0000000600000000, 0x0000000010204000, 0x0000000008080800, 0x0000000004020000);
    (0x0000000e00000000, 0x0000000020400000, 0x0000000010101000, 0x0000000008040200);
    (0x0000001e00000000, 0x0000000040000000, 0x0000000020202000, 0x0000000010080400);
    (0x0000003e00000000, 0x0000000000000000, 0x0000000040404000, 0x0000000020100800);
    (0x0000007e00000000, 0x0000000000000000, 0x0000000080808000, 0x0000000040201000);
    (0x0000000000000000, 0x0000000204081000, 0x0000000101010100, 0x0000000000000000);
    (0x0000000000000000, 0x0000000408102000, 0x0000000202020200, 0x0000000000000000);
    (0x0000020000000000, 0x0000000810204000, 0x0000000404040400, 0x0000000200000000);
    (0x0000060000000000, 0x0000001020400000, 0x0000000808080800, 0x0000000402000000);
    (0x00000e0000000000, 0x0000002040000000, 0x0000001010101000, 0x0000000804020000);
    (0x00001e0000000000, 0x0000004000000000, 0x0000002020202000, 0x0000001008040200);
    (0x00003e0000000000, 0x0000000000000000, 0x0000004040404000, 0x0000002010080400);
    (0x00007e0000000000, 0x0000000000000000, 0x0000008080808000, 0x0000004020100800);
    (0x0000000000000000, 0x0000020408102000, 0x0000010101010100, 0x0000000000000000);
    (0x0000000000000000, 0x0000040810204000, 0x0000020202020200, 0x0000000000000000);
    (0x0002000000000000, 0x0000081020400000, 0x0000040404040400, 0x0000020000000000);
    (0x0006000000000000, 0x0000102040000000, 0x0000080808080800, 0x0000040200000000);
    (0x000e000000000000, 0x0000204000000000, 0x0000101010101000, 0x0000080402000000);
    (0x001e000000000000, 0x0000400000000000, 0x0000202020202000, 0x0000100804020000);
    (0x003e000000000000, 0x0000000000000000, 0x0000404040404000, 0x0000201008040200);
    (0x007e000000000000, 0x0000000000000000, 0x0000808080808000, 0x0000402010080400);
    (0x0000000000000000, 0x0002040810204000, 0x0001010101010100, 0x0000000000000000);
    (0x0000000000000000, 0x0004081020400000, 0x0002020202020200, 0x0000000000000000);
    (0x0200000000000000, 0x0008102040000000, 0x0004040404040400, 0x0002000000000000);
    (0x0600000000000000, 0x0010204000000000, 0x0008080808080800, 0x0004020000000000);
    (0x0e00000000000000, 0x0020400000000000, 0x0010101010101000, 0x0008040200000000);
    (0x1e00000000000000, 0x0040000000000000, 0x0020202020202000, 0x0010080402000000);
    (0x3e00000000000000, 0x0000000000000000, 0x0040404040404000, 0x0020100804020000);
    (0x7e00000000000000, 0x0000000000000000, 0x0080808080808000, 0x0040201008040200) ].

Definition maskr : list (Z * Z * Z * Z) :=
  [ (0x0000000000000000, 0x0000000000000000, 0x0000000000000000, 0x0000000000000000);
    (0x0000000000000001, 0x0000000000000000, 0x0000000000000000, 0x0000000000000000);
    (0x0000000000000003, 0x0000000000000000, 0x0000000000000000, 0x0000000000000000);
    (0x0000000000000007, 0x0000000000000000, 0x0000000000000000, 0x0000000000000000);
    (0x000000000000000f, 0x0000000000000000, 0x0000000000000000, 0x0000000000000000);
    (0x000000000000001f, 0x0000000000000000, 0x0000000000000000, 0x0000000000000000);
    (0x000000000000003f, 0x0000000000000000, 0x0000000000000000, 0x0000000000000000);
    (0x000000000000007f, 0x0000000000000000, 0x0000000000000000, 0x0000000000000000);
    (0x0000000000000000, 0x0000000000000002, 0x0000000000000001, 0x0000000000000000);
    (0x0000000000000100, 0x0000000000000004, 0x0000000000000002, 0x0000000000000001);
    (0x0000000000000300, 0x0000000000000008, 0x0000000000000004, 0x0000000000000002);
    (0x0000000000000700, 0x0000000000000010, 0x0000000000000008, 0x0000000000000004);
    (0x0000000000000f00, 0x0000000000000020, 0x0000000000000010, 0x0000000000000008);
    (0x0000000000001f00, 0x0000000000000040, 0x0000000000000020, 0x0000000000000010);
    (0x0000000000003f00, 0x0000000000000080, 0x0000000000000040, 0x0000000000000020);
    (0x0000000000007f00, 0x0000000000000000, 0x0000000000000080, 0x0000000000000040);
    (0x0000000000000000, 0x0000000000000204, 0x0000000000000101, 0x0000000000000000);
    (0x0000000000010000, 0x0000000000000408, 0x0000000000000202, 0x0000000000000100);
    (0x0000000000030000, 0x0000000000000810, 0x0000000000000404, 0x0000000000000201);
    (0x0000000000070000, 0x0000000000001020, 0x0000000000000808, 0x0000000000000402);
    (0x00000000000f0000, 0x0000000000002040, 0x0000000000001010, 0x0000000000000804);
    (0x00000000001f0000, 0x0000000000004080, 0x0000000000002020, 0x0000000000001008);
    (0x00000000003f0000, 0x0000000000008000, 0x0000000000004040, 0x0000000000002010);
    (0x00000000007f0000, 0x0000000000000000, 0x0000000000008080, 0x0000000000004020);
    (0x0000000000000000, 0x0000000000020408, 0x0000000000010101, 0x0000000000000000);
    (0x0000000001000000, 0x0000000000040810, 0x0000000000020202, 0x0000000000010000);
    (0x0000000003000000, 0x0000000000081020, 0x0000000000040404, 0x0000000000020100);
    (0x0000000007000000, 0x0000000000102040, 0x0000000000080808, 0x0000000000040201);
    (0x000000000f000000, 0x0000000000204080, 0x0000000000101010, 0x0000000000080402);
    (0x000000001f000000, 0x0000000000408000, 0x0000000000202020, 0x0000000000100804);
    (0x000000003f000000, 0x0000000000800000, 0x0000000000404040, 0x0000000000201008);
    (0x000000007f000000, 0x0000000000000000, 0x0000000000808080, 0x0000000000402010);
    (0x0000000000000000, 0x0000000002040810, 0x0000000001010101, 0x0000000000000000);
    (0x0000000100000000, 0x0000000004081020, 0x0000000002020202, 0x0000000001000000);
    (0x0000000300000000, 0x0000000008102040, 0x0000000004040404, 0x0000000002010000);
    (0x0000000700000000, 0x0000000010204080, 0x0000000008080808, 0x0000000004020100);
    (0x0000000f00000000, 0x0000000020408000, 0x0000000010101010, 0x0000000008040201);
    (0x0000001f00000000, 0x0000000040800000, 0x0000000020202020, 0x0000000010080402);
    (0x0000003f00000000, 0x0000000080000000, 0x0000000040404040, 0x0000000020100804);
    (0x0000007f00000000, 0x0000000000000000, 0x0000000080808080, 0x0000000040201008);
    (0x0000000000000000, 0x0000000204081020, 0x0000000101010101, 0x0000000000000000);
    (0x0000010000000000, 0x0000000408102040, 0x0000000202020202, 0x0000000100000000);
    (0x0000030000000000, 0x0000000810204080, 0x0000000404040404, 0x0000000201000000);
    (0x0000070000000000, 0x0000001020408000, 0x0000000808080808, 0x0000000402010000);
    (0x00000f0000000000, 0x0000002040800000, 0x0000001010101010, 0x0000000804020100);
    (0x00001f0000000000, 0x0000004080000000, 0x0000002020202020, 0x0000001008040201);
    (0x00003f0000000000, 0x0000008000000000, 0x0000004040404040, 0x0000002010080402);
    (0x00007f0000000000, 0x0000000000000000, 0x0000008080808080, 0x0000004020100804);
    (0x0000000000000000, 0x0000020408102040, 0x0000010101010101, 0x0000000000000000);
    (0x0001000000000000, 0x0000040810204080, 0x0000020202020202, 0x0000010000000000);
    (0x0003000000000000, 0x0000081020408000, 0x0000040404040404, 0x0000020100000000);
    (0x0007000000000000, 0x0000102040800000, 0x0000080808080808, 0x0000040201000000);
    (0x000f000000000000, 0x0000204080000000, 0x0000101010101010, 0x0000080402010000);
    (0x001f000000000000, 0x0000408000000000, 0x0000202020202020, 0x0000100804020100);
    (0x003f000000000000, 0x0000800000000000, 0x0000404040404040, 0x0000201008040201);
    (0x007f000000000000, 0x0000000000000000, 0x0000808080808080, 0x0000402010080402);
    (0x0000000000000000, 0x0002040810204080, 0x0001010101010101, 0x0000000000000000);
    (0x0100000000000000, 0x0004081020408000, 0x0002020202020202, 0x0001000000000000);
    (0x0300000000000000, 0x0008102040800000, 0x0004040404040404, 0x0002010000000000);
    (0x0700000000000000, 0x0010204080000000, 0x0008080808080808, 0x0004020100000000);
    (0x0f00000000000000, 0x0020408000000000, 0x0010101010101010, 0x0008040201000000);
    (0x1f00000000000000, 0x0040800000000000, 0x0020202020202020, 0x0010080402010000);
    (0x3f00000000000000, 0x0080000000000000, 0x0040404040404040, 0x0020100804020100);
    (0x7f00000000000000, 0x0000000000000000, 0x0080808080808080, 0x0040201008040201) ].

(** ** [last_flip] *)

Inductive strategy : Type := AVX2 | SSE.

(** [COUNT_FLIP[i][j]]. *)
Definition count_flip (i j : Z) : option Z :=
  row <- zth COUNT_FLIP i ;; zth row j.

(** The branch of [#ifdef __AVX2__] gives the first read and [t]; the three
    other reads are common.  The [SSE] branch is the [#else] branch over the
    64 entries of [mask_d]. *)
Definition last_flip (s : strategy) (pos P : Z) : option Z :=
  let x := Z.land pos 7 in
  let y := Z.shiftr pos 3 in
  let P0 := mm_cvtsi64_si128 P in
  '(n_flipped, t) <-
    match s with
    | AVX2 =>
        m <- zth mask_d_v pos ;;
        let t := u32 (Z.lnot (mm256_movemask_epi8 (mm256_cmpeq_epi8
                   (mm256_and_si256 (mm256_broadcastq_epi64 P0) m)
                   mm256_setzero_si256))) in
        n <- count_flip y (Z.shiftr t 16) ;;
        Some (n, t)
    | SSE =>
        n <- count_flip y (mm_movemask_epi8
               (mm_sll_epi64 P0 (mm_cvtsi32_si128 (Z.lxor x 7)))) ;;
        m <- zth mask_d pos ;;
        let t := u32 (Z.lnot (mm_movemask_epi8 (mm_cmpeq_epi8
                   (mm_and_si128 (mm_unpacklo_epi64 P0 P0) m)
                   mm_setzero_si128))) in
        Some (n, t)
    end ;;
  a <- count_flip y (uchar (Z.shiftr t 8)) ;;
  let n_flipped := uchar (n_flipped + a) in
  b <- count_flip y (uchar t) ;;
  let n_flipped := uchar (n_flipped + b) in
  c <- count_flip x (uchar (Z.shiftr P (y * 8))) ;;
  let n_flipped := uchar (n_flipped + c) in
  Some n_flipped.

(** [last_flip] as a build of the file gives it.  With [__AVX2__] the
    [#else] branch and [mask_d] are not compiled.  Without it the
    translation unit holds the initializer of [mask_d], and there is a
    function only if that initializer denotes an array. *)
Definition last_flip_built (s : strategy) (pos P : Z) : option Z :=
  match s with
  | AVX2 => last_flip AVX2 pos P
  | SSE => _ <- elaborate mask_d_initializer ;; last_flip SSE pos P
  end.

(** ** [flip] *)

Inductive build : Type :=
| Lzcnt     (* __LZCNT__ and __x86_64__, or MSVC x64 *)
| NoLzcnt.  (* the guardian-bit variant *)

Definition count_opp_reverse (b : build) (O mo mr : Z) : Z :=
  match b with
  | Lzcnt => lzcnt64 (Z.land (not64 O) mr)
  | NoLzcnt => builtin_clzll (Z.lxor (Z.land O mo) mr)
  end.

Definition SWAP64 : Z := 0x4e.
Definition SWAP32 : Z := 0xb1.

Definition minusone : v2di := V2 (u64 (-1)) (u64 (-1)).

Definition flipmask (outflank : v2di) : v2di :=
  mm_cmpeq_epi32 (mm_shuffle_epi32 outflank SWAP32) outflank.

(** The contribution of one ray towards the low-order end: the two lines
    [outflankr = (0x8000000000000000ULL >> count_opp_reverse (...)) & P] and
    [(-outflankr * 2) & maskr[pos][i]]. *)
Definition flip_reverse (b : build) (P O mo mr : Z) : Z :=
  let outflankr := Z.land (shr64 0x8000000000000000 (count_opp_reverse b O mo mr)) P in
  Z.land (mul64 (neg64 outflankr) 2) mr.

(** The two rays towards the high-order end held in one register: the two
    assignments to [outflank17], and likewise to [outflank89]. *)
Definition flip_forward (PP OO ml : v2di) : v2di :=
  let outflank := v_and (v_and (v_not ml) (v_sub (v_or OO ml) minusone)) PP in
  v_and (v_not ml) (v_sub outflank (v_sub (flipmask outflank) minusone)).

Definition flip (b : build) (pos P O : Z) : option Z :=
  '(mo1, mo7, mo8, mo9) <- zth masko pos ;;
  '(mr1, mr7, mr8, mr9) <- zth maskr pos ;;
  '(ml17, ml89) <- zth maskl pos ;;
  let flipped := flip_reverse b P O mo1 mr1 in
  let flipped := Z.lor flipped (flip_reverse b P O mo7 mr7) in
  let flipped := Z.lor flipped (flip_reverse b P O mo8 mr8) in
  let flipped := Z.lor flipped (flip_reverse b P O mo9 mr9) in
  let PP := mm_set1_epi64x P in
  let OO := mm_set1_epi64x O in
  let outflank17 := flip_forward PP OO ml17 in
  let outflank89 := flip_forward PP OO ml89 in
  let outflank17 := v_or outflank17 outflank89 in
  let outflank17 := v_or outflank17 (mm_shuffle_epi32 outflank17 SWAP64) in
  Some (Z.lor flipped (q0 outflank17)).

(** ** Reference definitions *)

Definition zrange (n : nat) : list Z := map Z.of_nat (seq 0 n).

(** [bit_count], the population count of a 64-bit word, which bit.h takes
    from the compiler ([__builtin_popcountll]). *)
Definition bit_count (x : Z) : Z :=
  fold_right (fun i acc => (if Z.testbit x i then 1 else 0) + acc) 0 (zrange 64).

(** [x_to_bit]: the bitboard with one bit set. *)
Definition x_to_bit (i : Z) : Z := Z.shiftl 1 i.

(** Full 64-bit bit reversal: bit [i] goes to bit [63 - i]. *)
Definition reverse64 (x : Z) : Z :=
  fold_right (fun i acc => Z.lor (if Z.testbit x i then x_to_bit (63 - i) else 0) acc)
             0 (zrange 64).

(** The squares of the ray that leaves column [x], row [y] by steps of
    [(dx, dy)], nearest first, up to the board edge. *)
Fixpoint ray_from (fuel : nat) (x y dx dy : Z) : list Z :=
  match fuel with
  | O => []
  | S f =>
      let x' := x + dx in
      let y' := y + dy in
      if (0 <=? x') && (x' <? 8) && (0 <=? y') && (y' <? 8)
      then (8 * y' + x') :: ray_from f x' y' dx dy
      else []
  end.

Definition ray (pos : Z) (d : Z * Z) : list Z :=
  ray_from 7 (pos mod 8) (pos / 8) (fst d) (snd d).

(** Steps +1, +7, +8, +9 of the square index, then their opposites. *)
Definition forward_dirs : list (Z * Z) := [(1, 0); (-1, 1); (0, 1); (1, 1)].
Definition reverse_dirs : list (Z * Z) := [(-1, 0); (1, -1); (0, -1); (-1, -1)].
Definition directions : list (Z * Z) := forward_dirs ++ reverse_dirs.

Definition mask_of (cells : list Z) : Z :=
  fold_right (fun c acc => Z.lor (x_to_bit c) acc) 0 cells.

(** The discs flipped along one ray: the opponent squares met before the
    first other square, kept when that square holds a player disc. *)
Fixpoint run (cells : list Z) (P O acc : Z) : Z :=
  match cells with
  | [] => 0
  | c :: rest =>
      if Z.testbit O c then run rest P O (Z.lor acc (x_to_bit c))
      else if Z.testbit P c then acc
      else 0
  end.

(** The postcondition of [flip], after the specification: the union over
    the eight rays. *)
Definition flip_spec (pos P O : Z) : Z :=
  fold_right (fun d acc => Z.lor (run (ray pos d) P O 0) acc) 0 directions.

(** The input contract of [flip]. *)
Definition valid_position (pos P O : Z) : Prop :=
  0 <= pos <= 63 /\ 0 <= P < 2 ^ 64 /\ 0 <= O < 2 ^ 64 /\
  Z.testbit P pos = false /\ Z.testbit O pos = false /\ Z.land P O = 0.

(** The generation rule of a count-flip entry, after the specification:
    from cell [i], walking by [step], the number of 0 cells met before the
    first 1 cell, and 0 when the end of the line comes first. *)
Fixpoint scan (fuel : nat) (pattern i step len : Z) : Z :=
  match fuel with
  | O => 0
  | S f =>
      if (0 <=? i) && (i <? 8) then
        if Z.testbit pattern i then len
        else scan f pattern (i + step) step (len + 1)
      else 0
  end.

Definition count_flip_rule (k pattern : Z) : Z :=
  2 * (scan 8 pattern (k + 1) 1 0 + scan 8 pattern (k - 1) (-1) 0).

(** ** Definitions used in the proofs *)

(** *** Lines of [last_flip] *)

(** The 8-bit pattern that [pcmpeqb] and [pmovmskb] gather from [P & m]: bit
    [k] is set when byte [k] of [P & m] is not zero. *)
Definition line_pattern (P m : Z) : Z :=
  sum8 (fun k => 2 ^ k) (fun k => negb (byte k (Z.land P m) =? 0)).

(** The common end of both strategies of [last_flip]: four reads of the
    table, added in an [unsigned char]. *)
Definition sum_lookups (y x pc pb pa pr : Z) : option Z :=
  n <- count_flip y pc ;;
  a <- count_flip y pb ;;
  b <- count_flip y pa ;;
  c <- count_flip x pr ;;
  Some (uchar (uchar (uchar (n + a) + b) + c)).

(** The indices of a line above and below index [k], nearest first. *)
Definition up_indices (k : Z) : list Z := filter (fun i => k <? i) lanes8.
Definition down_indices (k : Z) : list Z := rev (filter (fun i => i <? k) lanes8).

(** The square that a mask selects in byte [i]. *)
Definition cell_at (M i : Z) : option Z :=
  let b := byte i M in
  if b =? 0 then None else Some (8 * i + Z.log2 b).

Definition opt_bit (P : Z) (oc : option Z) : bool :=
  match oc with
  | Some c => Z.testbit P c
  | None => false
  end.

(** The run of [false] cells in front of the first [true] cell; 0 when no
    cell is [true]. *)
Fixpoint line_run (bs : list bool) (len : Z) : Z :=
  match bs with
  | [] => 0
  | true :: _ => len
  | false :: t => line_run t (len + 1)
  end.

(** *** Lanes of [flip] *)

(** One 64-bit lane of [flipmask]. *)
Definition flipmask_lane (x : Z) : Z :=
  if lo32 x =? hi32 x then 2 ^ 64 - 1 else 0.

(** One 64-bit lane of [flip_forward]. *)
Definition forward_lane (P O ml : Z) : Z :=
  let outflank := Z.land (Z.land (not64 ml) (sub64 (Z.lor O ml) (u64 (-1)))) P in
  Z.land (not64 ml) (sub64 outflank (sub64 (flipmask_lane outflank) (u64 (-1)))).

(** Every bit of [a] is a bit of [b]. *)
Definition bits_in (a b : Z) : Prop :=
  forall i, 0 <= i -> Z.testbit a i = true -> Z.testbit b i = true.

(** *** Rays as lists of squares *)

(** [r] holds between every square of the list and every later one. *)
Fixpoint ordered (r : Z -> Z -> bool) (l : list Z) : bool :=
  match l with
  | [] => true
  | a :: t => forallb (r a) t && ordered r t
  end.

Definition on_board (l : list Z) : bool :=
  forallb (fun c => (0 <=? c) && (c <? 64)) l.

(** A ray as [last_flip] needs it: on the board, without repetition and
    away from the played square. *)
Definition plain_ray (pos : Z) (cells : list Z) : Prop :=
  on_board cells = true /\ NoDup cells /\ ~ In pos cells.

Definition mirror (c : Z) : Z := 63 - c.

Definition opposite (d : Z * Z) : Z * Z := (- fst d, - snd d).

(** The number of bits of [x] among the indices of [l]. *)
Definition count_on (l : list Z) (x : Z) : Z :=
  fold_right (fun i acc => (if Z.testbit x i then 1 else 0) + acc) 0 l.

Fixpoint pairwise_disjoint (ms : list Z) : bool :=
  match ms with
  | [] => true
  | m :: t => forallb (fun m' => Z.land m m' =? 0) t && pairwise_disjoint t
  end.

(** *** Checks of the tables, decided by evaluation *)

Definition opt_eqb (o : option Z) (v : Z) : bool :=
  match o with
  | Some w => w =? v
  | None => false
  end.

Definition list_eqb (l1 l2 : list Z) : bool :=
  (length l1 =? length l2)%nat && forallb (fun p => fst p =? snd p) (combine l1 l2).

Definition opt_eq (a b : option Z) : bool :=
  match a, b with
  | Some x, Some y => x =? y
  | None, None => true
  | _, _ => false
  end.

Fixpoint opts_eqb (l1 l2 : list (option Z)) : bool :=
  match l1, l2 with
  | [], [] => true
  | a :: t, b :: u => opt_eq a b && opts_eqb t u
  | _, _ => false
  end.

Definition in64 (x : Z) : bool := (0 <=? x) && (x <? 2 ^ 64).

(** An entry of [COUNT_FLIP] is even and at most 12. *)
Definition entry_ok (i j : Z) : bool :=
  match count_flip i j with
  | Some v => (0 <=? v) && (v <=? 12) && Z.even v
  | None => false
  end.

(** The rule of the table and the run of the line agree. *)
Definition scan_ok (k pattern : Z) : bool :=
  (scan 8 pattern (k + 1) 1 0 =? line_run (map (Z.testbit pattern) (up_indices k)) 0)
  && (scan 8 pattern (k - 1) (-1) 0
      =? line_run (map (Z.testbit pattern) (down_indices k)) 0).

(** Row [pos] of [mask_d_v] has an empty fourth lane and the column of
    [pos] in its third; [mask_d] holds its first two lanes. *)
Definition masks_ok (pos : Z) : bool :=
  match zth mask_d_v pos, zth mask_d pos with
  | Some m, Some m' =>
      (w3 m =? 0) && (w2 m =? Z.shiftl 0x0101010101010101 (Z.land pos 7))
      && (q0 m' =? w0 m) && (q1 m' =? w1 m)
  | _, _ => false
  end.

(** A mask has at most one bit in each byte. *)
Definition single_bit_bytes (M : Z) : bool :=
  forallb (fun i => let b := byte i M in (b =? 0) || (b =? 2 ^ Z.log2 b)) lanes8.

(** [cellf] lists, index by index, the squares of a ray and nothing
    behind it. *)
Definition view_ok (cellf : Z -> option Z) (idxs cells : list Z) : bool :=
  opts_eqb (map cellf idxs)
           (map Some cells ++ repeat None (length idxs - length cells)).

(** The three masks and the row byte of [last_flip] at [pos] list the
    eight rays of [pos], which are disjoint and avoid [pos]. *)
Definition lines_ok (pos : Z) : bool :=
  let x := Z.land pos 7 in
  let y := Z.shiftr pos 3 in
  match zth mask_d_v pos with
  | Some m =>
      single_bit_bytes (w0 m) && single_bit_bytes (w1 m) && single_bit_bytes (w2 m)
      && view_ok (cell_at (w2 m)) (up_indices y) (ray pos (0, 1))
      && view_ok (cell_at (w2 m)) (down_indices y) (ray pos (0, -1))
      && view_ok (cell_at (w1 m)) (up_indices y) (ray pos (1, 1))
      && view_ok (cell_at (w1 m)) (down_indices y) (ray pos (-1, -1))
      && view_ok (cell_at (w0 m)) (up_indices y) (ray pos (-1, 1))
      && view_ok (cell_at (w0 m)) (down_indices y) (ray pos (1, -1))
      && view_ok (fun i => Some (8 * y + i)) (up_indices x) (ray pos (1, 0))
      && view_ok (fun i => Some (8 * y + i)) (down_indices x) (ray pos (-1, 0))
      && pairwise_disjoint (map (fun d => mask_of (ray pos d)) directions)
      && forallb (fun d => negb (existsb (Z.eqb pos) (ray pos d))) directions
  | None => false
  end.

(** The rows of [flip] at [pos] exist and hold 64-bit values. *)
Definition rows_ok (pos : Z) : bool :=
  match zth masko pos, zth maskr pos, zth maskl pos with
  | Some _, Some (r1, r7, r8, r9), Some (V2 l1 l7, V2 l8 l9) =>
      in64 r1 && in64 r7 && in64 r8 && in64 r9
      && in64 l1 && in64 l7 && in64 l8 && in64 l9
  | _, _, _ => false
  end.

(** The squares whose [maskl] row holds an entry complemented in 32
    bits. *)
Definition defective : list Z := [4; 13; 22; 24; 25; 26; 27; 28; 29; 30].

(** The rays of [pos] are on the board, ascending towards the high-order
    end and descending towards the low-order end. *)
Definition rays_ok (pos : Z) : bool :=
  forallb (fun d => on_board (ray pos d) && ordered Z.ltb (ray pos d)) forward_dirs
  && forallb (fun d => on_board (ray pos d) && ordered Z.gtb (ray pos d)) reverse_dirs.

(** [maskr] holds the low-order rays and [masko] the same rays without
    their last square. *)
Definition reverse_rows_ok (pos : Z) : bool :=
  match zth masko pos, zth maskr pos with
  | Some (o1, o7, o8, o9), Some (r1, r7, r8, r9) =>
      (r1 =? mask_of (ray pos (-1, 0)))
      && (r7 =? mask_of (ray pos (1, -1)))
      && (r8 =? mask_of (ray pos (0, -1)))
      && (r9 =? mask_of (ray pos (-1, -1)))
      && (o1 =? mask_of (removelast (ray pos (-1, 0))))
      && (o7 =? mask_of (removelast (ray pos (1, -1))))
      && (o8 =? mask_of (removelast (ray pos (0, -1))))
      && (o9 =? mask_of (removelast (ray pos (-1, -1))))
  | _, _ => false
  end.

(** [maskl] holds the 64-bit complements of the high-order rays. *)
Definition forward_row_ok (pos : Z) : bool :=
  match zth maskl pos with
  | Some (V2 l1 l7, V2 l8 l9) =>
      (l1 =? not64 (mask_of (ray pos (1, 0))))
      && (l7 =? not64 (mask_of (ray pos (-1, 1))))
      && (l8 =? not64 (mask_of (ray pos (0, 1))))
      && (l9 =? not64 (mask_of (ray pos (1, 1))))
  | None => false
  end.

Definition geometry_ok (pos : Z) : bool :=
  rays_ok pos && reverse_rows_ok pos
  && (existsb (Z.eqb pos) defective || forward_row_ok pos).

(** The rays of the mirrored square are the mirrored rays. *)
Definition mirror_ok (pos : Z) : bool :=
  forallb (fun d => list_eqb (ray (63 - pos) d) (map mirror (ray pos (opposite d)))
                    && on_board (ray pos d))
          directions.

(** Every non-empty [maskr] entry has a square outside [masko]. *)
Definition guardian_ok (pos : Z) : bool :=
  match zth masko pos, zth maskr pos with
  | Some (o1, o7, o8, o9), Some (r1, r7, r8, r9) =>
      forallb (fun p => (snd p =? 0) || negb (Z.land (snd p) (not64 (fst p)) =? 0))
              [(o1, r1); (o7, r7); (o8, r8); (o9, r9)]
  | _, _ => false
  end.

(** ** Further code of bit.h, flip_sse_bitscan.c and count_last_flip_sse.c *)

(** Conversion to [unsigned short]. *)
Definition ushort (x : Z) : Z := x mod 2 ^ 16.

(** [__builtin_bswap16]: the two bytes of a 16-bit value exchanged. *)
Definition builtin_bswap16 (x : Z) : Z :=
  Z.lor (Z.shiftl (Z.land x 255) 8) (Z.land (Z.shiftr x 8) 255).

(** The macro [bswap_short] of compilers without the builtin,
    [(((unsigned short) (x) >> 8) | ((unsigned short) (x) << 8))]: both
    operands are promoted to [int] and nothing truncates the result. *)
Definition bswap_short (x : Z) : Z :=
  Z.lor (Z.shiftr (ushort x) 8) (Z.shiftl (ushort x) 8).

(** [first_bit]: [_tzcnt_u64], the index of the lowest set bit, 64 for
    0 (where [__builtin_ctzll] is undefined). *)
Definition first_bit (x : Z) : Z :=
  match find (Z.testbit x) (zrange 64) with
  | Some i => i
  | None => 64
  end.

(** The values that [i] takes in the body of
    [for (i = first_bit (b); b; i = first_bit (b &= (b - 1)))], in order. *)
Fixpoint foreach_bit (fuel : nat) (b : Z) : list Z :=
  match fuel with
  | O => []
  | S f => if b =? 0 then [] else first_bit b :: foreach_bit f (Z.land b (b - 1))
  end.

(** [bit_count] of 32-bit targets: [__builtin_popcount] on each half. *)
Definition builtin_popcount (x : Z) : Z := count_on (zrange 32) x.
Definition bit_count_halves (x : Z) : Z :=
  builtin_popcount (u32 x) + builtin_popcount (u32 (Z.shiftr x 32)).

(** [lzcnt64] of MSVC without AVX2: [_BitScanReverse64] gives the index
    of the highest set bit, or fails on 0. *)
Definition BitScanReverse64 (n : Z) : option Z :=
  if n =? 0 then None else Some (Z.log2 n).

Definition lzcnt64_msvc (n : Z) : Z :=
  match BitScanReverse64 n with
  | Some i => Z.lxor i 63
  | None => 64
  end.

(** [_mm_cvtsi64_si128] of 32-bit targets. *)
Definition mm_unpacklo_epi32 (a b : v2di) : v2di :=
  of_dwords (dword a 0) (dword b 0) (dword a 1) (dword b 1).

Definition mm_cvtsi64_si128_x86 (x : Z) : v2di :=
  mm_unpacklo_epi32 (mm_cvtsi32_si128 x) (mm_cvtsi32_si128 (Z.shiftr x 32)).

(** The first assignment to [outflank17] and to [outflank89] in [flip]. *)
Definition outflank (PP OO ml : v2di) : v2di :=
  v_and (v_and (v_not ml) (v_sub (v_or OO ml) minusone)) PP.

(** [__builtin_bswap64]: the eight bytes of a word in the opposite
    order. *)
Definition builtin_bswap64 (x : Z) : Z :=
  fold_right (fun k acc => Z.lor (Z.shiftl (byte k x) (8 * (7 - k))) acc) 0 lanes8.

(** [vertical_mirror]: [__builtin_bswap64 (x)]. *)
Definition vertical_mirror (x : Z) : Z := builtin_bswap64 x.

(** ** Further definitions used in the proofs *)

(** Two boards that differ at most on square [s]. *)
Definition same_off (s a a' : Z) : Prop :=
  forall i, i <> s -> Z.testbit a' i = Z.testbit a i.

(** The masks of a square leave the square itself out: every lane of
    [maskl] has its bit, no entry of [maskr] or [masko] has it. *)
Definition played_square_ok (pos : Z) : bool :=
  match zth masko pos, zth maskr pos, zth maskl pos with
  | Some (o1, o7, o8, o9), Some (r1, r7, r8, r9), Some (V2 l1 l7, V2 l8 l9) =>
      forallb (fun m => Z.testbit m pos) [l1; l7; l8; l9]
      && forallb (fun m => negb (Z.testbit m pos)) [r1; r7; r8; r9; o1; o7; o8; o9]
  | _, _, _ => false
  end.

Definition bswap_short_ok (h l : Z) : bool :=
  let x := 256 * h + l in
  (ushort (bswap_short x) =? builtin_bswap16 x)
  && (bswap_short x =? builtin_bswap16 x + 2 ^ 16 * h).

(** The pairs [(masko[pos][i], maskr[pos][i])] that [flip] hands to
    [count_opp_reverse]. *)
Definition reverse_pairs (pos : Z) : list (Z * Z) :=
  match zth masko pos, zth maskr pos with
  | Some (o1, o7, o8, o9), Some (r1, r7, r8, r9) =>
      [(o1, r1); (o7, r7); (o8, r8); (o9, r9)]
  | _, _ => []
  end.

(** An empty [maskr] entry comes with an empty [masko] entry; any other
    has a square outside [masko]. *)
Definition clz_ok (pos : Z) : bool :=
  forallb (fun p => in64 (fst p) && in64 (snd p)
                    && (if snd p =? 0 then fst p =? 0
                        else negb (Z.land (snd p) (not64 (fst p)) =? 0)))
          (reverse_pairs pos).

(** A word that is 0 or has exactly one bit set. *)
Definition zero_or_bit (a : Z) : Prop :=
  a = 0 \/ exists z, 0 <= z < 64 /\ a = 2 ^ z.

(** The lowest square that is neither in the mask lane [ml] nor an
    opponent disc: where the run of opponent discs along the ray of [ml]
    stops. *)
Definition stop_square (O ml : Z) : option Z :=
  find (fun i => negb (Z.testbit (Z.lor O ml) i)) (zrange 64).

(** The outflank word of a lane, stated on squares: the bit of the stop
    square when that square holds a player disc, and 0 when it holds none
    or when there is no stop square. *)
Definition outflank_rule (P O ml : Z) : Z :=
  match stop_square O ml with
  | Some z => if Z.testbit P z then 2 ^ z else 0
  | None => 0
  end.

(** The line of the board through [pos] along [d], [pos] included. *)
Definition line_through (pos : Z) (d : Z * Z) : Z :=
  Z.lor (x_to_bit pos) (Z.lor (mask_of (ray pos d)) (mask_of (ray pos (opposite d)))).

Definition mask_d_ok (pos : Z) : bool :=
  match zth mask_d_v pos, zth mask_d pos with
  | Some (V4 a b c d), Some (V2 a' b') =>
      (a =? line_through pos (-1, 1)) && (b =? line_through pos (1, 1))
      && (c =? line_through pos (0, 1)) && (d =? 0)
      && (a' =? a) && (b' =? b)
  | _, _ => false
  end.

(** The complement that a row of [maskl] holds for the ray along [d]:
    of 64 bits, but of the low 32 bits only for the ray [(1, 0)] of the
    squares 24 to 30 and the ray [(1, 1)] of the squares 4, 13 and 22. *)
Definition maskl_entry (pos : Z) (d : Z * Z) : Z :=
  let m := mask_of (ray pos d) in
  if ((fst d =? 1) && (snd d =? 0) && (24 <=? pos) && (pos <=? 30))
     || ((fst d =? 1) && (snd d =? 1) && existsb (Z.eqb pos) [4; 13; 22])
  then Z.land (not64 m) 0xFFFFFFFF
  else not64 m.

Definition maskl_ok (pos : Z) : bool :=
  match zth maskl pos with
  | Some (V2 l1 l7, V2 l8 l9) =>
      (l1 =? maskl_entry pos (1, 0)) && (l7 =? maskl_entry pos (-1, 1))
      && (l8 =? maskl_entry pos (0, 1)) && (l9 =? maskl_entry pos (1, 1))
  | None => false
  end.

(** The pattern of a line read from the other end. *)
Definition reverse8 (p : Z) : Z :=
  sum8 (fun k => 2 ^ k) (fun k => Z.testbit p (7 - k)).

(** An entry of [COUNT_FLIP] does not depend on bit [k] of the pattern, is
    the entry of the mirrored line, and counts at most the squares strictly
    between [k] and the two ends of the line. *)
Definition count_flip_ok (k p : Z) : bool :=
  match count_flip k p with
  | Some v =>
      opt_eqb (count_flip k (Z.lor p (2 ^ k))) v
      && opt_eqb (count_flip k (Z.ldiff p (2 ^ k))) v
      && opt_eqb (count_flip (7 - k) (reverse8 p)) v
      && (v <=? 2 * (Z.max 0 (k - 1) + Z.max 0 (6 - k)))
      && (0 <=? v)
  | None => false
  end.

(** The square of the same column in the row counted from the other
    side. *)
Definition vmirror (c : Z) : Z := 8 * (7 - c / 8) + c mod 8.

Definition vflip (d : Z * Z) : Z * Z := (fst d, - snd d).

(** The rays of the mirrored square are the mirrored rays. *)
Definition vmirror_ok (pos : Z) : bool :=
  forallb (fun d => list_eqb (ray (vmirror pos) d) (map vmirror (ray pos (vflip d)))
                    && on_board (ray pos d))
          directions.

(** The squares of row [k]. *)
Definition row_squares (k : Z) : list Z := map (Z.add (8 * k)) (zrange 8).

(** * Properties *)

(** ** Bounded quantification by enumeration *)

Lemma zrange_In (n : nat) (i : Z) : 0 <= i < Z.of_nat n -> In i (zrange n).
Proof.
  intros H. unfold zrange. apply in_map_iff. exists (Z.to_nat i). split.
  - lia.
  - apply in_seq. lia.
Qed.

Lemma zrange_forall (f : Z -> bool) (n : nat) :
  forallb f (zrange n) = true -> forall i, 0 <= i < Z.of_nat n -> f i = true.
Proof.
  intros H i Hi. rewrite forallb_forall in H. apply H, zrange_In, Hi.
Qed.

Lemma zrange2_forall (f : Z -> Z -> bool) (n m : nat) :
  forallb (fun i => forallb (f i) (zrange m)) (zrange n) = true ->
  forall i j, 0 <= i < Z.of_nat n -> 0 <= j < Z.of_nat m -> f i j = true.
Proof.
  intros H i j Hi Hj.
  apply (zrange_forall (f i) m); [|exact Hj].
  apply (zrange_forall (fun i => forallb (f i) (zrange m)) n H i Hi).
Qed.

Lemma opt_eqb_eq (o : option Z) (v : Z) : opt_eqb o v = true -> o = Some v.
Proof.
  destruct o as [w|]; simpl; [|discriminate].
  intros H. apply Z.eqb_eq in H. now subst.
Qed.

(** ** Byte masks *)

Lemma sum8_ext (w : Z -> Z) (f g : Z -> bool) :
  (forall k, 0 <= k <= 7 -> f k = g k) -> sum8 w f = sum8 w g.
Proof.
  intros H. unfold sum8, lanes8. simpl.
  rewrite !H by lia. reflexivity.
Qed.

Lemma sum8_pow2_range (f : Z -> bool) : 0 <= sum8 (fun k => 2 ^ k) f <= 255.
Proof.
  unfold sum8, lanes8. simpl.
  destruct (f 0), (f 1), (f 2), (f 3), (f 4), (f 5), (f 6), (f 7); simpl; lia.
Qed.

Lemma movemask_lane_range (a : Z) : 0 <= movemask_lane a <= 255.
Proof. apply sum8_pow2_range. Qed.

Lemma sum8_pow2_compl (f : Z -> bool) :
  255 - sum8 (fun k => 2 ^ k) f = sum8 (fun k => 2 ^ k) (fun k => negb (f k)).
Proof.
  unfold sum8, lanes8. simpl.
  destruct (f 0), (f 1), (f 2), (f 3), (f 4), (f 5), (f 6), (f 7); reflexivity.
Qed.

Lemma movemask_spread (f : Z -> bool) :
  movemask_lane (sum8 (fun k => Z.shiftl 255 (8 * k)) f) = sum8 (fun k => 2 ^ k) f.
Proof.
  unfold movemask_lane, sum8 at 2 3, lanes8. simpl fold_right.
  destruct (f 0), (f 1), (f 2), (f 3), (f 4), (f 5), (f 6), (f 7); reflexivity.
Qed.

Lemma byte_0 (k : Z) : byte k 0 = 0.
Proof. unfold byte. now rewrite Z.shiftr_0_l. Qed.

Lemma movemask_cmpeq_zero (v : Z) :
  movemask_lane (cmpeq8_lane v 0) = 255 - line_pattern v (-1).
Proof.
  unfold cmpeq8_lane, line_pattern. rewrite movemask_spread, sum8_pow2_compl.
  apply sum8_ext. intros k _. rewrite Z.land_m1_r, byte_0, negb_involutive.
  reflexivity.
Qed.

Lemma line_pattern_land (P m : Z) : line_pattern (Z.land P m) (-1) = line_pattern P m.
Proof. unfold line_pattern. apply sum8_ext. intros k _. now rewrite Z.land_m1_r. Qed.

Lemma line_pattern_range (P m : Z) : 0 <= line_pattern P m <= 255.
Proof. apply sum8_pow2_range. Qed.

Lemma line_pattern_0 (P : Z) : line_pattern P 0 = 0.
Proof.
  unfold line_pattern. rewrite Z.land_0_r.
  transitivity (sum8 (fun k => 2 ^ k) (fun _ => false)); [|reflexivity].
  apply sum8_ext. intros k _. now rewrite byte_0.
Qed.

Lemma avx2_mask_bytes (a b c : Z) :
  0 <= a <= 255 -> 0 <= b <= 255 -> 0 <= c <= 255 ->
  let t := u32 (Z.lnot (int32 ((255 - a) + 2 ^ 8 * (255 - b)
                               + 2 ^ 16 * (255 - c) + 2 ^ 24 * 255))) in
  Z.shiftr t 16 = c /\ uchar (Z.shiftr t 8) = b /\ uchar t = a.
Proof.
  intros Ha Hb Hc t.
  assert (Ht : t = a + 2 ^ 8 * b + 2 ^ 16 * c).
  { unfold t, u32, int32, Z.lnot.
    destruct (Z.ltb_spec ((255 - a) + 2 ^ 8 * (255 - b) + 2 ^ 16 * (255 - c)
                          + 2 ^ 24 * 255) (2 ^ 31)) as [H|H]; [lia|].
    symmetry. apply Z.mod_unique_pos with (q := 0); lia. }
  rewrite Ht, !Z.shiftr_div_pow2 by lia. unfold uchar.
  change (2 ^ 16) with 65536. change (2 ^ 8) with 256.
  repeat split.
  - Z.div_mod_to_equations; lia.
  - Z.div_mod_to_equations; lia.
  - Z.div_mod_to_equations; lia.
Qed.

Lemma sse_mask_bytes (a b : Z) :
  0 <= a <= 255 -> 0 <= b <= 255 ->
  let t := u32 (Z.lnot ((255 - a) + 2 ^ 8 * (255 - b))) in
  uchar (Z.shiftr t 8) = b /\ uchar t = a.
Proof.
  intros Ha Hb t.
  assert (Ht : t = a + 2 ^ 8 * b + 2 ^ 16 * 65535).
  { unfold t, u32, Z.lnot. symmetry. apply Z.mod_unique_pos with (q := -1); lia. }
  rewrite Ht, !Z.shiftr_div_pow2 by lia. unfold uchar.
  change (2 ^ 16) with 65536. change (2 ^ 8) with 256.
  split; Z.div_mod_to_equations; lia.
Qed.

(** The mask [t] of the AVX2 strategy: its top byte is empty and the three
    others are the patterns of the column and of the two diagonals. *)
Lemma avx2_mask (P : Z) (m : v4di) :
  w3 m = 0 ->
  let t := u32 (Z.lnot (mm256_movemask_epi8 (mm256_cmpeq_epi8
             (mm256_and_si256 (mm256_broadcastq_epi64 (mm_cvtsi64_si128 P)) m)
             mm256_setzero_si256))) in
  Z.shiftr t 16 = line_pattern P (w2 m) /\
  uchar (Z.shiftr t 8) = line_pattern P (w1 m) /\
  uchar t = line_pattern P (w0 m).
Proof.
  intros H3. destruct m as [m0 m1 m2 m3]. simpl in H3. subst m3.
  unfold mm256_movemask_epi8, mm256_cmpeq_epi8, mm256_and_si256, v4_map2,
    mm256_broadcastq_epi64, mm256_setzero_si256, mm_cvtsi64_si128.
  cbn [w0 w1 w2 w3 q0 q1].
  rewrite !movemask_cmpeq_zero, !line_pattern_land, line_pattern_0.
  change (255 - 0) with 255.
  apply avx2_mask_bytes; apply line_pattern_range.
Qed.

Lemma last_flip_AVX2_lines (pos P : Z) (m : v4di) :
  zth mask_d_v pos = Some m -> w3 m = 0 ->
  last_flip AVX2 pos P =
  sum_lookups (Z.shiftr pos 3) (Z.land pos 7)
    (line_pattern P (w2 m)) (line_pattern P (w1 m)) (line_pattern P (w0 m))
    (uchar (Z.shiftr P (Z.shiftr pos 3 * 8))).
Proof.
  intros Hm H3. destruct (avx2_mask P m H3) as (E2 & E1 & E0).
  unfold last_flip, sum_lookups. rewrite Hm. cbn [bind]. rewrite E2.
  destruct (count_flip (Z.shiftr pos 3) (line_pattern P (w2 m))) as [n|];
    [|reflexivity].
  cbn [bind]. rewrite E1, E0. reflexivity.
Qed.

Lemma last_flip_SSE_lines (pos P : Z) (m : v2di) :
  zth mask_d pos = Some m ->
  last_flip SSE pos P =
  sum_lookups (Z.shiftr pos 3) (Z.land pos 7)
    (mm_movemask_epi8 (mm_sll_epi64 (mm_cvtsi64_si128 P)
                         (mm_cvtsi32_si128 (Z.lxor (Z.land pos 7) 7))))
    (line_pattern P (q1 m)) (line_pattern P (q0 m))
    (uchar (Z.shiftr P (Z.shiftr pos 3 * 8))).
Proof.
  intros Hm. destruct m as [m0 m1].
  unfold last_flip, sum_lookups.
  set (col := mm_movemask_epi8 (mm_sll_epi64 _ _)).
  destruct (count_flip (Z.shiftr pos 3) col) as [n|]; [|reflexivity].
  cbn [bind]. rewrite Hm. cbn [bind].
  unfold mm_movemask_epi8, mm_cmpeq_epi8, mm_and_si128, v2_map2,
    mm_unpacklo_epi64, mm_setzero_si128, mm_cvtsi64_si128.
  cbn [q0 q1].
  rewrite !movemask_cmpeq_zero, !line_pattern_land.
  destruct (sse_mask_bytes (line_pattern P m0) (line_pattern P m1))
    as (E1 & E0); try apply line_pattern_range.
  cbv zeta in E1, E0. rewrite E1, E0. reflexivity.
Qed.

Lemma land_pow2 (a c : Z) :
  0 <= c -> Z.land a (2 ^ c) = if Z.testbit a c then 2 ^ c else 0.
Proof.
  intros Hc. apply Z.bits_inj'. intros i Hi.
  rewrite Z.land_spec, Z.pow2_bits_eqb by exact Hc.
  destruct (Z.eqb_spec c i) as [->|Hne].
  - destruct (Z.testbit a i); [now rewrite Z.pow2_bits_true|now rewrite Z.bits_0].
  - rewrite andb_false_r.
    destruct (Z.testbit a c); [now rewrite Z.pow2_bits_false|now rewrite Z.bits_0].
Qed.

Lemma testbit_byte (k x c : Z) :
  0 <= k -> 0 <= c < 8 -> Z.testbit (byte k x) c = Z.testbit x (8 * k + c).
Proof.
  intros Hk Hc. unfold byte.
  rewrite Z.land_spec, Z.shiftr_spec by lia.
  change 255 with (Z.ones 8). rewrite Z.ones_spec_low by lia.
  rewrite andb_true_r. f_equal. lia.
Qed.

Lemma byte_land (k a b : Z) : byte k (Z.land a b) = Z.land (byte k a) (byte k b).
Proof.
  unfold byte. rewrite Z.shiftr_land.
  apply Z.bits_inj'. intros i Hi. rewrite !Z.land_spec.
  destruct (Z.testbit (Z.shiftr a (8 * k)) i), (Z.testbit (Z.shiftr b (8 * k)) i),
    (Z.testbit 255 i); reflexivity.
Qed.

(** A mask with one bit in byte [k] selects that bit of the board. *)
Lemma byte_land_single (P M k c : Z) :
  0 <= k -> 0 <= c < 8 -> byte k M = 2 ^ c ->
  negb (byte k (Z.land P M) =? 0) = Z.testbit P (8 * k + c).
Proof.
  intros Hk Hc HM. rewrite byte_land, HM, land_pow2 by lia.
  rewrite testbit_byte by lia.
  destruct (Z.testbit P (8 * k + c)); [|reflexivity].
  destruct (Z.eqb_spec (2 ^ c) 0) as [E|E]; [|reflexivity].
  pose proof (Z.pow_pos_nonneg 2 c). lia.
Qed.

Lemma byte_land_none (P M k : Z) :
  byte k M = 0 -> negb (byte k (Z.land P M) =? 0) = false.
Proof. intros HM. now rewrite byte_land, HM, Z.land_0_r. Qed.

Lemma testbit_u64 (a i : Z) : 0 <= i < 64 -> Z.testbit (u64 a) i = Z.testbit a i.
Proof. intros Hi. unfold u64. apply Z.mod_pow2_bits_low. lia. Qed.

Ltac split_range x :=
  match goal with
  | H : 0 <= x <= 7 |- _ =>
      assert (x = 0 \/ x = 1 \/ x = 2 \/ x = 3 \/ x = 4 \/ x = 5 \/ x = 6 \/ x = 7)
        as Hsplit by lia;
      clear H; repeat (destruct Hsplit as [->|Hsplit]); [..|subst x]
  end.

(** The column pattern of the SSE strategy: shifting column [x] into the
    top bit of each byte gathers the same bits as masking the column. *)
Lemma column_pattern (P x : Z) :
  0 <= x <= 7 ->
  mm_movemask_epi8 (mm_sll_epi64 (mm_cvtsi64_si128 P)
                      (mm_cvtsi32_si128 (Z.lxor x 7)))
  = line_pattern P (Z.shiftl 0x0101010101010101 x).
Proof.
  intros Hx.
  assert (E : mm_movemask_epi8 (mm_sll_epi64 (mm_cvtsi64_si128 P)
                      (mm_cvtsi32_si128 (Z.lxor x 7)))
              = movemask_lane (u64 (Z.shiftl P (7 - x)))).
  { split_range x; unfold mm_movemask_epi8, mm_sll_epi64; cbn; lia. }
  rewrite E. unfold movemask_lane, line_pattern. apply sum8_ext. intros k Hk.
  rewrite (byte_land_single P _ k x) by
    (try lia; split_range x; split_range k; reflexivity).
  rewrite testbit_u64, Z.shiftl_spec by lia. f_equal. lia.
Qed.

(** ** Table facts used by [last_flip] *)

Lemma square_coords (pos : Z) :
  0 <= pos <= 63 -> 0 <= Z.land pos 7 <= 7 /\ 0 <= Z.shiftr pos 3 <= 7.
Proof.
  intros H. change 7 with (Z.ones 3) at 1 2.
  rewrite Z.land_ones, Z.shiftr_div_pow2 by lia.
  change (2 ^ 3) with 8. split; Z.div_mod_to_equations; lia.
Qed.

Lemma count_flip_entry (i j : Z) :
  0 <= i <= 7 -> 0 <= j <= 255 ->
  exists v, count_flip i j = Some v /\ 0 <= v <= 12 /\ Z.even v = true.
Proof.
  intros Hi Hj.
  assert (H : entry_ok i j = true).
  { apply (zrange2_forall entry_ok 8 256); [vm_compute; reflexivity | lia | lia]. }
  unfold entry_ok in H. destruct (count_flip i j) as [v|]; [|discriminate].
  exists v. apply andb_prop in H. destruct H as [H He].
  apply andb_prop in H. destruct H as [H0 H1]. repeat split; trivial; lia.
Qed.

Lemma line_masks (pos : Z) :
  0 <= pos <= 63 ->
  exists m, zth mask_d_v pos = Some m /\ w3 m = 0 /\
            w2 m = Z.shiftl 0x0101010101010101 (Z.land pos 7) /\
            zth mask_d pos = Some (V2 (w0 m) (w1 m)).
Proof.
  intros Hpos.
  assert (H : masks_ok pos = true).
  { apply (zrange_forall masks_ok 64); [vm_compute; reflexivity | lia]. }
  unfold masks_ok in H.
  destruct (zth mask_d_v pos) as [m|]; [|discriminate].
  destruct (zth mask_d pos) as [[a b]|]; [|discriminate].
  cbn [q0 q1] in H.
  repeat (apply andb_prop in H; destruct H as [H ?]).
  exists m. repeat split; try (now apply Z.eqb_eq).
  f_equal. f_equal; now apply Z.eqb_eq.
Qed.

Lemma sum_lookups_total (y x pc pb pa pr : Z) :
  0 <= y <= 7 -> 0 <= x <= 7 ->
  0 <= pc <= 255 -> 0 <= pb <= 255 -> 0 <= pa <= 255 -> 0 <= pr <= 255 ->
  exists n, sum_lookups y x pc pb pa pr = Some n /\ 0 <= n <= 48 /\ Z.even n = true.
Proof.
  intros Hy Hx Hc Hb Ha Hr. unfold sum_lookups.
  destruct (count_flip_entry y pc Hy Hc) as (n & -> & Hn & En).
  destruct (count_flip_entry y pb Hy Hb) as (a & -> & Hna & Ea).
  destruct (count_flip_entry y pa Hy Ha) as (b & -> & Hnb & Eb).
  destruct (count_flip_entry x pr Hx Hr) as (c & -> & Hnc & Ec).
  cbn [bind]. unfold uchar.
  rewrite (Z.mod_small (n + a)) by lia.
  rewrite (Z.mod_small (n + a + b)) by lia.
  rewrite (Z.mod_small (n + a + b + c)) by lia.
  eexists. split; [reflexivity|]. split; [lia|].
  rewrite !Z.even_add, En, Ea, Eb, Ec. reflexivity.
Qed.

Lemma uchar_range (v : Z) : 0 <= uchar v <= 255.
Proof. unfold uchar. pose proof (Z.mod_pos_bound v (2 ^ 8)). lia. Qed.

Lemma last_flip_total (s : strategy) (pos P : Z) :
  0 <= pos <= 63 ->
  exists n, last_flip s pos P = Some n /\ 0 <= n <= 48 /\ Z.even n = true.
Proof.
  intros Hpos.
  destruct (line_masks pos Hpos) as (m & Hv & H3 & H2 & Hd).
  destruct (square_coords pos Hpos) as [Hx Hy].
  destruct s.
  - rewrite (last_flip_AVX2_lines pos P m Hv H3).
    apply sum_lookups_total; trivial;
      try apply line_pattern_range; apply uchar_range.
  - rewrite (last_flip_SSE_lines pos P _ Hd), column_pattern by exact Hx.
    apply sum_lookups_total; trivial;
      try apply line_pattern_range; apply uchar_range.
Qed.

(** ** Bit-level facts on 64-bit words *)

Lemma testbit_u64_high (a i : Z) : 64 <= i -> Z.testbit (u64 a) i = false.
Proof. intros Hi. unfold u64. apply Z.mod_pow2_bits_high. lia. Qed.

Lemma testbit_not64 (a i : Z) :
  0 <= i -> Z.testbit (not64 a) i = (i <? 64) && negb (Z.testbit a i).
Proof.
  intros Hi. unfold not64. destruct (Z.ltb_spec i 64) as [H|H].
  - rewrite testbit_u64, Z.lnot_spec by lia. reflexivity.
  - now rewrite testbit_u64_high.
Qed.

Lemma testbit_high (a i : Z) : 0 <= a < 2 ^ 64 -> 64 <= i -> Z.testbit a i = false.
Proof.
  intros Ha Hi. rewrite <- (Z.mod_small a (2 ^ 64)) by exact Ha.
  apply Z.mod_pow2_bits_high. lia.
Qed.

Lemma u64_range (a : Z) : 0 <= u64 a < 2 ^ 64.
Proof. unfold u64. apply Z.mod_pos_bound. lia. Qed.

Lemma range_of_bits (x : Z) :
  0 <= x -> (forall i, 64 <= i -> Z.testbit x i = false) -> 0 <= x < 2 ^ 64.
Proof.
  intros H0 H. replace x with (u64 x); [apply u64_range|].
  apply Z.bits_inj'. intros i Hi. destruct (Z.ltb_spec i 64).
  - apply testbit_u64. lia.
  - rewrite testbit_u64_high, H by lia. reflexivity.
Qed.

Lemma land_range (a b : Z) : 0 <= b < 2 ^ 64 -> 0 <= Z.land a b < 2 ^ 64.
Proof.
  intros Hb. apply range_of_bits.
  - apply Z.land_nonneg. lia.
  - intros i Hi. now rewrite Z.land_spec, (testbit_high b), andb_false_r.
Qed.

Lemma lor_range (a b : Z) :
  0 <= a < 2 ^ 64 -> 0 <= b < 2 ^ 64 -> 0 <= Z.lor a b < 2 ^ 64.
Proof.
  intros Ha Hb. apply range_of_bits.
  - apply Z.lor_nonneg. lia.
  - intros i Hi. now rewrite Z.lor_spec, (testbit_high a), (testbit_high b).
Qed.

Lemma lxor_range (a b : Z) :
  0 <= a < 2 ^ 64 -> 0 <= b < 2 ^ 64 -> 0 <= Z.lxor a b < 2 ^ 64.
Proof.
  intros Ha Hb. apply range_of_bits.
  - apply Z.lxor_nonneg; lia.
  - intros i Hi. now rewrite Z.lxor_spec, (testbit_high a), (testbit_high b).
Qed.

(** ** The low-order rays of [flip] *)

(** [2^64 - 2^(b+1)]: the bits above [b]. *)
Lemma testbit_above (b i : Z) :
  0 <= b <= 63 -> 0 <= i ->
  Z.testbit (2 ^ 64 - 2 ^ (b + 1)) i = (b <? i) && (i <? 64).
Proof.
  intros Hb Hi.
  replace (2 ^ 64 - 2 ^ (b + 1)) with (Z.shiftl (Z.ones (63 - b)) (b + 1)).
  - rewrite Z.shiftl_spec by lia.
    destruct (Z.ltb_spec b i) as [H|H].
    + destruct (Z.ltb_spec i 64) as [H'|H'].
      * rewrite Z.ones_spec_low by lia. reflexivity.
      * rewrite Z.ones_spec_high by lia. reflexivity.
    + rewrite Z.testbit_neg_r by lia. reflexivity.
  - rewrite Z.shiftl_mul_pow2, Z.ones_equiv by lia.
    unfold Z.pred. rewrite Z.mul_add_distr_r, <- Z.pow_add_r by lia.
    replace (63 - b + (b + 1)) with 64 by lia. lia.
Qed.

(** The contribution of a low-order ray, bit by bit: with [V] the word
    whose leading zeros are counted, the bits of [mr] above the top bit of
    [V], when that bit is a player disc. *)
Lemma reverse_bits (V P mr i : Z) :
  0 <= V < 2 ^ 64 -> 0 <= i ->
  Z.testbit (Z.land (mul64 (neg64 (Z.land (shr64 0x8000000000000000 (lzcnt64 V)) P)) 2) mr) i
  = (0 <? V) && Z.testbit P (Z.log2 V) && (Z.log2 V <? i) && (i <? 64)
    && Z.testbit mr i.
Proof.
  intros HV Hi. rewrite Z.land_spec. f_equal.
  unfold lzcnt64. destruct (Z.eqb_spec V 0) as [->|Hne].
  - (* all of the ray is opponent: the probe is bit 63 and nothing is kept *)
    change (shr64 0x8000000000000000 64) with (2 ^ 63).
    rewrite Z.land_comm, land_pow2 by lia.
    destruct (Z.testbit P 63); vm_compute (mul64 _ _); now rewrite Z.bits_0.
  - assert (Hb : 0 <= Z.log2 V <= 63).
    { split; [apply Z.log2_nonneg|].
      assert (Z.log2 V < 64); [|lia]. apply Z.log2_lt_pow2; lia. }
    destruct (Z.ltb_spec 0 V) as [_|]; [|lia]. cbn [andb].
    set (b := Z.log2 V) in *.
    assert (E : shr64 0x8000000000000000 (63 - b) = 2 ^ b).
    { unfold shr64. change 63 with (Z.ones 6) at 2.
      rewrite Z.land_ones, Z.mod_small by lia.
      change 0x8000000000000000 with (2 ^ 63).
      rewrite Z.shiftr_div_pow2, <- Z.pow_sub_r by lia. f_equal. lia. }
    rewrite E, Z.land_comm, land_pow2 by lia.
    destruct (Z.testbit P b); cbn [andb].
    + assert (Hp : 0 < 2 ^ b < 2 ^ 64).
      { split; [apply Z.pow_pos_nonneg; lia|apply Z.pow_lt_mono_r; lia]. }
      assert (Hp' : 2 ^ b <= 2 ^ 63) by (apply Z.pow_le_mono_r; lia).
      assert (E2 : mul64 (neg64 (2 ^ b)) 2 = 2 ^ 64 - 2 ^ (b + 1)).
      { unfold mul64, neg64, u64. rewrite Z.pow_add_r by lia.
        assert (Hn : (- 2 ^ b) mod 2 ^ 64 = 2 ^ 64 - 2 ^ b)
          by (symmetry; apply Z.mod_unique_pos with (q := -1); lia).
        rewrite Hn. symmetry. apply Z.mod_unique_pos with (q := 1); lia. }
      rewrite E2. apply testbit_above; lia.
    + vm_compute (mul64 _ _). now rewrite Z.bits_0.
Qed.

(** ** The high-order rays of [flip] *)

Lemma lo32_range (x : Z) : 0 <= lo32 x < 2 ^ 32.
Proof. unfold lo32. apply Z.mod_pos_bound. lia. Qed.

Lemma hi32_range (x : Z) : 0 <= hi32 x < 2 ^ 32.
Proof. unfold hi32. apply Z.mod_pos_bound. lia. Qed.

Lemma lo32_join32 (a b : Z) : 0 <= a < 2 ^ 32 -> lo32 (join32 a b) = a.
Proof.
  intros Ha. unfold lo32, join32.
  symmetry. apply Z.mod_unique_pos with (q := b); lia.
Qed.

Lemma hi32_join32 (a b : Z) :
  0 <= a < 2 ^ 32 -> 0 <= b < 2 ^ 32 -> hi32 (join32 a b) = b.
Proof.
  intros Ha Hb. unfold hi32, join32.
  replace ((a + 2 ^ 32 * b) / 2 ^ 32) with b.
  - apply Z.mod_small. exact Hb.
  - apply Z.div_unique_pos with (r := a); lia.
Qed.

Lemma join32_lo_hi (x : Z) : 0 <= x < 2 ^ 64 -> join32 (lo32 x) (hi32 x) = x.
Proof.
  intros Hx. unfold join32, lo32, hi32.
  rewrite (Z.mod_small (x / 2 ^ 32)).
  - pose proof (Z.div_mod x (2 ^ 32)). lia.
  - split; [apply Z.div_pos; lia|].
    apply Z.div_lt_upper_bound; [lia|]. change (2 ^ 32 * 2 ^ 32) with (2 ^ 64). lia.
Qed.

Lemma shuffle_SWAP32 (a b : Z) :
  mm_shuffle_epi32 (V2 a b) SWAP32
  = V2 (join32 (hi32 a) (lo32 a)) (join32 (hi32 b) (lo32 b)).
Proof. reflexivity. Qed.

Lemma shuffle_SWAP64 (a b : Z) :
  0 <= a < 2 ^ 64 -> 0 <= b < 2 ^ 64 ->
  mm_shuffle_epi32 (V2 a b) SWAP64 = V2 b a.
Proof.
  intros Ha Hb.
  change (mm_shuffle_epi32 (V2 a b) SWAP64)
    with (V2 (join32 (lo32 b) (hi32 b)) (join32 (lo32 a) (hi32 a))).
  now rewrite !join32_lo_hi.
Qed.

Lemma flipmask_lanes (v : v2di) :
  flipmask v = V2 (flipmask_lane (q0 v)) (flipmask_lane (q1 v)).
Proof.
  destruct v as [a b]. unfold flipmask. rewrite shuffle_SWAP32.
  change (mm_cmpeq_epi32 ?x (V2 a b))
    with (V2 (join32 (if lo32 (q0 x) =? lo32 a then 2 ^ 32 - 1 else 0)
                     (if hi32 (q0 x) =? hi32 a then 2 ^ 32 - 1 else 0))
             (join32 (if lo32 (q1 x) =? lo32 b then 2 ^ 32 - 1 else 0)
                     (if hi32 (q1 x) =? hi32 b then 2 ^ 32 - 1 else 0))).
  cbn [q0 q1].
  rewrite !lo32_join32, !hi32_join32 by (apply lo32_range || apply hi32_range).
  unfold flipmask_lane. rewrite (Z.eqb_sym (hi32 a)), (Z.eqb_sym (hi32 b)).
  destruct (lo32 a =? hi32 a), (lo32 b =? hi32 b); reflexivity.
Qed.

Lemma flip_forward_lanes (P O a b : Z) :
  flip_forward (mm_set1_epi64x P) (mm_set1_epi64x O) (V2 a b)
  = V2 (forward_lane P O a) (forward_lane P O b).
Proof.
  unfold flip_forward. rewrite flipmask_lanes. reflexivity.
Qed.

(** Either the [n] low bits of [X] are all set, or one of them is the
    lowest clear bit. *)
Lemma lowest_clear_bit (X : Z) (n : nat) :
  (forall i, 0 <= i < Z.of_nat n -> Z.testbit X i = true) \/
  (exists z, 0 <= z < Z.of_nat n /\ Z.testbit X z = false /\
             forall i, 0 <= i < z -> Z.testbit X i = true).
Proof.
  induction n as [|n IH].
  - left. intros i Hi. lia.
  - destruct IH as [All|(z & Hz & Hc & Hlow)].
    + destruct (Z.testbit X (Z.of_nat n)) eqn:E.
      * left. intros i Hi.
        destruct (Z.eq_dec i (Z.of_nat n)) as [->|Hne]; [exact E|apply All; lia].
      * right. exists (Z.of_nat n). repeat split; trivial; lia.
    + right. exists z. repeat split; trivial; lia.
Qed.

Lemma all_ones64 (X : Z) :
  0 <= X < 2 ^ 64 -> (forall i, 0 <= i < 64 -> Z.testbit X i = true) ->
  X = 2 ^ 64 - 1.
Proof.
  intros HX H. change (2 ^ 64 - 1) with (Z.ones 64).
  apply Z.bits_inj'. intros i Hi. destruct (Z.ltb_spec i 64).
  - rewrite H, Z.ones_spec_low by lia. reflexivity.
  - rewrite testbit_high, Z.ones_spec_high by lia. reflexivity.
Qed.

(** Adding one sets the lowest clear bit and clears the bits below it: the
    carry runs through the set bits. *)
Lemma succ_bits (X z i : Z) :
  0 <= z -> Z.testbit X z = false ->
  (forall j, 0 <= j < z -> Z.testbit X j = true) ->
  0 <= i ->
  Z.testbit (X + 1) i = if i <? z then false else if i =? z then true else Z.testbit X i.
Proof.
  intros Hz Hc Hlow Hi.
  assert (Hr : X mod 2 ^ z = 2 ^ z - 1).
  { rewrite <- Z.land_ones by lia.
    replace (2 ^ z - 1) with (Z.ones z) by (rewrite Z.ones_equiv; lia).
    apply Z.bits_inj'. intros j Hj. rewrite Z.land_spec.
    destruct (Z.ltb_spec j z).
    - rewrite Hlow, Z.ones_spec_low by lia. reflexivity.
    - rewrite Z.ones_spec_high, andb_false_r by lia. reflexivity. }
  assert (Hq : exists h, X / 2 ^ z = 2 * h).
  { destruct (Z.Even_or_Odd (X / 2 ^ z)) as [[h Hh]|[h Hh]]; [now exists h|].
    rewrite <- Z.shiftr_div_pow2 in Hh by lia.
    assert (Hb : Z.testbit (Z.shiftr X z) 0 = true)
      by (rewrite Hh; apply Z.testbit_odd_0).
    rewrite Z.shiftr_spec in Hb by lia. simpl in Hb. congruence. }
  destruct Hq as [h Hh].
  assert (HX : X + 1 = (2 * h + 1) * 2 ^ z).
  { pose proof (Z.div_mod X (2 ^ z)) as D.
    assert (2 ^ z <> 0) by (pose proof (Z.pow_pos_nonneg 2 z); lia).
    rewrite Hr, Hh in D. lia. }
  assert (Hbit : forall j, 0 <= j -> Z.testbit X (j + z) = Z.testbit (2 * h) j).
  { intros j Hj. rewrite <- Hh, <- Z.shiftr_div_pow2, Z.shiftr_spec by lia.
    reflexivity. }
  rewrite HX.
  destruct (Z.ltb_spec i z) as [Hlt|Hge].
  - apply Z.mul_pow2_bits_low. lia.
  - rewrite Z.mul_pow2_bits by lia.
    destruct (Z.eqb_spec i z) as [->|Hne].
    + rewrite Z.sub_diag. apply Z.testbit_odd_0.
    + replace (Z.testbit X i) with (Z.testbit (2 * h) (i - z))
        by (rewrite <- Hbit by lia; f_equal; lia).
      replace (i - z) with (Z.succ (i - z - 1)) by lia.
      rewrite Z.testbit_odd_succ, Z.testbit_even_succ by lia. reflexivity.
Qed.

Lemma forward_lane_range (P O ml : Z) : 0 <= forward_lane P O ml < 2 ^ 64.
Proof.
  unfold forward_lane. rewrite Z.land_comm. apply land_range, u64_range.
Qed.

Lemma forward_lane_full (P O ml : Z) :
  Z.lor O ml = 2 ^ 64 - 1 -> forward_lane P O ml = 0.
Proof.
  intros H. unfold forward_lane. rewrite H.
  change (sub64 (2 ^ 64 - 1) (u64 (-1))) with 0.
  rewrite Z.land_0_r, Z.land_0_l.
  change (sub64 0 (sub64 (flipmask_lane 0) (u64 (-1)))) with 0.
  apply Z.land_0_r.
Qed.

Lemma flipmask_single (z : Z) : 0 <= z < 64 -> flipmask_lane (2 ^ z) = 0.
Proof.
  intros Hz. apply Z.eqb_eq.
  apply (zrange_forall (fun z => flipmask_lane (2 ^ z) =? 0) 64);
    [vm_compute; reflexivity | lia].
Qed.

Lemma disjoint_bits (P O i : Z) :
  Z.land P O = 0 -> Z.testbit P i && Z.testbit O i = false.
Proof. intros H. now rewrite <- Z.land_spec, H, Z.bits_0. Qed.

Section ForwardLane.

Variables P O ml : Z.
Hypothesis HO : 0 <= O < 2 ^ 64.
Hypothesis Hml : 0 <= ml < 2 ^ 64.
Hypothesis HPO : Z.land P O = 0.

(** With [z] the first square above the played one that is not an
    opponent disc of the ray, a lane keeps the squares of the ray below [z]
    when [z] holds a player disc. *)
Lemma forward_lane_cut (z : Z) :
  0 <= z < 64 -> Z.testbit (Z.lor O ml) z = false ->
  (forall j, 0 <= j < z -> Z.testbit (Z.lor O ml) j = true) ->
  forward_lane P O ml
  = if Z.testbit P z then Z.land (not64 ml) (Z.ones z) else 0.
Proof.
  intros Hz Hc Hlow.
  pose proof (lor_range O ml HO Hml) as HX.
  set (X := Z.lor O ml) in *.
  assert (Hne : X <> 2 ^ 64 - 1).
  { intros E. rewrite E in Hc. change (2 ^ 64 - 1) with (Z.ones 64) in Hc.
    rewrite Z.ones_spec_low in Hc by lia. discriminate. }
  assert (Hs : sub64 X (u64 (-1)) = X + 1).
  { unfold sub64. change (u64 (-1)) with (2 ^ 64 - 1). unfold u64.
    symmetry. apply Z.mod_unique_pos with (q := -1); lia. }
  assert (Hout : Z.land (Z.land (not64 ml) (sub64 X (u64 (-1)))) P
                 = if Z.testbit P z then 2 ^ z else 0).
  { rewrite Hs. apply Z.bits_inj'. intros i Hi.
    rewrite !Z.land_spec, testbit_not64, (succ_bits X z i) by (trivial; lia).
    assert (Hmz : Z.testbit ml z = false).
    { unfold X in Hc. rewrite Z.lor_spec in Hc. now apply orb_false_elim in Hc. }
    destruct (Z.ltb_spec i z) as [Hlt|Hge].
    - rewrite andb_false_r. cbn [andb].
      destruct (Z.testbit P z); [|now rewrite Z.bits_0].
      rewrite Z.pow2_bits_false by lia. reflexivity.
    - destruct (Z.eqb_spec i z) as [->|Hneq].
      + rewrite Hmz. destruct (Z.ltb_spec z 64); [|lia]. cbn [andb negb].
        destruct (Z.testbit P z); [now rewrite Z.pow2_bits_true|now rewrite Z.bits_0].
      + transitivity false.
        * unfold X. rewrite Z.lor_spec.
          pose proof (disjoint_bits P O i HPO) as D.
          destruct (i <? 64), (Z.testbit ml i), (Z.testbit O i), (Z.testbit P i);
            try reflexivity; discriminate.
        * destruct (Z.testbit P z); [|now rewrite Z.bits_0].
          rewrite Z.pow2_bits_false by lia. reflexivity. }
  unfold forward_lane. fold X. rewrite Hout.
  destruct (Z.testbit P z).
  - rewrite flipmask_single by exact Hz.
    change (sub64 0 (u64 (-1))) with 1. f_equal.
    unfold sub64, u64. rewrite Z.ones_equiv, Z.mod_small; [lia|].
    assert (0 < 2 ^ z) by (apply Z.pow_pos_nonneg; lia).
    assert (2 ^ z < 2 ^ 64) by (apply Z.pow_lt_mono_r; lia). lia.
  - change (sub64 0 (sub64 (flipmask_lane 0) (u64 (-1)))) with 0.
    apply Z.land_0_r.
Qed.

(** The three cases of a lane. *)
Lemma forward_lane_cases :
  forward_lane P O ml = 0 \/
  exists z, 0 <= z < 64 /\ Z.testbit (Z.lor O ml) z = false /\
            (forall j, 0 <= j < z -> Z.testbit (Z.lor O ml) j = true) /\
            Z.testbit P z = true /\
            forward_lane P O ml = Z.land (not64 ml) (Z.ones z).
Proof.
  destruct (lowest_clear_bit (Z.lor O ml) 64) as [All|(z & Hz & Hc & Hlow)].
  - left. apply forward_lane_full, all_ones64; [now apply lor_range|exact All].
  - pose proof (forward_lane_cut z Hz Hc Hlow) as E.
    destruct (Z.testbit P z) eqn:EP; [right|now left].
    exists z. repeat split; trivial; lia.
Qed.

End ForwardLane.

(** ** [flip] as the union of eight contributions *)

Lemma in64_range (x : Z) : in64 x = true -> 0 <= x < 2 ^ 64.
Proof. unfold in64. intros H. apply andb_prop in H. lia. Qed.

Lemma flip_rows (pos : Z) :
  0 <= pos <= 63 ->
  exists o1 o7 o8 o9 r1 r7 r8 r9 l1 l7 l8 l9,
    zth masko pos = Some (o1, o7, o8, o9) /\
    zth maskr pos = Some (r1, r7, r8, r9) /\
    zth maskl pos = Some (V2 l1 l7, V2 l8 l9) /\
    (0 <= r1 < 2 ^ 64 /\ 0 <= r7 < 2 ^ 64 /\ 0 <= r8 < 2 ^ 64 /\ 0 <= r9 < 2 ^ 64) /\
    (0 <= l1 < 2 ^ 64 /\ 0 <= l7 < 2 ^ 64 /\ 0 <= l8 < 2 ^ 64 /\ 0 <= l9 < 2 ^ 64).
Proof.
  intros Hpos.
  assert (H : rows_ok pos = true).
  { apply (zrange_forall rows_ok 64); [vm_compute; reflexivity | lia]. }
  unfold rows_ok in H.
  destruct (zth masko pos) as [[[[o1 o7] o8] o9]|]; [|discriminate].
  destruct (zth maskr pos) as [[[[r1 r7] r8] r9]|]; [|discriminate].
  destruct (zth maskl pos) as [[[l1 l7] [l8 l9]]|]; [|discriminate].
  repeat (apply andb_prop in H; destruct H as [H ?]).
  repeat match goal with Hin : in64 _ = true |- _ => apply in64_range in Hin end.
  exists o1, o7, o8, o9, r1, r7, r8, r9, l1, l7, l8, l9.
  repeat split; trivial; lia.
Qed.

Lemma flip_union (b : build) (pos P O : Z)
      (o1 o7 o8 o9 r1 r7 r8 r9 l1 l7 l8 l9 : Z) :
  zth masko pos = Some (o1, o7, o8, o9) ->
  zth maskr pos = Some (r1, r7, r8, r9) ->
  zth maskl pos = Some (V2 l1 l7, V2 l8 l9) ->
  flip b pos P O =
  Some (Z.lor (Z.lor (Z.lor (Z.lor (flip_reverse b P O o1 r1)
                                   (flip_reverse b P O o7 r7))
                            (flip_reverse b P O o8 r8))
                     (flip_reverse b P O o9 r9))
              (Z.lor (Z.lor (forward_lane P O l1) (forward_lane P O l8))
                     (Z.lor (forward_lane P O l7) (forward_lane P O l9)))).
Proof.
  intros Ho Hr Hl. unfold flip. rewrite Ho, Hr, Hl. cbn [bind].
  rewrite !flip_forward_lanes.
  change (v_or (V2 ?a ?b) (V2 ?c ?d)) with (V2 (Z.lor a c) (Z.lor b d)).
  rewrite shuffle_SWAP64 by (apply lor_range; apply forward_lane_range).
  reflexivity.
Qed.

(** ** Only opponent discs flip *)

Lemma bits_in_lor (a b c : Z) : bits_in a c -> bits_in b c -> bits_in (Z.lor a b) c.
Proof.
  intros Ha Hb i Hi H. rewrite Z.lor_spec in H.
  apply orb_prop in H. destruct H; auto.
Qed.

Lemma bits_in_0 (c : Z) : bits_in 0 c.
Proof. intros i _ H. rewrite Z.bits_0 in H. discriminate. Qed.

Lemma bits_in_land_not64 (a b : Z) : bits_in a b -> Z.land a (not64 b) = 0.
Proof.
  intros H. apply Z.bits_inj'. intros i Hi.
  rewrite Z.land_spec, testbit_not64, Z.bits_0 by exact Hi.
  destruct (Z.testbit a i) eqn:E; [|reflexivity].
  rewrite (H i Hi E). now rewrite andb_false_r.
Qed.

Lemma flip_reverse_word (b : build) (O mo mr : Z) :
  0 <= O < 2 ^ 64 -> 0 <= mr < 2 ^ 64 ->
  exists V, count_opp_reverse b O mo mr = lzcnt64 V /\ 0 <= V < 2 ^ 64 /\
            forall i, 0 <= i -> Z.testbit mr i = true -> Z.testbit V i = false ->
                      Z.testbit O i = true.
Proof.
  intros HO Hmr. destruct b.
  - exists (Z.land (not64 O) mr). split; [reflexivity|]. split; [now apply land_range|].
    intros i Hi Hm HV. destruct (Z.ltb_spec i 64) as [Hlt|Hge].
    + rewrite Z.land_spec, testbit_not64, Hm in HV by exact Hi.
      destruct (Z.ltb_spec i 64); [|lia].
      destruct (Z.testbit O i); [reflexivity|discriminate].
    + rewrite (testbit_high mr i) in Hm by assumption. discriminate.
  - exists (Z.lxor (Z.land O mo) mr). split; [reflexivity|].
    split.
    + apply lxor_range; [rewrite Z.land_comm; now apply land_range|exact Hmr].
    + intros i Hi Hm HV. rewrite Z.lxor_spec, Z.land_spec, Hm in HV.
      destruct (Z.testbit O i); [reflexivity|discriminate].
Qed.

Lemma flip_reverse_in (b : build) (P O mo mr : Z) :
  0 <= O < 2 ^ 64 -> 0 <= mr < 2 ^ 64 -> bits_in (flip_reverse b P O mo mr) O.
Proof.
  intros HO Hmr i Hi H.
  destruct (flip_reverse_word b O mo mr HO Hmr) as (V & EV & HV & Hin).
  unfold flip_reverse in H. rewrite EV, reverse_bits in H by assumption.
  repeat (apply andb_prop in H; destruct H as [H ?]).
  apply Hin; trivial. apply Z.bits_above_log2; lia.
Qed.

Lemma forward_lane_in (P O ml : Z) :
  0 <= O < 2 ^ 64 -> 0 <= ml < 2 ^ 64 -> Z.land P O = 0 ->
  bits_in (forward_lane P O ml) O.
Proof.
  intros HO Hml HPO.
  destruct (forward_lane_cases P O ml HO Hml HPO)
    as [->|(z & Hz & Hc & Hlow & HP & ->)]; [apply bits_in_0|].
  intros i Hi H. rewrite Z.land_spec, testbit_not64 in H by exact Hi.
  destruct (Z.ltb_spec i z) as [Hlt|Hge].
  - specialize (Hlow i (conj Hi Hlt)). rewrite Z.lor_spec in Hlow.
    destruct (Z.testbit ml i); [|now rewrite orb_false_r in Hlow].
    rewrite andb_false_r in H. discriminate.
  - rewrite Z.ones_spec_high, andb_false_r in H by lia. discriminate.
Qed.

(** ** Rays as lists of squares *)

Lemma testbit_x_to_bit (c i : Z) :
  0 <= c -> 0 <= i -> Z.testbit (x_to_bit c) i = (i =? c).
Proof.
  intros Hc Hi. unfold x_to_bit. rewrite Z.shiftl_1_l, Z.pow2_bits_eqb by lia.
  apply Z.eqb_sym.
Qed.

Lemma testbit_mask_of (l : list Z) (i : Z) :
  on_board l = true -> 0 <= i ->
  Z.testbit (mask_of l) i = existsb (Z.eqb i) l.
Proof.
  intros Hl Hi. induction l as [|c t IH]; cbn [mask_of fold_right existsb].
  - apply Z.bits_0.
  - cbn [on_board forallb] in Hl. apply andb_prop in Hl. destruct Hl as [Hc Ht].
    fold (mask_of t). rewrite Z.lor_spec, testbit_x_to_bit, IH by (trivial; lia).
    reflexivity.
Qed.

Lemma existsb_eqb_In (i : Z) (l : list Z) : existsb (Z.eqb i) l = true <-> In i l.
Proof.
  rewrite existsb_exists. split.
  - intros (x & Hx & E). apply Z.eqb_eq in E. now subst.
  - intros H. exists i. split; [exact H|apply Z.eqb_refl].
Qed.

Lemma mask_of_range (l : list Z) : on_board l = true -> 0 <= mask_of l < 2 ^ 64.
Proof.
  intros Hl. apply range_of_bits.
  - induction l as [|c t IH]; cbn [mask_of fold_right]; [lia|].
    cbn [on_board forallb] in Hl. apply andb_prop in Hl. destruct Hl as [Hc Ht].
    apply Z.lor_nonneg. split; [|now apply IH].
    unfold x_to_bit. rewrite Z.shiftl_1_l. apply Z.pow_nonneg. lia.
  - intros i Hi. rewrite testbit_mask_of by (trivial; lia).
    destruct (existsb (Z.eqb i) l) eqn:E; [|reflexivity].
    apply existsb_eqb_In in E. unfold on_board in Hl.
    rewrite forallb_forall in Hl. specialize (Hl i E). lia.
Qed.

Lemma on_board_app (l1 l2 : list Z) :
  on_board (l1 ++ l2) = on_board l1 && on_board l2.
Proof. apply forallb_app. Qed.

Lemma on_board_In (l : list Z) (c : Z) : on_board l = true -> In c l -> 0 <= c < 64.
Proof.
  unfold on_board. rewrite forallb_forall. intros H Hc. specialize (H c Hc). lia.
Qed.

Lemma ordered_split (r : Z -> Z -> bool) (pre post : list Z) (c : Z) :
  ordered r (pre ++ c :: post) = true ->
  (forall x, In x pre -> r x c = true) /\ (forall x, In x post -> r c x = true).
Proof.
  induction pre as [|a t IH]; cbn [app ordered]; intros H;
    apply andb_prop in H; destruct H as [Ha Ht].
  - split; [intros x []|]. now rewrite forallb_forall in Ha.
  - destruct (IH Ht) as [H1 H2]. split; [|exact H2].
    intros x [<-|Hx]; [|now apply H1].
    rewrite forallb_forall in Ha. apply Ha, in_elt.
Qed.

(** ** The postcondition along one ray *)

Lemma mask_of_app (l1 l2 : list Z) :
  mask_of (l1 ++ l2) = Z.lor (mask_of l1) (mask_of l2).
Proof.
  induction l1 as [|c t IH]; cbn [app mask_of fold_right]; [reflexivity|].
  fold (mask_of (t ++ l2)) (mask_of t). now rewrite IH, Z.lor_assoc.
Qed.

Lemma run_through (pre rest : list Z) (P O acc : Z) :
  (forall x, In x pre -> Z.testbit O x = true) ->
  run (pre ++ rest) P O acc = run rest P O (Z.lor acc (mask_of pre)).
Proof.
  revert acc. induction pre as [|c t IH]; intros acc H; cbn [app run mask_of fold_right].
  - now rewrite Z.lor_0_r.
  - rewrite (H c) by now left. fold (mask_of t).
    rewrite IH by (intros x Hx; apply H; now right).
    now rewrite Z.lor_assoc.
Qed.

(** The squares of a ray are all opponent discs, or a first square is
    not. *)
Lemma first_gap (cells : list Z) (O : Z) :
  (forall x, In x cells -> Z.testbit O x = true) \/
  (exists pre c post, cells = pre ++ c :: post /\
                      (forall x, In x pre -> Z.testbit O x = true) /\
                      Z.testbit O c = false).
Proof.
  induction cells as [|a t IH].
  - left. intros x [].
  - destruct (Z.testbit O a) eqn:Ea.
    + destruct IH as [All|(pre & c & post & -> & Hpre & Hc)].
      * left. intros x [<-|Hx]; auto.
      * right. exists (a :: pre), c, post. repeat split; trivial.
        intros x [<-|Hx]; auto.
    + right. exists [], a, t. repeat split; trivial. intros x [].
Qed.

Lemma run_all_opponent (cells : list Z) (P O : Z) :
  (forall x, In x cells -> Z.testbit O x = true) -> run cells P O 0 = 0.
Proof.
  intros H. rewrite <- (app_nil_r cells), run_through by exact H. reflexivity.
Qed.

Lemma run_gap (pre post : list Z) (c P O : Z) :
  (forall x, In x pre -> Z.testbit O x = true) -> Z.testbit O c = false ->
  run (pre ++ c :: post) P O 0 = if Z.testbit P c then mask_of pre else 0.
Proof.
  intros Hpre Hc. rewrite run_through by exact Hpre. cbn [run].
  rewrite Hc, Z.lor_0_l. reflexivity.
Qed.

Lemma not64_involutive (m : Z) : 0 <= m < 2 ^ 64 -> not64 (not64 m) = m.
Proof.
  intros Hm. apply Z.bits_inj'. intros i Hi.
  rewrite !testbit_not64 by exact Hi. destruct (Z.ltb_spec i 64).
  - cbn [andb]. apply negb_involutive.
  - rewrite testbit_high by (trivial; lia). reflexivity.
Qed.

Lemma testbit_mask_of_In (l : list Z) (i : Z) :
  on_board l = true -> In i l -> Z.testbit (mask_of l) i = true.
Proof.
  intros Hl Hi. rewrite testbit_mask_of by (trivial; apply (on_board_In l i Hl Hi)).
  now apply existsb_eqb_In.
Qed.

Lemma testbit_mask_of_inv (l : list Z) (i : Z) :
  on_board l = true -> 0 <= i -> Z.testbit (mask_of l) i = true -> In i l.
Proof.
  intros Hl Hi H. rewrite testbit_mask_of in H by assumption.
  now apply existsb_eqb_In.
Qed.

(** A lane of [flip_forward] whose mask is the complement of an ascending
    ray computes the postcondition of that ray. *)
Lemma forward_lane_run (cells : list Z) (P O : Z) :
  on_board cells = true -> ordered Z.ltb cells = true ->
  0 <= O < 2 ^ 64 -> Z.land P O = 0 ->
  forward_lane P O (not64 (mask_of cells)) = run cells P O 0.
Proof.
  intros Hb Hs HO HPO.
  pose proof (mask_of_range cells Hb) as Hm.
  pose proof (u64_range (Z.lnot (mask_of cells))) as Hml.
  fold (not64 (mask_of cells)) in Hml.
  destruct (first_gap cells O) as [All|(pre & c & post & E & Hpre & Hc)].
  - rewrite run_all_opponent by exact All.
    apply forward_lane_full, all_ones64; [now apply lor_range|].
    intros i Hi. rewrite Z.lor_spec, testbit_not64 by lia.
    destruct (Z.ltb_spec i 64); [|lia]. cbn [andb].
    destruct (Z.testbit (mask_of cells) i) eqn:Em; [|apply orb_true_r].
    rewrite All; [reflexivity|]. apply testbit_mask_of_inv; trivial; lia.
  - subst cells. rewrite run_gap by assumption.
    destruct (ordered_split _ _ _ _ Hs) as [Hlt Hgt].
    assert (Hcb : 0 <= c < 64) by (apply (on_board_In _ c Hb), in_elt).
    rewrite (forward_lane_cut P O _ HO Hml HPO c); trivial.
    + destruct (Z.testbit P c); [|reflexivity].
      rewrite not64_involutive by exact Hm.
      rewrite on_board_app in Hb. apply andb_prop in Hb. destruct Hb as [Hb1 Hb2].
      apply Z.bits_inj'. intros i Hi. rewrite Z.land_spec.
      destruct (Z.testbit (mask_of pre) i) eqn:Ei.
      * pose proof (testbit_mask_of_inv pre i Hb1 Hi Ei) as Hin.
        specialize (Hlt i Hin). apply Z.ltb_lt in Hlt.
        rewrite mask_of_app, Z.lor_spec, Ei, Z.ones_spec_low by lia. reflexivity.
      * destruct (Z.ltb_spec i c) as [Hic|Hic].
        -- rewrite mask_of_app, Z.lor_spec, Ei. cbn [orb].
           destruct (Z.testbit (mask_of (c :: post)) i) eqn:Ej; [|reflexivity].
           apply testbit_mask_of_inv in Ej; trivial.
           destruct Ej as [<-|Hin]; [lia|].
           specialize (Hgt i Hin). apply Z.ltb_lt in Hgt. lia.
        -- rewrite Z.ones_spec_high, andb_false_r by lia. reflexivity.
    + rewrite Z.lor_spec, Hc, testbit_not64 by lia.
      rewrite testbit_mask_of_In by (trivial; apply in_elt).
      now rewrite andb_false_r.
    + intros j Hj. rewrite Z.lor_spec, testbit_not64 by lia.
      destruct (Z.ltb_spec j 64); [|lia]. cbn [andb].
      destruct (Z.testbit (mask_of (pre ++ c :: post)) j) eqn:Em; [|apply orb_true_r].
      apply testbit_mask_of_inv in Em; trivial; [|lia].
      apply in_app_or in Em. destruct Em as [Hin|[<-|Hin]].
      * now rewrite Hpre.
      * lia.
      * specialize (Hgt j Hin). apply Z.ltb_lt in Hgt. lia.
Qed.

Lemma top_bit (V c : Z) :
  0 <= V -> Z.testbit V c = true -> (forall i, c < i -> Z.testbit V i = false) ->
  0 < V /\ Z.log2 V = c.
Proof.
  intros HV Hc Hhigh.
  assert (Hpos : 0 < V).
  { destruct (Z.eq_dec V 0) as [->|]; [now rewrite Z.bits_0 in Hc|lia]. }
  split; [exact Hpos|].
  pose proof (Z.bit_log2 V Hpos) as Hl.
  destruct (Z.lt_trichotomy (Z.log2 V) c) as [H|[H|H]]; [|exact H|].
  - rewrite Z.bits_above_log2 in Hc by lia. discriminate.
  - rewrite Hhigh in Hl by lia. discriminate.
Qed.

Lemma In_removelast (l : list Z) (x : Z) : In x (removelast l) -> In x l.
Proof.
  induction l as [|a t IH]; [intros []|].
  cbn [removelast]. destruct t as [|b t']; [intros []|].
  intros [<-|H]; [now left|right; now apply IH].
Qed.

Lemma on_board_removelast (l : list Z) :
  on_board l = true -> on_board (removelast l) = true.
Proof.
  unfold on_board. rewrite !forallb_forall. intros H x Hx.
  apply H, In_removelast, Hx.
Qed.

(** The word whose leading zeros [flip] counts for a descending ray has
    its top bit on the square that decides the ray. *)
Lemma reverse_run_core (V P O : Z) (cells : list Z) :
  0 <= V < 2 ^ 64 -> on_board cells = true -> ordered Z.gtb cells = true ->
  (forall pre c post, cells = pre ++ c :: post ->
     (forall x, In x pre -> Z.testbit O x = true) -> Z.testbit O c = false ->
     Z.testbit V c = true /\ forall i, c < i -> Z.testbit V i = false) ->
  ((forall x, In x cells -> Z.testbit O x = true) ->
     V = 0 \/ Z.testbit P (Z.log2 V) = false) ->
  Z.land (mul64 (neg64 (Z.land (shr64 0x8000000000000000 (lzcnt64 V)) P)) 2)
         (mask_of cells)
  = run cells P O 0.
Proof.
  intros HV Hb Hs Hgap Hall.
  apply Z.bits_inj'. intros i Hi. rewrite reverse_bits by assumption.
  destruct (first_gap cells O) as [All|(pre & c & post & E & Hpre & Hc)].
  - rewrite run_all_opponent, Z.bits_0 by exact All.
    destruct (Hall All) as [->|HP]; [reflexivity|].
    rewrite HP. now rewrite andb_false_r.
  - destruct (Hgap pre c post E Hpre Hc) as [Hc1 Hc2].
    destruct (top_bit V c (proj1 HV) Hc1 Hc2) as [Hpos Hlog].
    subst cells. rewrite run_gap, Hlog by assumption.
    destruct (Z.ltb_spec 0 V); [|lia]. cbn [andb].
    destruct (ordered_split _ _ _ _ Hs) as [Hgt Hlt].
    destruct (Z.testbit P c); cbn [andb]; [|now rewrite Z.bits_0].
    pose proof Hb as Hb'.
    rewrite on_board_app in Hb'. apply andb_prop in Hb'. destruct Hb' as [Hb1 Hb2].
    destruct (Z.testbit (mask_of pre) i) eqn:Ei.
    + pose proof (testbit_mask_of_inv pre i Hb1 Hi Ei) as Hin.
      specialize (Hgt i Hin). apply Z.gtb_gt in Hgt.
      pose proof (on_board_In pre i Hb1 Hin).
      rewrite mask_of_app, Z.lor_spec, Ei.
      destruct (Z.ltb_spec c i); [|lia]. destruct (Z.ltb_spec i 64); [|lia].
      reflexivity.
    + destruct (Z.ltb_spec c i) as [Hci|Hci]; [|reflexivity]. cbn [andb].
      rewrite mask_of_app, Z.lor_spec, Ei. cbn [orb].
      destruct (Z.testbit (mask_of (c :: post)) i) eqn:Ej;
        [|now rewrite andb_false_r].
      apply testbit_mask_of_inv in Ej; trivial.
      destruct Ej as [<-|Hin]; [lia|].
      specialize (Hlt i Hin). apply Z.gtb_gt in Hlt. lia.
Qed.

(** A low-order contribution of [flip] whose masks are those of a
    descending ray computes the postcondition of that ray. *)
Lemma flip_reverse_run (b : build) (cells : list Z) (P O : Z) :
  on_board cells = true -> ordered Z.gtb cells = true ->
  0 <= O < 2 ^ 64 -> Z.land P O = 0 ->
  flip_reverse b P O (mask_of (removelast cells)) (mask_of cells)
  = run cells P O 0.
Proof.
  intros Hb Hs HO HPO.
  pose proof (mask_of_range cells Hb) as Hm.
  pose proof (on_board_removelast cells Hb) as Hb'.
  unfold flip_reverse. destruct b; cbn [count_opp_reverse]; unfold builtin_clzll.
  - apply reverse_run_core; trivial.
    + now apply land_range.
    + intros pre c post E Hpre Hc.
      assert (Hin : In c cells) by (rewrite E; apply in_elt).
      pose proof (on_board_In cells c Hb Hin) as Hcb.
      split.
      * rewrite Z.land_spec, testbit_not64, Hc, testbit_mask_of_In by (trivial; lia).
        destruct (Z.ltb_spec c 64); [reflexivity|lia].
      * intros i Hi. rewrite Z.land_spec, testbit_not64 by lia.
        destruct (Z.testbit (mask_of cells) i) eqn:Ei; [|apply andb_false_r].
        apply testbit_mask_of_inv in Ei; trivial; [|lia].
        rewrite E in Ei, Hs. destruct (ordered_split _ _ _ _ Hs) as [Hgt Hlt].
        apply in_app_or in Ei. destruct Ei as [Hp|[<-|Hp]].
        -- rewrite Hpre by exact Hp. now rewrite andb_false_r.
        -- lia.
        -- specialize (Hlt i Hp). apply Z.gtb_gt in Hlt. lia.
    + intros All. left. apply Z.bits_inj'. intros i Hi.
      rewrite Z.land_spec, testbit_not64, Z.bits_0 by exact Hi.
      destruct (Z.testbit (mask_of cells) i) eqn:Ei; [|apply andb_false_r].
      apply testbit_mask_of_inv in Ei; trivial.
      rewrite All by exact Ei. now rewrite andb_false_r.
  - apply reverse_run_core; trivial.
    + apply lxor_range; [|exact Hm]. rewrite Z.land_comm. now apply land_range.
    + intros pre c post E Hpre Hc.
      assert (Hin : In c cells) by (rewrite E; apply in_elt).
      split.
      * rewrite Z.lxor_spec, Z.land_spec, Hc, (testbit_mask_of_In cells) by trivial.
        reflexivity.
      * intros i Hi. rewrite Z.lxor_spec, Z.land_spec.
        assert (Hi0 : 0 <= i) by (pose proof (on_board_In cells c Hb Hin); lia).
        destruct (Z.testbit (mask_of cells) i) eqn:Ei.
        -- apply testbit_mask_of_inv in Ei; trivial.
           rewrite E in Ei, Hs. destruct (ordered_split _ _ _ _ Hs) as [Hgt Hlt].
           apply in_app_or in Ei. destruct Ei as [Hp|[<-|Hp]].
           ++ rewrite Hpre by exact Hp.
              rewrite testbit_mask_of_In; trivial.
              rewrite E, removelast_app by discriminate. apply in_or_app. now left.
           ++ lia.
           ++ specialize (Hlt i Hp). apply Z.gtb_gt in Hlt. lia.
        -- destruct (Z.testbit (mask_of (removelast cells)) i) eqn:Ej;
             [|now rewrite andb_false_r].
           apply testbit_mask_of_inv, In_removelast in Ej; trivial.
           rewrite testbit_mask_of_In in Ei by trivial. discriminate.
    + intros All. destruct cells as [|a t];
        [left; cbn [removelast mask_of fold_right]; now rewrite Z.land_0_r|right].
      assert (Hne : a :: t <> []) by discriminate.
      pose proof (app_removelast_last 0 Hne) as E.
      set (l := last (a :: t) 0) in *. set (init := removelast (a :: t)) in *.
      assert (Hl : In l (a :: t)) by (rewrite E; apply in_elt).
      rewrite E in Hs. destruct (ordered_split _ _ _ _ Hs) as [Hgt _].
      assert (Htop : Z.testbit (Z.lxor (Z.land O (mask_of init)) (mask_of (a :: t))) l = true
                     /\ forall i, l < i ->
                          Z.testbit (Z.lxor (Z.land O (mask_of init)) (mask_of (a :: t))) i = false).
      { pose proof (on_board_In _ l Hb Hl) as Hlb. split.
        - rewrite Z.lxor_spec, Z.land_spec, (testbit_mask_of_In (a :: t)) by trivial.
          destruct (Z.testbit (mask_of init) l) eqn:Ej; [|now rewrite andb_false_r].
          apply testbit_mask_of_inv in Ej; trivial; [|lia].
          specialize (Hgt l Ej). apply Z.gtb_gt in Hgt. lia.
        - intros i Hi. rewrite Z.lxor_spec, Z.land_spec.
          destruct (Z.testbit (mask_of (a :: t)) i) eqn:Ei.
          + apply testbit_mask_of_inv in Ei; trivial; [|lia].
            rewrite (All i Ei). rewrite E in Ei.
            apply in_app_or in Ei. destruct Ei as [Hp|[<-|[]]]; [|lia].
            rewrite testbit_mask_of_In by trivial. reflexivity.
          + destruct (Z.testbit (mask_of init) i) eqn:Ej; [|now rewrite andb_false_r].
            apply testbit_mask_of_inv, In_removelast in Ej; trivial; [|lia].
            rewrite testbit_mask_of_In in Ei by trivial. discriminate. }
      destruct Htop as [H1 H2].
      assert (HV : 0 <= Z.lxor (Z.land O (mask_of init)) (mask_of (a :: t)))
        by (apply Z.lxor_nonneg; split; intros _; [apply Hm|apply Z.land_nonneg; lia]).
      destruct (top_bit _ l HV H1 H2) as [_ Hlog]. rewrite Hlog.
      pose proof (disjoint_bits P O l HPO) as D. rewrite (All l Hl) in D.
      now rewrite andb_true_r in D.
Qed.

(** ** The masks of [flip] against the board geometry *)

Lemma geometry (pos : Z) : 0 <= pos <= 63 -> geometry_ok pos = true.
Proof.
  intros H. apply (zrange_forall geometry_ok 64); [vm_compute; reflexivity|lia].
Qed.

(** The ten rows of [defective], and only they, differ from the
    geometry. *)
Lemma defective_rows :
  forallb (fun pos => negb (forward_row_ok pos)) defective = true.
Proof. vm_compute. reflexivity. Qed.

Lemma lor_union8 (r1 r7 r8 r9 f1 f7 f8 f9 : Z) :
  Z.lor (Z.lor (Z.lor (Z.lor r1 r7) r8) r9) (Z.lor (Z.lor f1 f8) (Z.lor f7 f9))
  = Z.lor f1 (Z.lor f7 (Z.lor f8 (Z.lor f9
      (Z.lor r1 (Z.lor r7 (Z.lor r8 (Z.lor r9 0))))))).
Proof.
  apply Z.bits_inj'. intros i _. rewrite !Z.lor_spec, Z.bits_0.
  destruct (Z.testbit r1 i), (Z.testbit r7 i), (Z.testbit r8 i), (Z.testbit r9 i),
    (Z.testbit f1 i), (Z.testbit f7 i), (Z.testbit f8 i), (Z.testbit f9 i);
    reflexivity.
Qed.

(** Off the ten defective rows [flip] computes its postcondition. *)
Lemma flip_meets_spec (b : build) (pos P O : Z) :
  valid_position pos P O -> ~ In pos defective ->
  flip b pos P O = Some (flip_spec pos P O).
Proof.
  intros (Hpos & HP & HO & _ & _ & HPO) Hd.
  pose proof (geometry pos Hpos) as G. unfold geometry_ok in G.
  apply andb_prop in G. destruct G as [G Gf].
  apply andb_prop in G. destruct G as [Gr Grev].
  assert (Hnd : existsb (Z.eqb pos) defective = false).
  { destruct (existsb (Z.eqb pos) defective) eqn:E; [|reflexivity].
    apply existsb_eqb_In in E. contradiction. }
  rewrite Hnd in Gf. cbn [orb] in Gf.
  unfold reverse_rows_ok in Grev. unfold forward_row_ok in Gf.
  destruct (zth masko pos) as [[[[o1 o7] o8] o9]|] eqn:Ho; [|discriminate].
  destruct (zth maskr pos) as [[[[r1 r7] r8] r9]|] eqn:Hr; [|discriminate].
  destruct (zth maskl pos) as [[[l1 l7] [l8 l9]]|] eqn:Hl; [|discriminate].
  repeat (apply andb_prop in Grev; destruct Grev as [Grev ?]).
  repeat (apply andb_prop in Gf; destruct Gf as [Gf ?]).
  repeat match goal with E : (_ =? _) = true |- _ => apply Z.eqb_eq in E; subst end.
  unfold rays_ok, forward_dirs, reverse_dirs in Gr. cbn [forallb] in Gr.
  repeat (apply andb_prop in Gr; destruct Gr as [Gr ?]).
  repeat match goal with E : (_ && _) = true |- _ =>
                           apply andb_prop in E; destruct E end.
  rewrite (flip_union b pos P O _ _ _ _ _ _ _ _ _ _ _ _ Ho Hr Hl).
  rewrite !flip_reverse_run, !forward_lane_run by assumption.
  rewrite lor_union8. reflexivity.
Qed.

(** ** Bit reversal *)

Lemma zrange_In_inv (n : nat) (i : Z) : In i (zrange n) -> 0 <= i < Z.of_nat n.
Proof.
  unfold zrange. rewrite in_map_iff. intros (k & <- & Hk).
  apply in_seq in Hk. lia.
Qed.

Lemma testbit_reverse64 (x j : Z) :
  0 <= j -> Z.testbit (reverse64 x) j = (j <? 64) && Z.testbit x (63 - j).
Proof.
  intros Hj. unfold reverse64.
  assert (G : forall l, (forall i, In i l -> 0 <= i < 64) ->
    Z.testbit (fold_right (fun i acc =>
        Z.lor (if Z.testbit x i then x_to_bit (63 - i) else 0) acc) 0 l) j
    = existsb (fun i => Z.testbit x i && (j =? 63 - i)) l).
  { induction l as [|a t IH]; intros Hl; cbn [fold_right existsb].
    - apply Z.bits_0.
    - rewrite Z.lor_spec, IH by (intros i Hi; apply Hl; now right).
      f_equal. pose proof (Hl a (or_introl eq_refl)).
      destruct (Z.testbit x a); [|now rewrite Z.bits_0].
      rewrite testbit_x_to_bit by lia. reflexivity. }
  rewrite G by (intros i Hi; apply zrange_In_inv in Hi; lia).
  destruct (Z.ltb_spec j 64) as [Hlt|Hge]; cbn [andb].
  - destruct (Z.testbit x (63 - j)) eqn:E.
    + apply existsb_exists. exists (63 - j). split.
      * apply zrange_In. lia.
      * rewrite E. cbn [andb]. apply Z.eqb_eq. lia.
    + destruct (existsb _ (zrange 64)) eqn:Ex; [|reflexivity].
      apply existsb_exists in Ex. destruct Ex as (i & _ & Hi).
      apply andb_prop in Hi. destruct Hi as [Hx Hij]. apply Z.eqb_eq in Hij.
      replace (63 - j) with i in E by lia. congruence.
  - destruct (existsb _ (zrange 64)) eqn:Ex; [|reflexivity].
    apply existsb_exists in Ex. destruct Ex as (i & Hin & Hi).
    apply zrange_In_inv in Hin.
    apply andb_prop in Hi. destruct Hi as [_ Hij]. apply Z.eqb_eq in Hij. lia.
Qed.

Lemma reverse64_range (x : Z) : 0 <= reverse64 x < 2 ^ 64.
Proof.
  apply range_of_bits.
  - unfold reverse64. induction (zrange 64) as [|a t IH]; cbn [fold_right]; [lia|].
    apply Z.lor_nonneg. split; [|exact IH].
    destruct (Z.testbit x a); [|lia].
    unfold x_to_bit. apply Z.shiftl_nonneg. lia.
  - intros i Hi. rewrite testbit_reverse64 by lia.
    destruct (Z.ltb_spec i 64); [lia|reflexivity].
Qed.

Lemma reverse64_lor (a b : Z) :
  reverse64 (Z.lor a b) = Z.lor (reverse64 a) (reverse64 b).
Proof.
  apply Z.bits_inj'. intros i Hi.
  rewrite Z.lor_spec, !testbit_reverse64, Z.lor_spec by exact Hi.
  destruct (i <? 64); reflexivity.
Qed.

Lemma reverse64_x_to_bit (c : Z) :
  0 <= c <= 63 -> reverse64 (x_to_bit c) = x_to_bit (63 - c).
Proof.
  intros Hc. apply Z.bits_inj'. intros i Hi.
  rewrite testbit_reverse64, (testbit_x_to_bit (63 - c)) by lia.
  destruct (Z.ltb_spec i 64) as [Hlt|Hge]; cbn [andb].
  - rewrite testbit_x_to_bit by lia.
    destruct (Z.eqb_spec (63 - i) c), (Z.eqb_spec i (63 - c)); trivial; lia.
  - destruct (Z.eqb_spec i (63 - c)); trivial; lia.
Qed.

Lemma reverse64_0 : reverse64 0 = 0.
Proof. reflexivity. Qed.

(** ** The postcondition under bit reversal *)

Lemma run_mirror (cells : list Z) (P O acc : Z) :
  on_board cells = true ->
  run (map mirror cells) (reverse64 P) (reverse64 O) (reverse64 acc)
  = reverse64 (run cells P O acc).
Proof.
  revert acc. induction cells as [|c t IH]; intros acc Hb; cbn [map run].
  - reflexivity.
  - cbn [on_board forallb] in Hb. apply andb_prop in Hb. destruct Hb as [Hc Ht].
    change (mirror c) with (63 - c). rewrite !testbit_reverse64 by lia.
    replace (63 - (63 - c)) with c by lia.
    destruct (Z.ltb_spec (63 - c) 64); [|lia]. cbn [andb].
    destruct (Z.testbit O c).
    + rewrite <- IH by exact Ht. f_equal.
      rewrite reverse64_lor, reverse64_x_to_bit by lia. reflexivity.
    + destruct (Z.testbit P c); reflexivity.
Qed.

Lemma run_mirror0 (cells : list Z) (P O : Z) :
  on_board cells = true ->
  run (map mirror cells) (reverse64 P) (reverse64 O) 0
  = reverse64 (run cells P O 0).
Proof. apply (run_mirror cells P O 0). Qed.

Lemma list_eqb_eq (l1 l2 : list Z) : list_eqb l1 l2 = true -> l1 = l2.
Proof.
  unfold list_eqb. revert l2. induction l1 as [|a t IH]; intros [|b u] H;
    cbn in H; try discriminate; trivial.
  apply andb_prop in H. destruct H as [Hlen H].
  apply andb_prop in H. destruct H as [Hab H].
  apply Z.eqb_eq in Hab. subst b. f_equal. apply IH. now rewrite Hlen, H.
Qed.

Lemma ray_mirror (pos : Z) (d : Z * Z) :
  0 <= pos <= 63 -> In d directions ->
  ray (63 - pos) d = map mirror (ray pos (opposite d)) /\ on_board (ray pos d) = true.
Proof.
  intros Hpos Hd.
  assert (H : mirror_ok pos = true)
    by (apply (zrange_forall mirror_ok 64); [vm_compute; reflexivity|lia]).
  unfold mirror_ok in H. rewrite forallb_forall in H. specialize (H d Hd).
  apply andb_prop in H. destruct H as [H1 H2]. split; [|exact H2].
  now apply list_eqb_eq.
Qed.

Lemma flip_spec_mirror (pos P O : Z) :
  0 <= pos <= 63 ->
  flip_spec (63 - pos) (reverse64 P) (reverse64 O) = reverse64 (flip_spec pos P O).
Proof.
  intros Hpos. unfold flip_spec, directions, forward_dirs, reverse_dirs.
  cbn [app fold_right].
  rewrite !reverse64_lor, reverse64_0.
  repeat match goal with
  | |- context [run (ray (63 - pos) ?d) _ _ 0] =>
      let H := fresh in
      destruct (ray_mirror pos d Hpos) as [H _];
      [unfold directions, forward_dirs, reverse_dirs; cbn [app In]; tauto|];
      rewrite H; clear H
  end.
  unfold opposite. cbn [fst snd Z.opp].
  rewrite !run_mirror0 by
    (apply (ray_mirror pos _ Hpos);
     unfold directions, forward_dirs, reverse_dirs; cbn [app In]; tauto).
  apply Z.bits_inj'. intros i _. rewrite !Z.lor_spec, Z.bits_0.
  repeat match goal with |- context [Z.testbit ?x i] =>
    let b := fresh "b" in generalize (Z.testbit x i); intros b end.
  repeat match goal with b : bool |- _ => destruct b end; reflexivity.
Qed.

Lemma valid_position_mirror (pos P O : Z) :
  valid_position pos P O ->
  valid_position (63 - pos) (reverse64 P) (reverse64 O).
Proof.
  intros (Hpos & HP & HO & Hp & Ho & HPO).
  repeat split; try apply reverse64_range; try lia.
  - rewrite testbit_reverse64 by lia. replace (63 - (63 - pos)) with pos by lia.
    rewrite Hp. apply andb_false_r.
  - rewrite testbit_reverse64 by lia. replace (63 - (63 - pos)) with pos by lia.
    rewrite Ho. apply andb_false_r.
  - apply Z.bits_inj'. intros i Hi.
    rewrite Z.land_spec, !testbit_reverse64, Z.bits_0 by exact Hi.
    pose proof (disjoint_bits P O (63 - i) HPO) as D.
    destruct (i <? 64), (Z.testbit P (63 - i)), (Z.testbit O (63 - i));
      trivial; discriminate.
Qed.

(** Off the defective rows, on both the square and its mirror image,
    [flip] commutes with bit reversal. *)
Lemma flip_mirror (b : build) (pos P O : Z) :
  valid_position pos P O ->
  ~ In pos defective -> ~ In (63 - pos) defective ->
  flip b (63 - pos) (reverse64 P) (reverse64 O)
  = option_map reverse64 (flip b pos P O).
Proof.
  intros Hv Hd Hd'.
  rewrite (flip_meets_spec b pos P O Hv Hd).
  rewrite (flip_meets_spec b _ _ _ (valid_position_mirror pos P O Hv) Hd').
  cbn [option_map]. f_equal. apply flip_spec_mirror, Hv.
Qed.

(** ** Population count *)

Lemma count_on_lor (l : list Z) (a b : Z) :
  (forall i, Z.testbit a i && Z.testbit b i = false) ->
  count_on l (Z.lor a b) = count_on l a + count_on l b.
Proof.
  intros D. induction l as [|i t IH]; cbn [count_on fold_right]; [reflexivity|].
  fold (count_on t (Z.lor a b)) (count_on t a) (count_on t b).
  rewrite IH, Z.lor_spec. specialize (D i).
  destruct (Z.testbit a i), (Z.testbit b i); cbn [orb]; try lia; discriminate.
Qed.

Lemma bit_count_lor (a b : Z) :
  (forall i, Z.testbit a i && Z.testbit b i = false) ->
  bit_count (Z.lor a b) = bit_count a + bit_count b.
Proof. apply (count_on_lor (zrange 64)). Qed.

Lemma bit_count_x_to_bit (c : Z) : 0 <= c < 64 -> bit_count (x_to_bit c) = 1.
Proof.
  intros Hc. apply Z.eqb_eq.
  apply (zrange_forall (fun c => bit_count (x_to_bit c) =? 1) 64);
    [vm_compute; reflexivity|lia].
Qed.

Lemma ordered_NoDup (r : Z -> Z -> bool) (l : list Z) :
  (forall x, r x x = false) -> ordered r l = true -> NoDup l.
Proof.
  intros Hirr. induction l as [|a t IH]; cbn [ordered]; intros H; constructor.
  - apply andb_prop in H. destruct H as [Ha _].
    rewrite forallb_forall in Ha. intros Hin. specialize (Ha a Hin).
    rewrite Hirr in Ha. discriminate.
  - apply andb_prop in H. now apply IH.
Qed.

Lemma bit_count_mask_of (l : list Z) :
  on_board l = true -> NoDup l -> bit_count (mask_of l) = Z.of_nat (length l).
Proof.
  induction l as [|c t IH]; intros Hb Hn; [reflexivity|].
  cbn [on_board forallb] in Hb. apply andb_prop in Hb. destruct Hb as [Hc Ht].
  inversion Hn as [|? ? Hnin Hn']; subst.
  cbn [mask_of fold_right length]. fold (mask_of t).
  rewrite bit_count_lor; [rewrite bit_count_x_to_bit, IH by (trivial; lia); lia|].
  intros i. destruct (Z.testbit (x_to_bit c) i) eqn:E; [|reflexivity].
  cbn [andb]. destruct (Z.testbit (mask_of t) i) eqn:Em; [|reflexivity].
  assert (Hi : 0 <= i).
  { destruct (Z.le_gt_cases 0 i); [assumption|].
    rewrite Z.testbit_neg_r in E by lia. discriminate. }
  rewrite testbit_x_to_bit in E by lia. apply Z.eqb_eq in E. subst i.
  apply testbit_mask_of_inv in Em; trivial. contradiction.
Qed.

(** ** Counting along a line *)

Lemma line_run_prefix (f : Z -> bool) (pre : list Z) (rest : list bool) (len : Z) :
  (forall x, In x pre -> f x = false) ->
  line_run (map f pre ++ rest) len = line_run rest (len + Z.of_nat (length pre)).
Proof.
  revert len. induction pre as [|a t IH]; intros len H; cbn [map app length].
  - f_equal. lia.
  - rewrite (H a) by now left. cbn [line_run].
    rewrite IH by (intros x Hx; apply H; now right). f_equal. lia.
Qed.

Lemma line_run_pad (bs : list bool) (n : nat) (len : Z) :
  line_run (bs ++ repeat false n) len = line_run bs len.
Proof.
  revert len. induction bs as [|b t IH]; intros len; cbn [app].
  - revert len. induction n as [|n IHn]; intros len; [reflexivity|].
    cbn [repeat line_run]. apply IHn.
  - destruct b; cbn [line_run]; [reflexivity|apply IH].
Qed.

Lemma ordered_app_l (r : Z -> Z -> bool) (l1 l2 : list Z) :
  ordered r (l1 ++ l2) = true -> ordered r l1 = true.
Proof.
  induction l1 as [|a t IH]; cbn [app ordered]; [reflexivity|].
  intros H. apply andb_prop in H. destruct H as [Ha Ht].
  rewrite forallb_app in Ha. apply andb_prop in Ha. destruct Ha as [Ha _].
  now rewrite Ha, IH.
Qed.

(** When the opponent is the complement of the player along a ray, the
    number of discs flipped on the ray is the run of the line. *)
Lemma bit_count_run (cells : list Z) (P O : Z) :
  on_board cells = true -> NoDup cells ->
  (forall c, In c cells -> Z.testbit O c = negb (Z.testbit P c)) ->
  bit_count (run cells P O 0) = line_run (map (Z.testbit P) cells) 0.
Proof.
  intros Hb Hn Hc.
  destruct (first_gap cells O) as [All|(pre & c & post & E & Hpre & Hgap)].
  - rewrite run_all_opponent by exact All.
    rewrite <- (app_nil_r (map _ cells)), line_run_prefix; [reflexivity|].
    intros x Hx. specialize (Hc x Hx). rewrite (All x Hx) in Hc.
    now destruct (Z.testbit P x).
  - subst cells. rewrite run_gap by assumption.
    assert (HP : Z.testbit P c = true).
    { specialize (Hc c (in_elt c pre post)). rewrite Hgap in Hc.
      now destruct (Z.testbit P c). }
    rewrite HP, map_app. cbn [map]. rewrite HP, line_run_prefix.
    + cbn [line_run]. rewrite on_board_app in Hb. apply andb_prop in Hb.
      apply bit_count_mask_of; [apply Hb|].
      now apply NoDup_app_remove_r in Hn.
    + intros x Hx. specialize (Hc x (in_or_app _ _ x (or_introl Hx))).
      rewrite (Hpre x Hx) in Hc. now destruct (Z.testbit P x).
Qed.

(** ** The rays of a square are disjoint *)

Lemma run_in_mask (cells : list Z) (P O : Z) :
  bits_in (run cells P O 0) (mask_of cells).
Proof.
  destruct (first_gap cells O) as [All|(pre & c & post & E & Hpre & Hgap)].
  - rewrite run_all_opponent by exact All. apply bits_in_0.
  - subst cells. rewrite run_gap by assumption.
    destruct (Z.testbit P c); [|apply bits_in_0].
    intros i Hi H. now rewrite mask_of_app, Z.lor_spec, H.
Qed.

Lemma bit_count_union {A : Type} (X M : A -> Z) (ds : list A) :
  (forall d, bits_in (X d) (M d)) ->
  pairwise_disjoint (map M ds) = true ->
  bit_count (fold_right Z.lor 0 (map X ds))
  = fold_right Z.add 0 (map (fun d => bit_count (X d)) ds)
  /\ forall m, forallb (fun m' => Z.land m m' =? 0) (map M ds) = true ->
               forall i, 0 <= i ->
                 Z.testbit m i && Z.testbit (fold_right Z.lor 0 (map X ds)) i = false.
Proof.
  intros Hin. induction ds as [|d t IH]; cbn [map fold_right pairwise_disjoint].
  - intros _. split; [reflexivity|]. intros m _ i _. now rewrite Z.bits_0, andb_false_r.
  - intros H. apply andb_prop in H. destruct H as [Hd Ht].
    destruct (IH Ht) as [IH1 IH2]. split.
    + rewrite bit_count_lor, IH1; [reflexivity|].
      intros i. destruct (Z.le_gt_cases 0 i) as [Hi|Hi];
        [|now rewrite Z.testbit_neg_r by lia].
      destruct (Z.testbit (X d) i) eqn:E; [|reflexivity]. cbn [andb].
      specialize (IH2 (M d) Hd i Hi). rewrite (Hin d i Hi E) in IH2. exact IH2.
    + intros m Hm i Hi. cbn [forallb] in Hm. apply andb_prop in Hm.
      destruct Hm as [Hmd Hmt]. rewrite Z.lor_spec.
      specialize (IH2 m Hmt i Hi). apply Z.eqb_eq in Hmd.
      pose proof (disjoint_bits m (M d) i Hmd) as D.
      destruct (Z.testbit m i); [|reflexivity]. cbn [andb] in *.
      rewrite IH2, orb_false_r.
      destruct (Z.testbit (X d) i) eqn:E; [|reflexivity].
      rewrite (Hin d i Hi E) in D. discriminate.
Qed.

(** ** The line patterns of [last_flip] *)

Lemma scan_line_run (k pattern : Z) :
  0 <= k <= 7 -> 0 <= pattern <= 255 ->
  scan 8 pattern (k + 1) 1 0 = line_run (map (Z.testbit pattern) (up_indices k)) 0 /\
  scan 8 pattern (k - 1) (-1) 0 = line_run (map (Z.testbit pattern) (down_indices k)) 0.
Proof.
  intros Hk Hp.
  assert (H : scan_ok k pattern = true)
    by (apply (zrange2_forall scan_ok 8 256); [vm_compute; reflexivity|lia|lia]).
  unfold scan_ok in H. apply andb_prop in H. destruct H as [H1 H2].
  split; now apply Z.eqb_eq.
Qed.

Lemma In_lanes8 (i : Z) : In i lanes8 <-> 0 <= i <= 7.
Proof. unfold lanes8. cbn [In]. lia. Qed.

Lemma testbit_sum8 (f : Z -> bool) (j : Z) :
  0 <= j <= 7 -> Z.testbit (sum8 (fun k => 2 ^ k) f) j = f j.
Proof.
  intros Hj. unfold sum8, lanes8. cbn [fold_right].
  split_range j;
    destruct (f 0), (f 1), (f 2), (f 3), (f 4), (f 5), (f 6), (f 7); reflexivity.
Qed.

Lemma byte_range (i M : Z) : 0 <= byte i M <= 255.
Proof.
  unfold byte. change (Z.land ?a 255) with (Z.land a (Z.ones 8)).
  rewrite Z.land_ones by lia. change (2 ^ 8) with 256.
  pose proof (Z.mod_pos_bound (Z.shiftr M (8 * i)) 256). lia.
Qed.

Lemma testbit_line_pattern (P M i : Z) :
  single_bit_bytes M = true -> 0 <= i <= 7 ->
  Z.testbit (line_pattern P M) i = opt_bit P (cell_at M i).
Proof.
  intros HM Hi. unfold line_pattern. rewrite testbit_sum8 by exact Hi.
  unfold single_bit_bytes in HM. rewrite forallb_forall in HM.
  specialize (HM i (proj2 (In_lanes8 i) Hi)). cbv zeta in HM.
  unfold cell_at. cbv zeta. destruct (Z.eqb_spec (byte i M) 0) as [E|E].
  - now apply byte_land_none.
  - cbn [orb] in HM. apply Z.eqb_eq in HM. cbn [opt_bit].
    pose proof (byte_range i M) as Hb.
    assert (0 <= Z.log2 (byte i M) < 8).
    { split; [apply Z.log2_nonneg|]. apply Z.log2_lt_pow2; [lia|]. change (2 ^ 8) with 256. lia. }
    apply byte_land_single; trivial. lia.
Qed.

Lemma testbit_row_pattern (P y i : Z) :
  0 <= y -> 0 <= i <= 7 ->
  Z.testbit (uchar (Z.shiftr P (y * 8))) i = Z.testbit P (8 * y + i).
Proof.
  intros Hy Hi. unfold uchar. rewrite <- Z.land_ones by lia.
  rewrite Z.land_spec, Z.shiftr_spec, Z.ones_spec_low by lia.
  rewrite andb_true_r. f_equal. lia.
Qed.

Lemma opts_eqb_eq (l1 l2 : list (option Z)) : opts_eqb l1 l2 = true -> l1 = l2.
Proof.
  revert l2. induction l1 as [|a t IH]; intros [|b u] H; cbn in H;
    try discriminate; trivial.
  apply andb_prop in H. destruct H as [Hab H]. f_equal; [|now apply IH].
  destruct a, b; cbn in Hab; try discriminate; trivial.
  apply Z.eqb_eq in Hab. now subst.
Qed.

Lemma view_bits (cellf : Z -> option Z) (idxs cells : list Z) (P pattern : Z) :
  view_ok cellf idxs cells = true ->
  (forall i, In i idxs -> Z.testbit pattern i = opt_bit P (cellf i)) ->
  line_run (map (Z.testbit pattern) idxs) 0 = line_run (map (Z.testbit P) cells) 0.
Proof.
  intros Hv Hbits. apply opts_eqb_eq in Hv.
  assert (E : map (Z.testbit pattern) idxs = map (opt_bit P) (map cellf idxs)).
  { rewrite map_map. apply map_ext_in. exact Hbits. }
  rewrite E, Hv, map_app, map_map, map_repeat. cbn [opt_bit].
  apply line_run_pad.
Qed.

Lemma lines (pos : Z) : 0 <= pos <= 63 -> lines_ok pos = true.
Proof.
  intros H. apply (zrange_forall lines_ok 64); [vm_compute; reflexivity|lia].
Qed.

Lemma count_flip_table (k pattern : Z) :
  0 <= k <= 7 -> 0 <= pattern <= 255 ->
  count_flip k pattern = Some (count_flip_rule k pattern).
Proof.
  intros Hk Hp. apply opt_eqb_eq.
  apply (zrange2_forall
           (fun i j => opt_eqb (count_flip i j) (count_flip_rule i j)) 8 256);
    [vm_compute; reflexivity | lia | lia].
Qed.

Lemma In_up_indices (k i : Z) : In i (up_indices k) -> 0 <= i <= 7.
Proof. unfold up_indices. rewrite filter_In. intros [H _]. now apply In_lanes8. Qed.

Lemma In_down_indices (k i : Z) : In i (down_indices k) -> 0 <= i <= 7.
Proof.
  unfold down_indices. rewrite <- in_rev, filter_In. intros [H _].
  now apply In_lanes8.
Qed.

Lemma complement_bit (P pos c : Z) :
  0 <= c < 64 -> 0 <= pos -> c <> pos ->
  Z.testbit (Z.land (not64 P) (not64 (x_to_bit pos))) c = negb (Z.testbit P c).
Proof.
  intros Hc Hpos Hne.
  rewrite Z.land_spec, !testbit_not64, testbit_x_to_bit by lia.
  destruct (Z.ltb_spec c 64); [|lia]. destruct (Z.eqb_spec c pos); [lia|].
  cbn [andb negb]. apply andb_true_r.
Qed.

Lemma bit_count_run_last (pos P : Z) (cells : list Z) :
  0 <= pos -> plain_ray pos cells ->
  bit_count (run cells P (Z.land (not64 P) (not64 (x_to_bit pos))) 0)
  = line_run (map (Z.testbit P) cells) 0.
Proof.
  intros Hpos (Hb & Hn & Hp). apply bit_count_run; trivial.
  intros c Hc. apply complement_bit; trivial.
  - apply (on_board_In cells c Hb Hc).
  - intros ->. contradiction.
Qed.

(** One read of the count-flip table against the two rays of its line. *)
Lemma line_lookup (pos P pattern k : Z) (cellf : Z -> option Z) (cu cd : list Z) :
  0 <= pos -> 0 <= k <= 7 -> 0 <= pattern <= 255 ->
  view_ok cellf (up_indices k) cu = true ->
  view_ok cellf (down_indices k) cd = true ->
  (forall i, 0 <= i <= 7 -> Z.testbit pattern i = opt_bit P (cellf i)) ->
  plain_ray pos cu -> plain_ray pos cd ->
  let O := Z.land (not64 P) (not64 (x_to_bit pos)) in
  count_flip k pattern
  = Some (2 * (bit_count (run cu P O 0) + bit_count (run cd P O 0))).
Proof.
  intros Hpos Hk Hp Hu Hd Hbits Pu Pd O.
  rewrite count_flip_table by assumption. unfold count_flip_rule.
  destruct (scan_line_run k pattern Hk Hp) as [-> ->].
  rewrite (view_bits cellf _ cu P pattern Hu)
    by (intros i Hi; apply Hbits, (In_up_indices k i Hi)).
  rewrite (view_bits cellf _ cd P pattern Hd)
    by (intros i Hi; apply Hbits, (In_down_indices k i Hi)).
  unfold O. rewrite !bit_count_run_last by assumption. reflexivity.
Qed.

Lemma ray_plain (pos : Z) (d : Z * Z) :
  0 <= pos <= 63 -> In d directions -> plain_ray pos (ray pos d).
Proof.
  intros Hpos Hd.
  pose proof (geometry pos Hpos) as G. unfold geometry_ok in G.
  apply andb_prop in G. destruct G as [G _].
  apply andb_prop in G. destruct G as [G _].
  unfold rays_ok in G. apply andb_prop in G. destruct G as [Gf Gr].
  rewrite forallb_forall in Gf, Gr.
  pose proof (lines pos Hpos) as L. unfold lines_ok in L.
  destruct (zth mask_d_v pos); [|discriminate].
  apply andb_prop in L. destruct L as [_ L]. rewrite forallb_forall in L.
  specialize (L d Hd). apply negb_true_iff in L.
  assert (Hnp : ~ In pos (ray pos d)).
  { intros Hin. apply existsb_eqb_In in Hin. congruence. }
  unfold directions in Hd. apply in_app_or in Hd. destruct Hd as [Hd|Hd].
  - specialize (Gf d Hd). apply andb_prop in Gf. destruct Gf as [Hb Ho].
    repeat split; trivial. apply (ordered_NoDup Z.ltb); [apply Z.ltb_irrefl|exact Ho].
  - specialize (Gr d Hd). apply andb_prop in Gr. destruct Gr as [Hb Ho].
    repeat split; trivial. apply (ordered_NoDup Z.gtb); [|exact Ho].
    intros x. rewrite Z.gtb_ltb. apply Z.ltb_irrefl.
Qed.

Lemma last_flip_lines (s : strategy) (pos P : Z) (m : v4di) :
  0 <= pos <= 63 -> zth mask_d_v pos = Some m ->
  last_flip s pos P =
  sum_lookups (Z.shiftr pos 3) (Z.land pos 7)
    (line_pattern P (w2 m)) (line_pattern P (w1 m)) (line_pattern P (w0 m))
    (uchar (Z.shiftr P (Z.shiftr pos 3 * 8))).
Proof.
  intros Hpos Hm.
  destruct (line_masks pos Hpos) as (m' & Hv & H3 & H2 & Hd).
  rewrite Hm in Hv. injection Hv as <-.
  destruct (square_coords pos Hpos) as [Hx Hy].
  destruct s.
  - apply last_flip_AVX2_lines; assumption.
  - rewrite (last_flip_SSE_lines pos P _ Hd), column_pattern by exact Hx.
    cbn [q0 q1]. rewrite H2. reflexivity.
Qed.

Lemma some_eq (a b : Z) : Some a = Some b -> a = b.
Proof. congruence. Qed.

Lemma flip_spec_union (pos P O : Z) :
  flip_spec pos P O
  = fold_right Z.lor 0 (map (fun d => run (ray pos d) P O 0) directions).
Proof. reflexivity. Qed.

(** [last_flip] is twice the number of discs of the postcondition of
    [flip], on every square: the opponent is the complement of the
    player. *)
Lemma last_flip_counts_spec (s : strategy) (pos P : Z) :
  0 <= pos <= 63 ->
  last_flip s pos P
  = Some (2 * bit_count (flip_spec pos P (Z.land (not64 P) (not64 (x_to_bit pos))))).
Proof.
  intros Hpos.
  pose proof (lines pos Hpos) as L. unfold lines_ok in L. cbv zeta in L.
  destruct (zth mask_d_v pos) as [m|] eqn:Hm; [|discriminate].
  apply andb_prop in L; destruct L as [L _].
  apply andb_prop in L; destruct L as [L Hdis].
  apply andb_prop in L; destruct L as [L Vrd].
  apply andb_prop in L; destruct L as [L Vru].
  apply andb_prop in L; destruct L as [L Vad].
  apply andb_prop in L; destruct L as [L Vau].
  apply andb_prop in L; destruct L as [L Vbd].
  apply andb_prop in L; destruct L as [L Vbu].
  apply andb_prop in L; destruct L as [L Vcd].
  apply andb_prop in L; destruct L as [L Vcu].
  apply andb_prop in L; destruct L as [L S2].
  apply andb_prop in L; destruct L as [S0 S1].
  destruct (square_coords pos Hpos) as [Hx Hy].
  rewrite (last_flip_lines s pos P m Hpos Hm). unfold sum_lookups.
  assert (Hp0 : 0 <= pos) by lia.
  assert (In8 : forall d, In d [(1, 0); (-1, 1); (0, 1); (1, 1);
                               (-1, 0); (1, -1); (0, -1); (-1, -1)] ->
                          plain_ray pos (ray pos d))
    by (intros d Hd; now apply ray_plain).
  pose proof (line_lookup pos P (line_pattern P (w2 m)) (Z.shiftr pos 3)
                (cell_at (w2 m)) (ray pos (0, 1)) (ray pos (0, -1)) Hp0 Hy
                (line_pattern_range P (w2 m)) Vcu Vcd
                (fun i Hi => testbit_line_pattern P (w2 m) i S2 Hi)
                (In8 (0, 1) ltac:(cbn [In]; auto 10)) (In8 (0, -1) ltac:(cbn [In]; auto 10))) as Ec.
  pose proof (line_lookup pos P (line_pattern P (w1 m)) (Z.shiftr pos 3)
                (cell_at (w1 m)) (ray pos (1, 1)) (ray pos (-1, -1)) Hp0 Hy
                (line_pattern_range P (w1 m)) Vbu Vbd
                (fun i Hi => testbit_line_pattern P (w1 m) i S1 Hi)
                (In8 (1, 1) ltac:(cbn [In]; auto 10)) (In8 (-1, -1) ltac:(cbn [In]; auto 10))) as Eb.
  pose proof (line_lookup pos P (line_pattern P (w0 m)) (Z.shiftr pos 3)
                (cell_at (w0 m)) (ray pos (-1, 1)) (ray pos (1, -1)) Hp0 Hy
                (line_pattern_range P (w0 m)) Vau Vad
                (fun i Hi => testbit_line_pattern P (w0 m) i S0 Hi)
                (In8 (-1, 1) ltac:(cbn [In]; auto 10)) (In8 (1, -1) ltac:(cbn [In]; auto 10))) as Ea.
  pose proof (line_lookup pos P (uchar (Z.shiftr P (Z.shiftr pos 3 * 8))) (Z.land pos 7)
                (fun i => Some (8 * Z.shiftr pos 3 + i))
                (ray pos (1, 0)) (ray pos (-1, 0)) Hp0 Hx
                (uchar_range _) Vru Vrd
                (fun i Hi => testbit_row_pattern P (Z.shiftr pos 3) i (proj1 Hy) Hi)
                (In8 (1, 0) ltac:(cbn [In]; auto 10)) (In8 (-1, 0) ltac:(cbn [In]; auto 10))) as Er.
  cbv zeta in Ec, Eb, Ea, Er.
  destruct (count_flip_entry _ _ Hy (line_pattern_range P (w2 m))) as (vc & Vc & Bc & _).
  destruct (count_flip_entry _ _ Hy (line_pattern_range P (w1 m))) as (vb & Vb & Bb & _).
  destruct (count_flip_entry _ _ Hy (line_pattern_range P (w0 m))) as (va & Va & Ba & _).
  destruct (count_flip_entry _ _ Hx (uchar_range (Z.shiftr P (Z.shiftr pos 3 * 8))))
    as (vr & Vr & Br & _).
  rewrite Vc in Ec. rewrite Vb in Eb. rewrite Va in Ea. rewrite Vr in Er.
  apply some_eq in Ec, Eb, Ea, Er.
  rewrite Vc, Vb, Va, Vr. cbn [bind].
  set (O := Z.land (not64 P) (not64 (x_to_bit pos))) in *.
  destruct (bit_count_union (fun d => run (ray pos d) P O 0)
              (fun d => mask_of (ray pos d)) directions
              (fun d => run_in_mask (ray pos d) P O) Hdis) as [U _].
  rewrite flip_spec_union, U.
  unfold directions, forward_dirs, reverse_dirs. cbn [app map fold_right].
  f_equal. unfold uchar.
  rewrite (Z.mod_small (vc + vb)) by lia.
  rewrite (Z.mod_small (vc + vb + va)) by lia.
  rewrite (Z.mod_small (vc + vb + va + vr)) by lia.
  lia.
Qed.

Lemma valid_position_last (pos P : Z) :
  0 <= pos <= 63 -> 0 <= P < 2 ^ 64 -> Z.testbit P pos = false ->
  valid_position pos P (Z.land (not64 P) (not64 (x_to_bit pos))).
Proof.
  intros Hpos HP Hp. repeat split; try lia.
  - apply land_range, u64_range.
  - apply land_range, u64_range.
  - exact Hp.
  - rewrite Z.land_spec, !testbit_not64, testbit_x_to_bit, Z.eqb_refl by lia.
    now rewrite !andb_false_r.
  - apply Z.bits_inj'. intros i Hi.
    rewrite !Z.land_spec, !testbit_not64, Z.bits_0 by exact Hi.
    destruct (Z.testbit P i), (i <? 64); reflexivity.
Qed.

(** Off the defective rows, [last_flip] is twice the population count of
    what [flip] returns for the complementary opponent. *)
Lemma last_flip_flip (s : strategy) (b : build) (pos P : Z) :
  0 <= pos <= 63 -> 0 <= P < 2 ^ 64 -> Z.testbit P pos = false ->
  ~ In pos defective ->
  exists flipped,
    flip b pos P (Z.land (not64 P) (not64 (x_to_bit pos))) = Some flipped /\
    last_flip s pos P = Some (2 * bit_count flipped).
Proof.
  intros Hpos HP Hp Hd. eexists. split.
  - apply flip_meets_spec; [now apply valid_position_last|exact Hd].
  - now apply last_flip_counts_spec.
Qed.

(** ** The corners that C leaves undefined *)

(** A count of 64 makes [0x8000000000000000ULL >> 64]: the ray contributes
    nothing, whether the shift yields 0 or, as on x86-64, bit 63. *)
Lemma flip_reverse_count_64 (v P mr : Z) :
  v = 0 \/ v = 2 ^ 63 -> Z.land (mul64 (neg64 (Z.land v P)) 2) mr = 0.
Proof.
  intros [->| ->].
  - now rewrite Z.land_0_l.
  - rewrite (Z.land_comm (2 ^ 63) P), land_pow2 by lia.
    now destruct (Z.testbit P 63).
Qed.

(** The guardian bit: a square of [maskr] outside [masko] keeps the
    argument of [__builtin_clzll] away from 0. *)
Lemma guardian_bit (O mo mr : Z) :
  Z.land mr (not64 mo) <> 0 -> Z.lxor (Z.land O mo) mr <> 0.
Proof.
  intros H E. apply H. apply Z.bits_inj'. intros i Hi.
  rewrite Z.land_spec, testbit_not64, Z.bits_0 by exact Hi.
  assert (Ei : Z.testbit (Z.lxor (Z.land O mo) mr) i = false)
    by now rewrite E, Z.bits_0.
  rewrite Z.lxor_spec, Z.land_spec in Ei.
  destruct (Z.testbit mr i), (Z.testbit mo i), (Z.testbit O i), (i <? 64);
    trivial; discriminate.
Qed.

(** In every row of the tables, [__builtin_clzll] receives 0 only for an
    empty [maskr] entry, with which the contribution is masked to 0
    whatever the count. *)
Lemma guardian_rows (pos : Z) : 0 <= pos <= 63 -> guardian_ok pos = true.
Proof.
  intros H. apply (zrange_forall guardian_ok 64); [vm_compute; reflexivity|lia].
Qed.

(** * Main results *)

(** ** The count-flip table *)

(** C2: every entry [COUNT_FLIP[k][pattern]] is twice the sum, over the two
    directions from cell [k] of an 8-cell line, of the length of the run of
    0 cells next to [k] when a 1 cell ends that run before the end of the
    line, and of 0 otherwise. *)
Theorem COUNT_FLIP_rule (k pattern : Z) :
  0 <= k <= 7 -> 0 <= pattern <= 255 ->
  count_flip k pattern = Some (count_flip_rule k pattern).
Proof.
  intros Hk Hp. apply opt_eqb_eq.
  apply (zrange2_forall
           (fun i j => opt_eqb (count_flip i j) (count_flip_rule i j)) 8 256);
    [vm_compute; reflexivity | lia | lia].
Qed.

Lemma COUNT_FLIP_rule_witness :
  count_flip 3 0x41 = Some (count_flip_rule 3 0x41).
Proof. apply (COUNT_FLIP_rule 3 0x41); lia. Defined.

(** ** [last_flip] *)

(** C10: for every square and every 64-bit [P], with no other condition,
    every table read of [last_flip] is in bounds on both strategies: a read
    out of bounds would make the result [None], and the count returned lies
    between 0 and 48.  The first index of [COUNT_FLIP] is [x] or [y], within
    0..7; on the AVX2 path the zero fourth lane of [mask_d_v] keeps the index
    [t >> 16] within 0..255. *)
Theorem last_flip_in_bounds (s : strategy) (pos P : Z) :
  0 <= pos <= 63 -> 0 <= P < 2 ^ 64 ->
  (exists n, last_flip s pos P = Some n /\ 0 <= n <= 48) /\
  (0 <= Z.land pos 7 <= 7 /\ 0 <= Z.shiftr pos 3 <= 7) /\
  (exists m, zth mask_d_v pos = Some m /\ w3 m = 0 /\
     let t := u32 (Z.lnot (mm256_movemask_epi8 (mm256_cmpeq_epi8
                (mm256_and_si256 (mm256_broadcastq_epi64 (mm_cvtsi64_si128 P)) m)
                mm256_setzero_si256))) in
     0 <= Z.shiftr t 16 <= 255).
Proof.
  intros Hpos _. split; [|split].
  - destruct (last_flip_total s pos P Hpos) as (n & H & Hn & _).
    exists n. split; assumption.
  - apply square_coords, Hpos.
  - destruct (line_masks pos Hpos) as (m & Hv & H3 & _).
    exists m. split; [exact Hv|]. split; [exact H3|].
    destruct (avx2_mask P m H3) as (E2 & _). cbv zeta in E2 |- *.
    rewrite E2. apply line_pattern_range.
Qed.

Lemma last_flip_in_bounds_witness :
  (exists n, last_flip AVX2 0 0xFFFFFFFFFFFFFFF8 = Some n /\ 0 <= n <= 48) /\
  (0 <= Z.land 0 7 <= 7 /\ 0 <= Z.shiftr 0 3 <= 7) /\
  (exists m, zth mask_d_v 0 = Some m /\ w3 m = 0 /\
     let t := u32 (Z.lnot (mm256_movemask_epi8 (mm256_cmpeq_epi8
                (mm256_and_si256
                   (mm256_broadcastq_epi64 (mm_cvtsi64_si128 0xFFFFFFFFFFFFFFF8)) m)
                mm256_setzero_si256))) in
     0 <= Z.shiftr t 16 <= 255).
Proof. apply (last_flip_in_bounds AVX2 0 0xFFFFFFFFFFFFFFF8); lia. Defined.

(** C6: [last_flip] returns a non-negative even integer for every square
    and every 64-bit [P]. *)
Theorem last_flip_even (s : strategy) (pos P : Z) :
  0 <= pos <= 63 -> 0 <= P < 2 ^ 64 ->
  exists n, last_flip s pos P = Some n /\ 0 <= n /\ Z.even n = true.
Proof.
  intros Hpos _. destruct (last_flip_total s pos P Hpos) as (n & H & Hn & He).
  exists n. repeat split; trivial; lia.
Qed.

Lemma last_flip_even_witness :
  exists n, last_flip SSE 0 0xFFFFFFFFFFFFFFF8 = Some n /\ 0 <= n /\ Z.even n = true.
Proof. apply (last_flip_even SSE 0 0xFFFFFFFFFFFFFFF8); lia. Defined.

(** Over the 64 entries of [mask_d], the stray token of its initializer
    left out, the [#else] branch of [last_flip] returns what the AVX2 branch
    returns, for every square and every 64-bit [P]. *)
Lemma last_flip_branches_agree (pos P : Z) :
  0 <= pos <= 63 -> 0 <= P < 2 ^ 64 ->
  last_flip AVX2 pos P = last_flip SSE pos P.
Proof.
  intros Hpos _.
  destruct (line_masks pos Hpos) as (m & Hv & _).
  now rewrite !(last_flip_lines _ pos P m Hpos Hv).
Qed.

(** C9: the file gives no SSE strategy to compare with the AVX2 one.  The
    initializer of [mask_d] holds the identifier [y] in front of its entry
    16 (line 191) and so denotes no array: a build without AVX2 is rejected
    and [last_flip] returns nothing there, on square 0 with
    [P = 0xFFFFFFFFFFFFFFF8] as on any input, while the AVX2 build returns
    4.  The 64 entries themselves are the first two lanes of the rows of
    [mask_d_v]. *)
Theorem last_flip_SSE_not_built :
  nth_error mask_d_initializer 16 = Some (Stray "y") /\
  elaborate mask_d_initializer = None /\
  last_flip_built SSE 0 0xFFFFFFFFFFFFFFF8 = None /\
  last_flip_built AVX2 0 0xFFFFFFFFFFFFFFF8 = Some 4 /\
  entries mask_d_initializer = map (fun m => V2 (w0 m) (w1 m)) mask_d_v.
Proof. vm_compute. repeat split; reflexivity. Qed.

(** C8: [last_flip (0, 0xFFFFFFFFFFFFFFF8)] is 4 on either strategy: the
    row read [COUNT_FLIP[0][0xF8]] gives 4, and the column and the two
    diagonals, whose patterns have the cell next to cell 0 set, give 0. *)
Theorem last_flip_scenario_C (s : strategy) :
  last_flip s 0 0xFFFFFFFFFFFFFFF8 = Some 4 /\
  count_flip 0 (uchar (Z.shiftr 0xFFFFFFFFFFFFFFF8 0)) = Some 4 /\
  count_flip 0 (line_pattern 0xFFFFFFFFFFFFFFF8 0x0101010101010101) = Some 0 /\
  count_flip 0 (line_pattern 0xFFFFFFFFFFFFFFF8 0x8040201008040201) = Some 0 /\
  count_flip 0 (line_pattern 0xFFFFFFFFFFFFFFF8 0x0000000000000001) = Some 0.
Proof. destruct s; vm_compute; repeat split; reflexivity. Qed.

(** Scenario D of the specification: with every other square a player
    disc, [last_flip] counts nothing. *)
Example last_flip_scenario_D (s : strategy) (pos : Z) :
  0 <= pos <= 63 -> last_flip s pos (not64 (x_to_bit pos)) = Some 0.
Proof.
  intros Hpos. apply opt_eqb_eq.
  destruct s;
    [apply (zrange_forall
              (fun pos => opt_eqb (last_flip AVX2 pos (not64 (x_to_bit pos))) 0) 64)
    |apply (zrange_forall
              (fun pos => opt_eqb (last_flip SSE pos (not64 (x_to_bit pos))) 0) 64)];
    (vm_compute; reflexivity) || lia.
Qed.

(** ** [flip] *)

(** C4: on every valid input, [flip (square, P, O) & ~O == 0]: only
    opponent discs flip. *)
Theorem flip_subset (b : build) (pos P O : Z) :
  valid_position pos P O ->
  exists flipped, flip b pos P O = Some flipped /\ Z.land flipped (not64 O) = 0.
Proof.
  intros (Hpos & HP & HO & _ & _ & HPO).
  destruct (flip_rows pos Hpos)
    as (o1 & o7 & o8 & o9 & r1 & r7 & r8 & r9 & l1 & l7 & l8 & l9 &
        Ho & Hr & Hl & (R1 & R7 & R8 & R9) & (L1 & L7 & L8 & L9)).
  rewrite (flip_union b pos P O _ _ _ _ _ _ _ _ _ _ _ _ Ho Hr Hl).
  eexists. split; [reflexivity|].
  apply bits_in_land_not64.
  repeat apply bits_in_lor;
    (apply flip_reverse_in || apply forward_lane_in); assumption.
Qed.

Lemma flip_subset_witness :
  exists flipped, flip Lzcnt 3 0x2 0x4 = Some flipped /\ Z.land flipped (not64 0x4) = 0.
Proof.
  apply (flip_subset Lzcnt 3 0x2 0x4).
  unfold valid_position. repeat split; (lia || reflexivity).
Defined.

(** Scenario A of the specification. *)
Example flip_scenario_A (b : build) : flip b 3 0x2 0x4 = Some 0x4.
Proof. destruct b; vm_compute; reflexivity. Qed.

(** C7: [flip (3, 0, 0x7)] is 0: the opponent run on bits 2, 1, 0 reaches
    the board edge with no player disc behind it.  The whole boundary mask
    [maskr[3][0] = 0x7] is opponent-occupied, so that the LZCNT variant of
    [count_opp_reverse] counts 64 leading zeros and the guardian-bit
    variant stops on bit 0. *)
Theorem flip_scenario_B (b : build) :
  flip b 3 0 0x7 = Some 0 /\
  count_opp_reverse Lzcnt 0x7 0x6 0x7 = 64 /\
  count_opp_reverse NoLzcnt 0x7 0x6 0x7 = 63.
Proof. destruct b; vm_compute; repeat split; reflexivity. Qed.

(** ** The ten [maskl] entries complemented in 32 bits

    [flip_meets_spec], [flip_mirror] and [last_flip_flip] prove the
    postcondition of [flip], its symmetry and its agreement with
    [last_flip] on the squares outside [defective]; [last_flip_counts_spec]
    proves [last_flip] right on every square.  The three statements fail on
    the ten squares of [defective], where the literal of one [maskl] entry
    lies in [2^31, 2^32): the entry keeps a zero upper half, the mask
    [~maskl] of the ray keeps bits 32 to 63, and the carry of
    [(OO | maskl) - minusone] runs on from the last square of the ray into
    the rows above. *)

Example maskl_13 :
  zth maskl 13 = Some (V2 0xffffffffffff3fff 0xfffefdfbf7efffff,
                       V2 0xdfdfdfdfdfdfffff 0x000000007fbfffff).
Proof. reflexivity. Qed.

(** C1: the postcondition of [flip] fails on square 13 with
    [P = 0x100000000] (square 32) and [O = 0x80400000] (squares 22 and 31).
    The ray 22, 31 ends on the board edge, so that nothing flips; [flip]
    returns both squares, on either variant of [count_opp_reverse]. *)
Theorem flip_postcondition_fails_at_13 (b : build) :
  valid_position 13 0x100000000 0x80400000 /\
  flip b 13 0x100000000 0x80400000 = Some 0x80400000 /\
  flip_spec 13 0x100000000 0x80400000 = 0.
Proof.
  split; [unfold valid_position; repeat split; (lia || reflexivity)|].
  destruct b; vm_compute; split; reflexivity.
Qed.

(** C3: the cross-consistency of [last_flip] and [flip] fails on square 13
    with every other square but 22 and 31 a player disc: [last_flip]
    counts 0 and [flip], with the opponent the complement, returns the two
    squares 22 and 31, twice whose number is 4. *)
Theorem last_flip_flip_disagree_at_13 (s : strategy) (b : build) :
  let P := 0xFFFFFFFF7FBFDFFF in
  Z.testbit P 13 = false /\
  last_flip s 13 P = Some 0 /\
  flip b 13 P (Z.land (not64 P) (not64 (x_to_bit 13))) = Some 0x80400000 /\
  2 * bit_count 0x80400000 = 4.
Proof. destruct s, b; vm_compute; repeat split; reflexivity. Qed.

(** C5: the symmetry under bit reversal fails on square 13 with
    [P = 0x100000000] and [O = 0x80400000]: on the mirrored position, square
    50, [flip] returns 0, and the mirror image of what it returns on
    square 13 is [0x0000020100000000]. *)
Theorem flip_reversal_fails_at_13 (b : build) :
  valid_position 13 0x100000000 0x80400000 /\
  flip b (63 - 13) (reverse64 0x100000000) (reverse64 0x80400000) = Some 0 /\
  flip b 13 0x100000000 0x80400000 = Some 0x80400000 /\
  reverse64 0x80400000 = 0x0000020100000000.
Proof.
  split; [unfold valid_position; repeat split; (lia || reflexivity)|].
  destruct b; vm_compute; repeat split; reflexivity.
Qed.

(** * Further properties *)

(** ** Further properties of [flip] *)

(** The rays and the rows of a square, as hypotheses ready for use. *)
Lemma reverse_rows (pos : Z) :
  0 <= pos <= 63 ->
  exists o1 o7 o8 o9 r1 r7 r8 r9,
    zth masko pos = Some (o1, o7, o8, o9) /\
    zth maskr pos = Some (r1, r7, r8, r9) /\
    forall b P O, 0 <= O < 2 ^ 64 -> Z.land P O = 0 ->
      flip_reverse b P O o1 r1 = run (ray pos (-1, 0)) P O 0 /\
      flip_reverse b P O o7 r7 = run (ray pos (1, -1)) P O 0 /\
      flip_reverse b P O o8 r8 = run (ray pos (0, -1)) P O 0 /\
      flip_reverse b P O o9 r9 = run (ray pos (-1, -1)) P O 0.
Proof.
  intros Hpos.
  pose proof (geometry pos Hpos) as G. unfold geometry_ok in G.
  apply andb_prop in G. destruct G as [G _].
  apply andb_prop in G. destruct G as [Gr Grev].
  unfold reverse_rows_ok in Grev.
  destruct (zth masko pos) as [[[[o1 o7] o8] o9]|]; [|discriminate].
  destruct (zth maskr pos) as [[[[r1 r7] r8] r9]|]; [|discriminate].
  repeat (apply andb_prop in Grev; destruct Grev as [Grev ?]).
  repeat match goal with E : (_ =? _) = true |- _ => apply Z.eqb_eq in E; subst end.
  unfold rays_ok in Gr. apply andb_prop in Gr. destruct Gr as [_ Gr].
  unfold reverse_dirs in Gr. cbn [forallb] in Gr.
  repeat (apply andb_prop in Gr; destruct Gr as [? Gr]).
  repeat match goal with E : (_ && _) = true |- _ =>
                           apply andb_prop in E; destruct E end.
  do 8 eexists. split; [reflexivity|]. split; [reflexivity|].
  intros b P O HO HPO. repeat split; now apply flip_reverse_run.
Qed.

(** X1: the two variants of [count_opp_reverse] give the same [flip]. *)
Theorem flip_variants_agree (pos P O : Z) :
  0 <= pos <= 63 -> 0 <= P < 2 ^ 64 -> 0 <= O < 2 ^ 64 -> Z.land P O = 0 ->
  flip Lzcnt pos P O = flip NoLzcnt pos P O /\ flip Lzcnt pos P O <> None.
Proof.
  intros Hpos HP HO HPO.
  destruct (reverse_rows pos Hpos)
    as (o1 & o7 & o8 & o9 & r1 & r7 & r8 & r9 & Ho & Hr & Hrun).
  destruct (flip_rows pos Hpos)
    as (o1' & o7' & o8' & o9' & r1' & r7' & r8' & r9' & l1 & l7 & l8 & l9 &
        Ho' & Hr' & Hl & _).
  rewrite !(flip_union _ pos P O _ _ _ _ _ _ _ _ _ _ _ _ Ho Hr Hl).
  destruct (Hrun Lzcnt P O HO HPO) as (-> & -> & -> & ->).
  destruct (Hrun NoLzcnt P O HO HPO) as (-> & -> & -> & ->).
  split; [reflexivity|discriminate].
Qed.

Lemma flip_variants_agree_witness :
  flip Lzcnt 0 0x0000000000000100 0x0000000000000002
  = flip NoLzcnt 0 0x0000000000000100 0x0000000000000002 /\
  flip Lzcnt 0 0x0000000000000100 0x0000000000000002 <> None.
Proof.
  apply (flip_variants_agree 0 0x0000000000000100 0x0000000000000002);
    try lia; reflexivity.
Defined.

Lemma forward_lane_ignores (s P O P' O' ml : Z) :
  0 <= s -> Z.testbit ml s = true -> same_off s P P' -> same_off s O O' ->
  forward_lane P' O' ml = forward_lane P O ml.
Proof.
  intros Hs Hm HP HO.
  assert (EX : Z.lor O' ml = Z.lor O ml).
  { apply Z.bits_inj'. intros i _. rewrite !Z.lor_spec.
    destruct (Z.eq_dec i s) as [->|Hne]; [now rewrite Hm, !orb_true_r|].
    now rewrite (HO i Hne). }
  assert (EP : forall Y, Z.land (Z.land (not64 ml) Y) P' = Z.land (Z.land (not64 ml) Y) P).
  { intros Y. apply Z.bits_inj'. intros i Hi. rewrite !Z.land_spec, testbit_not64 by exact Hi.
    destruct (Z.eq_dec i s) as [->|Hne]; [now rewrite Hm, andb_false_r|].
    now rewrite (HP i Hne). }
  unfold forward_lane. now rewrite EX, EP.
Qed.

Lemma flip_reverse_ignores (b : build) (s P O P' O' mo mr : Z) :
  0 <= O < 2 ^ 64 -> 0 <= O' < 2 ^ 64 -> 0 <= mr < 2 ^ 64 ->
  0 <= s -> Z.testbit mr s = false -> Z.testbit mo s = false ->
  same_off s P P' -> same_off s O O' ->
  flip_reverse b P' O' mo mr = flip_reverse b P O mo mr.
Proof.
  intros HO HO' Hmr Hs Hr Ho HP HOO.
  assert (core : forall V V', 0 <= V < 2 ^ 64 -> V' = V -> Z.testbit V s = false ->
    Z.land (mul64 (neg64 (Z.land (shr64 0x8000000000000000 (lzcnt64 V')) P')) 2) mr
    = Z.land (mul64 (neg64 (Z.land (shr64 0x8000000000000000 (lzcnt64 V)) P)) 2) mr).
  { intros V V' HV -> HVs. apply Z.bits_inj'. intros i Hi.
    rewrite !reverse_bits by assumption.
    destruct (Z.ltb_spec 0 V) as [Hpos|]; [|reflexivity]. cbn [andb].
    assert (Hl : Z.log2 V <> s).
    { intros E. pose proof (Z.bit_log2 V Hpos) as B. rewrite E in B. congruence. }
    now rewrite (HP _ Hl). }
  unfold flip_reverse. destruct b; cbn [count_opp_reverse]; unfold builtin_clzll.
  - apply core.
    + now apply land_range.
    + apply Z.bits_inj'. intros i Hi. rewrite !Z.land_spec, !testbit_not64 by exact Hi.
      destruct (Z.eq_dec i s) as [->|Hne]; [now rewrite Hr, !andb_false_r|].
      now rewrite (HOO i Hne).
    + now rewrite Z.land_spec, Hr, andb_false_r.
  - apply core.
    + apply lxor_range; [|exact Hmr]. rewrite Z.land_comm. now apply land_range.
    + apply Z.bits_inj'. intros i Hi. rewrite !Z.lxor_spec, !Z.land_spec.
      destruct (Z.eq_dec i s) as [->|Hne]; [now rewrite Ho, !andb_false_r|].
      now rewrite (HOO i Hne).
    + now rewrite Z.lxor_spec, Z.land_spec, Ho, Hr, andb_false_r.
Qed.

Lemma same_off_ldiff (s a : Z) : 0 <= s -> same_off s a (Z.ldiff a (x_to_bit s)).
Proof.
  intros Hs i Hne. destruct (Z.le_gt_cases 0 i) as [Hi|Hi].
  - rewrite Z.ldiff_spec, testbit_x_to_bit by lia.
    destruct (Z.eqb_spec i s); [contradiction|apply andb_true_r].
  - now rewrite !Z.testbit_neg_r by lia.
Qed.

Lemma ldiff_range (a b : Z) : 0 <= a < 2 ^ 64 -> 0 <= Z.ldiff a b < 2 ^ 64.
Proof.
  intros Ha. apply range_of_bits.
  - apply Z.ldiff_nonneg. lia.
  - intros i Hi. now rewrite Z.ldiff_spec, (testbit_high a).
Qed.

Lemma flip_same_off (b : build) (pos P O P' O' : Z) :
  0 <= pos <= 63 -> 0 <= O < 2 ^ 64 -> 0 <= O' < 2 ^ 64 ->
  same_off pos P P' -> same_off pos O O' ->
  flip b pos P' O' = flip b pos P O.
Proof.
  intros Hpos HO HO' HP HOO.
  destruct (flip_rows pos Hpos)
    as (o1 & o7 & o8 & o9 & r1 & r7 & r8 & r9 & l1 & l7 & l8 & l9 &
        Ho & Hr & Hl & (R1 & R7 & R8 & R9) & _).
  assert (K : played_square_ok pos = true)
    by (apply (zrange_forall played_square_ok 64); [vm_compute; reflexivity|lia]).
  unfold played_square_ok in K. rewrite Ho, Hr, Hl in K.
  apply andb_prop in K. destruct K as [Kl Kr]. cbn [forallb] in Kl, Kr.
  repeat (apply andb_prop in Kl; destruct Kl as [? Kl]).
  repeat (apply andb_prop in Kr; destruct Kr as [? Kr]).
  repeat match goal with E : negb _ = true |- _ => apply negb_true_iff in E end.
  assert (Hs : 0 <= pos) by lia.
  rewrite !(flip_union b pos _ _ _ _ _ _ _ _ _ _ _ _ _ _ Ho Hr Hl).
  rewrite !(flip_reverse_ignores b pos P O P' O') by assumption.
  rewrite !(forward_lane_ignores pos P O P' O') by assumption.
  reflexivity.
Qed.

(** X2: [flip] never reads the played square: clearing its bit in both
    boards leaves the result as it is. *)
Theorem flip_ignores_played_square (b : build) (pos P O : Z) :
  0 <= pos <= 63 -> 0 <= O < 2 ^ 64 ->
  flip b pos (Z.ldiff P (x_to_bit pos)) (Z.ldiff O (x_to_bit pos)) = flip b pos P O.
Proof.
  intros Hpos HO. apply flip_same_off; trivial.
  - now apply ldiff_range.
  - apply same_off_ldiff; lia.
  - apply same_off_ldiff; lia.
Qed.

Lemma flip_ignores_played_square_witness :
  flip NoLzcnt 19 (Z.ldiff 0x0000000000080002 (x_to_bit 19))
                  (Z.ldiff 0x0000000000000400 (x_to_bit 19))
  = flip NoLzcnt 19 0x0000000000080002 0x0000000000000400.
Proof. apply (flip_ignores_played_square NoLzcnt 19 0x0000000000080002 0x0000000000000400); lia. Defined.

Lemma flip_result (b : build) (pos P O : Z) :
  0 <= pos <= 63 -> 0 <= O < 2 ^ 64 -> Z.land P O = 0 ->
  exists flipped, flip b pos P O = Some flipped /\ 0 <= flipped < 2 ^ 64 /\
                  bits_in flipped O.
Proof.
  intros Hpos HO HPO.
  destruct (flip_rows pos Hpos)
    as (o1 & o7 & o8 & o9 & r1 & r7 & r8 & r9 & l1 & l7 & l8 & l9 &
        Ho & Hr & Hl & (R1 & R7 & R8 & R9) & (L1 & L7 & L8 & L9)).
  rewrite (flip_union b pos P O _ _ _ _ _ _ _ _ _ _ _ _ Ho Hr Hl).
  eexists. split; [reflexivity|]. split.
  - repeat apply lor_range; try apply forward_lane_range;
      unfold flip_reverse; now apply land_range.
  - repeat apply bits_in_lor;
      (apply flip_reverse_in || apply forward_lane_in); assumption.
Qed.

(** X3: what [flip] returns is a 64-bit value that holds no player disc and
    not the played square. *)
Theorem flip_spares_player (b : build) (pos P O : Z) :
  valid_position pos P O ->
  exists flipped, flip b pos P O = Some flipped /\ 0 <= flipped < 2 ^ 64 /\
                  Z.land flipped P = 0 /\ Z.testbit flipped pos = false.
Proof.
  intros (Hpos & HP & HO & _ & Ho & HPO).
  destruct (flip_result b pos P O Hpos HO HPO) as (f & E & Hf & Hin).
  exists f. repeat split; trivial; try lia.
  - apply Z.bits_inj'. intros i Hi. rewrite Z.land_spec, Z.bits_0.
    destruct (Z.testbit f i) eqn:Ef; [|reflexivity].
    pose proof (disjoint_bits P O i HPO) as D. rewrite (Hin i Hi Ef) in D.
    now rewrite andb_true_r in D.
  - destruct (Z.testbit f pos) eqn:Ef; [|reflexivity].
    rewrite (Hin pos (proj1 Hpos) Ef) in Ho. discriminate.
Qed.

Lemma flip_spares_player_witness :
  exists flipped, flip NoLzcnt 19 0x0000000000000002 0x0000000000000400 = Some flipped /\
                  0 <= flipped < 2 ^ 64 /\
                  Z.land flipped 0x0000000000000002 = 0 /\ Z.testbit flipped 19 = false.
Proof.
  apply (flip_spares_player NoLzcnt 19 0x0000000000000002 0x0000000000000400).
  unfold valid_position. repeat split; (lia || reflexivity).
Defined.

Lemma bits_in_0_eq (a : Z) : 0 <= a -> bits_in a 0 -> a = 0.
Proof.
  intros Ha H. apply Z.bits_inj'. intros i Hi. rewrite Z.bits_0.
  destruct (Z.testbit a i) eqn:E; [|reflexivity].
  specialize (H i Hi E). now rewrite Z.bits_0 in H.
Qed.

Lemma flip_reverse_no_player (b : build) (O mo mr : Z) :
  0 <= O < 2 ^ 64 -> 0 <= mr < 2 ^ 64 -> flip_reverse b 0 O mo mr = 0.
Proof.
  intros HO Hmr.
  destruct (flip_reverse_word b O mo mr HO Hmr) as (V & EV & HV & _).
  unfold flip_reverse. rewrite EV. apply Z.bits_inj'. intros i Hi.
  rewrite reverse_bits, !Z.bits_0 by assumption.
  now rewrite andb_false_r.
Qed.

Lemma forward_lane_no_player (O ml : Z) :
  0 <= O < 2 ^ 64 -> 0 <= ml < 2 ^ 64 -> forward_lane 0 O ml = 0.
Proof.
  intros HO Hml.
  destruct (forward_lane_cases 0 O ml HO Hml (Z.land_0_l O))
    as [E|(z & _ & _ & _ & Hz & _)]; [exact E|].
  now rewrite Z.bits_0 in Hz.
Qed.

(** X4: with an empty board on either side nothing flips, on every square:
    no opponent disc to flip, or no player disc to outflank with. *)
Theorem flip_empty_board (b : build) (pos B : Z) :
  0 <= pos <= 63 -> 0 <= B < 2 ^ 64 ->
  flip b pos B 0 = Some 0 /\ flip b pos 0 B = Some 0.
Proof.
  intros Hpos HB. split.
  - destruct (flip_result b pos B 0 Hpos ltac:(lia) (Z.land_0_r B))
      as (f & E & Hf & Hin).
    rewrite E. f_equal. apply bits_in_0_eq; [lia|exact Hin].
  - destruct (flip_rows pos Hpos)
      as (o1 & o7 & o8 & o9 & r1 & r7 & r8 & r9 & l1 & l7 & l8 & l9 &
          Ho & Hr & Hl & (R1 & R7 & R8 & R9) & (L1 & L7 & L8 & L9)).
    rewrite (flip_union b pos 0 B _ _ _ _ _ _ _ _ _ _ _ _ Ho Hr Hl).
    now rewrite !flip_reverse_no_player, !forward_lane_no_player by assumption.
Qed.

Lemma flip_empty_board_witness :
  flip Lzcnt 24 0x00000001fe000000 0 = Some 0 /\
  flip Lzcnt 24 0 0x00000001fe000000 = Some 0.
Proof. apply (flip_empty_board Lzcnt 24 0x00000001fe000000); lia. Defined.

(** ** The postcondition does not read the played square *)

Lemma run_same (cells : list Z) (P O P' O' acc : Z) :
  (forall c, In c cells -> Z.testbit P' c = Z.testbit P c /\
                           Z.testbit O' c = Z.testbit O c) ->
  run cells P' O' acc = run cells P O acc.
Proof.
  revert acc. induction cells as [|c t IH]; intros acc H; [reflexivity|].
  cbn [run]. destruct (H c (or_introl eq_refl)) as [-> ->].
  rewrite !IH by (intros x Hx; apply H; now right). reflexivity.
Qed.

Lemma flip_spec_same_off (pos P O P' O' : Z) :
  0 <= pos <= 63 -> same_off pos P P' -> same_off pos O O' ->
  flip_spec pos P' O' = flip_spec pos P O.
Proof.
  intros Hpos HP HO. rewrite !flip_spec_union. f_equal.
  apply map_ext_in. intros d Hd. apply run_same. intros c Hc.
  destruct (ray_plain pos d Hpos Hd) as (_ & _ & Hn).
  assert (c <> pos) by (intros ->; contradiction).
  split; [now apply HP|now apply HO].
Qed.

(** X5: off the ten defective rows, [flip] returns the union over the eight
    rays of the opponent run that a player disc closes, for every pair of
    disjoint boards, the played square empty or not. *)
Theorem flip_postcondition (b : build) (pos P O : Z) :
  0 <= pos <= 63 -> 0 <= P < 2 ^ 64 -> 0 <= O < 2 ^ 64 -> Z.land P O = 0 ->
  ~ In pos defective ->
  flip b pos P O = Some (flip_spec pos P O).
Proof.
  intros Hpos HP HO HPO Hd.
  rewrite <- (flip_same_off b pos P O (Z.ldiff P (x_to_bit pos))
                (Z.ldiff O (x_to_bit pos)) Hpos HO (ldiff_range O _ HO)
                (same_off_ldiff pos P (proj1 Hpos))
                (same_off_ldiff pos O (proj1 Hpos))).
  rewrite flip_meets_spec; trivial.
  - f_equal. apply flip_spec_same_off; trivial; apply same_off_ldiff; lia.
  - assert (Hb : forall a, Z.testbit (Z.ldiff a (x_to_bit pos)) pos = false).
    { intros a. rewrite Z.ldiff_spec, testbit_x_to_bit, Z.eqb_refl by lia.
      apply andb_false_r. }
    repeat split; try lia; try (now apply ldiff_range); try apply Hb.
    apply Z.bits_inj'. intros i Hi. rewrite Z.land_spec, !Z.ldiff_spec, Z.bits_0.
    pose proof (disjoint_bits P O i HPO) as D.
    destruct (Z.testbit P i), (Z.testbit O i), (Z.testbit (x_to_bit pos) i);
      trivial; discriminate.
Qed.

Lemma flip_postcondition_witness :
  flip Lzcnt 35 0x0020000000000100 0x0000100004020000
  = Some (flip_spec 35 0x0020000000000100 0x0000100004020000).
Proof.
  apply (flip_postcondition Lzcnt 35 0x0020000000000100 0x0000100004020000);
    try lia; try reflexivity.
  unfold defective. simpl. lia.
Defined.

(** ** [last_flip] against the rays, on every square *)

Lemma complement_same_off (pos P P' : Z) :
  same_off pos P P' ->
  same_off pos (Z.land (not64 P) (not64 (x_to_bit pos)))
               (Z.land (not64 P') (not64 (x_to_bit pos))).
Proof.
  intros H i Hne. destruct (Z.le_gt_cases 0 i) as [Hi|Hi].
  - rewrite !Z.land_spec, !testbit_not64 by exact Hi. now rewrite (H i Hne).
  - now rewrite !Z.testbit_neg_r by lia.
Qed.

(** X6: [last_flip] is twice the number of discs that the rays of the
    played square flip when the opponent holds every square that the
    player does not, on every square and for every [P]. *)
Theorem last_flip_counts_rays (s : strategy) (pos P : Z) :
  0 <= pos <= 63 ->
  last_flip s pos P
  = Some (2 * bit_count (flip_spec pos P (Z.land (not64 P) (not64 (x_to_bit pos))))).
Proof. apply last_flip_counts_spec. Qed.

Lemma last_flip_counts_rays_witness :
  last_flip AVX2 13 0xFFFFFFFF7FBFDFFF
  = Some (2 * bit_count (flip_spec 13 0xFFFFFFFF7FBFDFFF
                           (Z.land (not64 0xFFFFFFFF7FBFDFFF) (not64 (x_to_bit 13))))).
Proof. apply (last_flip_counts_rays AVX2 13 0xFFFFFFFF7FBFDFFF). lia. Defined.

(** X7: [last_flip] does not read the played square: its bit in [P] is
    a don't-care. *)
Theorem last_flip_ignores_played_square (s : strategy) (pos P : Z) :
  0 <= pos <= 63 ->
  last_flip s pos (Z.lor P (x_to_bit pos)) = last_flip s pos P /\
  last_flip s pos (Z.ldiff P (x_to_bit pos)) = last_flip s pos P.
Proof.
  intros Hpos.
  assert (G : forall P', same_off pos P P' -> last_flip s pos P' = last_flip s pos P).
  { intros P' H. rewrite !last_flip_counts_spec by exact Hpos.
    do 3 f_equal. apply flip_spec_same_off; trivial.
    now apply complement_same_off. }
  split; apply G.
  - intros i Hne. destruct (Z.le_gt_cases 0 i) as [Hi|Hi].
    + rewrite Z.lor_spec, testbit_x_to_bit by lia.
      destruct (Z.eqb_spec i pos); [contradiction|apply orb_false_r].
    + now rewrite !Z.testbit_neg_r by lia.
  - apply same_off_ldiff. lia.
Qed.

Lemma last_flip_ignores_played_square_witness :
  last_flip SSE 0 (Z.lor 0xFFFFFFFFFFFFFFF8 (x_to_bit 0)) = last_flip SSE 0 0xFFFFFFFFFFFFFFF8 /\
  last_flip SSE 0 (Z.ldiff 0xFFFFFFFFFFFFFFF8 (x_to_bit 0)) = last_flip SSE 0 0xFFFFFFFFFFFFFFF8.
Proof. apply (last_flip_ignores_played_square SSE 0 0xFFFFFFFFFFFFFFF8). lia. Defined.

(** ** [last_flip] under bit reversal *)

Lemma count_on_app (l1 l2 : list Z) (x : Z) :
  count_on (l1 ++ l2) x = count_on l1 x + count_on l2 x.
Proof.
  induction l1 as [|a t IH]; cbn [app count_on fold_right]; [reflexivity|].
  fold (count_on (t ++ l2) x) (count_on t x). rewrite IH. lia.
Qed.

Lemma count_on_rev (l : list Z) (x : Z) : count_on (rev l) x = count_on l x.
Proof.
  induction l as [|a t IH]; [reflexivity|].
  cbn [rev]. rewrite count_on_app, IH. cbn [count_on fold_right].
  fold (count_on t x). lia.
Qed.

Lemma count_on_reverse64 (l : list Z) (x : Z) :
  (forall i, In i l -> 0 <= i < 64) ->
  count_on l (reverse64 x) = count_on (map mirror l) x.
Proof.
  induction l as [|a t IH]; intros H; [reflexivity|].
  cbn [map count_on fold_right].
  fold (count_on t (reverse64 x)) (count_on (map mirror t) x).
  rewrite IH by (intros i Hi; apply H; now right).
  pose proof (H a (or_introl eq_refl)) as Ha.
  rewrite testbit_reverse64 by lia. destruct (Z.ltb_spec a 64); [|lia].
  reflexivity.
Qed.

Lemma bit_count_reverse64 (x : Z) : bit_count (reverse64 x) = bit_count x.
Proof.
  unfold bit_count. fold (count_on (zrange 64) (reverse64 x)) (count_on (zrange 64) x).
  rewrite count_on_reverse64 by (intros i Hi; now apply zrange_In_inv in Hi).
  change (map mirror (zrange 64)) with (rev (zrange 64)). apply count_on_rev.
Qed.

Lemma complement_reverse64 (pos P : Z) :
  0 <= pos <= 63 ->
  Z.land (not64 (reverse64 P)) (not64 (x_to_bit (63 - pos)))
  = reverse64 (Z.land (not64 P) (not64 (x_to_bit pos))).
Proof.
  intros Hpos. apply Z.bits_inj'. intros i Hi.
  rewrite Z.land_spec, !testbit_not64, !testbit_reverse64, testbit_x_to_bit by lia.
  destruct (Z.ltb_spec i 64) as [Hlt|Hge]; [|reflexivity]. cbn [andb].
  rewrite Z.land_spec, !testbit_not64, testbit_x_to_bit by lia.
  destruct (Z.ltb_spec (63 - i) 64); [|lia]. cbn [andb].
  destruct (Z.eqb_spec i (63 - pos)), (Z.eqb_spec (63 - i) pos); trivial; lia.
Qed.

(** X8: [last_flip] is unchanged when the board is turned by 180 degrees:
    the square becomes [63 - pos] and [P] is bit-reversed.  This holds on
    every square. *)
Theorem last_flip_reversal (s : strategy) (pos P : Z) :
  0 <= pos <= 63 ->
  last_flip s (63 - pos) (reverse64 P) = last_flip s pos P.
Proof.
  intros Hpos. rewrite !last_flip_counts_spec by lia.
  rewrite complement_reverse64, flip_spec_mirror, bit_count_reverse64 by exact Hpos.
  reflexivity.
Qed.

Lemma last_flip_reversal_witness :
  last_flip AVX2 (63 - 13) (reverse64 0xFFFFFFFF7FBFDFFF) = last_flip AVX2 13 0xFFFFFFFF7FBFDFFF.
Proof. apply (last_flip_reversal AVX2 13 0xFFFFFFFF7FBFDFFF). lia. Defined.

(** X9: [last_flip] counts nothing on a board without a player disc, and
    nothing on a board without an opponent disc. *)
Theorem last_flip_empty_board (s : strategy) (pos : Z) :
  0 <= pos <= 63 ->
  last_flip s pos 0 = Some 0 /\ last_flip s pos (not64 (x_to_bit pos)) = Some 0.
Proof.
  intros Hpos.
  assert (H : opt_eqb (last_flip s pos 0) 0
              && opt_eqb (last_flip s pos (not64 (x_to_bit pos))) 0 = true).
  { destruct s;
      [apply (zrange_forall (fun pos => opt_eqb (last_flip AVX2 pos 0) 0
                 && opt_eqb (last_flip AVX2 pos (not64 (x_to_bit pos))) 0) 64)
      |apply (zrange_forall (fun pos => opt_eqb (last_flip SSE pos 0) 0
                 && opt_eqb (last_flip SSE pos (not64 (x_to_bit pos))) 0) 64)];
      (vm_compute; reflexivity) || lia. }
  apply andb_prop in H. destruct H as [H1 H2]. split; now apply opt_eqb_eq.
Qed.

Lemma last_flip_empty_board_witness :
  last_flip SSE 63 0 = Some 0 /\ last_flip SSE 63 (not64 (x_to_bit 63)) = Some 0.
Proof. apply (last_flip_empty_board SSE 63). lia. Defined.

(** ** [lzcnt64] *)

(** X10: the MSVC [lzcnt64] counts as [_lzcnt_u64] does. *)
Theorem lzcnt64_msvc_lzcnt (n : Z) :
  0 <= n < 2 ^ 64 -> lzcnt64_msvc n = lzcnt64 n.
Proof.
  intros Hn. unfold lzcnt64_msvc, BitScanReverse64, lzcnt64.
  destruct (Z.eqb_spec n 0) as [|Hne]; [reflexivity|].
  assert (Hl : 0 <= Z.log2 n < 64).
  { split; [apply Z.log2_nonneg|]. apply Z.log2_lt_pow2; lia. }
  apply Z.eqb_eq.
  apply (zrange_forall (fun i => Z.lxor i 63 =? 63 - i) 64);
    [vm_compute; reflexivity|lia].
Qed.

Lemma lzcnt64_msvc_lzcnt_witness : lzcnt64_msvc 0x0000000080400000 = lzcnt64 0x0000000080400000.
Proof. apply (lzcnt64_msvc_lzcnt 0x0000000080400000). lia. Defined.

(** ** [_mm_cvtsi64_si128] *)

(** X11: the replacement of [_mm_cvtsi64_si128] for 32-bit targets builds the
    same register as the intrinsic. *)
Theorem mm_cvtsi64_si128_x86_intrinsic (x : Z) :
  0 <= x < 2 ^ 64 -> mm_cvtsi64_si128_x86 x = mm_cvtsi64_si128 x.
Proof.
  intros Hx. unfold mm_cvtsi64_si128_x86, mm_unpacklo_epi32, mm_cvtsi32_si128,
    mm_cvtsi64_si128, of_dwords.
  change (dword (V2 ?a 0) 0) with (lo32 a).
  change (dword (V2 ?a 0) 1) with (hi32 a).
  assert (Eh : hi32 (u32 x) = 0).
  { unfold hi32, u32. rewrite Z.div_small; [reflexivity|].
    apply Z.mod_pos_bound. lia. }
  assert (Eh' : hi32 (u32 (Z.shiftr x 32)) = 0).
  { unfold hi32, u32. rewrite Z.div_small; [reflexivity|].
    apply Z.mod_pos_bound. lia. }
  assert (El : lo32 (u32 x) = lo32 x).
  { unfold lo32, u32. apply Z.mod_mod. lia. }
  assert (El' : lo32 (u32 (Z.shiftr x 32)) = hi32 x).
  { unfold lo32, u32, hi32. rewrite Z.mod_mod, Z.shiftr_div_pow2 by lia. reflexivity. }
  rewrite Eh, Eh', El, El', join32_lo_hi by exact Hx. reflexivity.
Qed.

Lemma mm_cvtsi64_si128_x86_intrinsic_witness :
  mm_cvtsi64_si128_x86 0xFFFFFFFF7FBFDFFF = mm_cvtsi64_si128 0xFFFFFFFF7FBFDFFF.
Proof. apply (mm_cvtsi64_si128_x86_intrinsic 0xFFFFFFFF7FBFDFFF). lia. Defined.

(** ** [bit_count] *)

Lemma count_on_ext (l : list Z) (x y : Z) (f : Z -> Z) :
  (forall i, In i l -> Z.testbit x i = Z.testbit y (f i)) ->
  count_on l x = count_on (map f l) y.
Proof.
  induction l as [|a t IH]; intros H; [reflexivity|].
  cbn [map count_on fold_right]. fold (count_on t x) (count_on (map f t) y).
  rewrite IH by (intros i Hi; apply H; now right).
  now rewrite (H a (or_introl eq_refl)).
Qed.

(** X12: counting the bits of the two 32-bit halves, as [bit_count] does on
    32-bit targets, gives the population count of the 64-bit word. *)
Theorem bit_count_halves_bit_count (x : Z) : bit_count_halves x = bit_count x.
Proof.
  unfold bit_count_halves, builtin_popcount.
  change (bit_count x) with (count_on (zrange 32 ++ map (Z.add 32) (zrange 32)) x).
  rewrite count_on_app. f_equal.
  - rewrite (count_on_ext _ (u32 x) x (fun i => i)), map_id; [reflexivity|].
    intros i Hi. apply zrange_In_inv in Hi. unfold u32.
    apply Z.mod_pow2_bits_low. lia.
  - apply count_on_ext. intros i Hi. apply zrange_In_inv in Hi. unfold u32.
    rewrite Z.mod_pow2_bits_low, Z.shiftr_spec by lia. f_equal. lia.
Qed.

(** ** [bswap_short] *)

(** X13: the macro [bswap_short] exchanges the two bytes of a 16-bit value in
    the low 16 bits of its result and leaves the high byte of its argument
    in bits 16 to 23: it equals [__builtin_bswap16] once truncated to
    [unsigned short], and as it stands only for an argument below 256. *)
Theorem bswap_short_builtin (x : Z) :
  0 <= x < 2 ^ 16 ->
  ushort (bswap_short x) = builtin_bswap16 x /\
  bswap_short x = builtin_bswap16 x + 2 ^ 16 * (x / 256) /\
  (bswap_short x = builtin_bswap16 x <-> x < 256).
Proof.
  intros Hx.
  assert (Hh : 0 <= x / 256 < 256) by (split; Z.div_mod_to_equations; lia).
  assert (Hl : 0 <= x mod 256 < 256) by (apply Z.mod_pos_bound; lia).
  assert (K : bswap_short_ok (x / 256) (x mod 256) = true)
    by (apply (zrange2_forall bswap_short_ok 256 256);
        [vm_compute; reflexivity|lia|lia]).
  unfold bswap_short_ok in K. cbv zeta in K.
  rewrite <- (Z.div_mod x 256) in K by lia.
  apply andb_prop in K. destruct K as [K1 K2].
  apply Z.eqb_eq in K1, K2. split; [exact K1|]. split; [exact K2|].
  rewrite K2. split; intros H.
  - assert (x / 256 = 0) by lia. Z.div_mod_to_equations; lia.
  - rewrite Z.div_small by lia. lia.
Qed.

Lemma bswap_short_builtin_witness :
  ushort (bswap_short 0x1234) = builtin_bswap16 0x1234 /\
  bswap_short 0x1234 = builtin_bswap16 0x1234 + 2 ^ 16 * (0x1234 / 256) /\
  (bswap_short 0x1234 = builtin_bswap16 0x1234 <-> 0x1234 < 256).
Proof. apply (bswap_short_builtin 0x1234). lia. Defined.

(** ** [foreach_bit] *)

Lemma find_first (f : Z -> bool) (l : list Z) (z : Z) :
  find f l = Some z ->
  exists pre post, l = pre ++ z :: post /\ f z = true /\
                   forall x, In x pre -> f x = false.
Proof.
  induction l as [|a t IH]; cbn [find]; [discriminate|].
  destruct (f a) eqn:E.
  - intros [= ->]. exists [], t. repeat split; trivial. intros x [].
  - intros H. destruct (IH H) as (pre & post & -> & Hz & Hpre).
    exists (a :: pre), post. repeat split; trivial.
    intros x [<-|Hx]; auto.
Qed.

Lemma zrange_ordered : ordered Z.ltb (zrange 64) = true.
Proof. reflexivity. Qed.

(** [first_bit] is the lowest set bit of a word that has one below 64. *)
Lemma first_bit_lowest (b : Z) :
  (exists i, 0 <= i < 64 /\ Z.testbit b i = true) ->
  0 <= first_bit b < 64 /\ Z.testbit b (first_bit b) = true /\
  forall i, 0 <= i < first_bit b -> Z.testbit b i = false.
Proof.
  intros (i & Hi & Hb). unfold first_bit.
  destruct (find (Z.testbit b) (zrange 64)) as [z|] eqn:E.
  - destruct (find_first _ _ _ E) as (pre & post & El & Hz & Hpre).
    assert (Hin : In z (zrange 64)) by (rewrite El; apply in_elt).
    apply zrange_In_inv in Hin.
    pose proof zrange_ordered as Ho. rewrite El in Ho.
    destruct (ordered_split _ _ _ _ Ho) as [_ Hgt].
    repeat split; trivial; try lia.
    intros j Hj. assert (Hjl : In j (zrange 64)) by (apply zrange_In; lia).
    rewrite El in Hjl. apply in_app_or in Hjl. destruct Hjl as [Hp|[<-|Hp]].
    + now apply Hpre.
    + lia.
    + specialize (Hgt j Hp). apply Z.ltb_lt in Hgt. lia.
  - pose proof (find_none _ _ E i (zrange_In 64 i ltac:(lia))). congruence.
Qed.

(** [b & (b - 1)] clears the lowest set bit of [b]. *)
Lemma clear_lowest (b z i : Z) :
  0 <= z -> Z.testbit b z = true ->
  (forall j, 0 <= j < z -> Z.testbit b j = false) -> 0 <= i ->
  Z.testbit (Z.land b (b - 1)) i = Z.testbit b i && negb (i =? z).
Proof.
  intros Hz Hb Hlow Hi.
  assert (E1 : b - 2 ^ z = Z.ldiff b (2 ^ z)).
  { apply Z.sub_nocarry_ldiff. apply Z.bits_inj'. intros j Hj.
    rewrite Z.ldiff_spec, Z.pow2_bits_eqb, Z.bits_0 by lia.
    destruct (Z.eqb_spec z j) as [<-|]; [now rewrite Hb|reflexivity]. }
  assert (E2 : b - 1 = Z.lor (Z.ldiff b (2 ^ z)) (Z.ones z)).
  { rewrite <- Z.lxor_lor, <- Z.add_nocarry_lxor, <- E1, Z.ones_equiv; [lia| |].
    - apply Z.bits_inj'. intros j Hj. rewrite Z.land_spec, Z.ldiff_spec, Z.bits_0.
      destruct (Z.ltb_spec j z).
      + rewrite Hlow by lia. reflexivity.
      + rewrite Z.ones_spec_high by lia. apply andb_false_r.
    - apply Z.bits_inj'. intros j Hj. rewrite Z.land_spec, Z.ldiff_spec, Z.bits_0.
      destruct (Z.ltb_spec j z).
      + rewrite Hlow by lia. reflexivity.
      + rewrite Z.ones_spec_high by lia. apply andb_false_r. }
  rewrite E2, Z.land_spec, Z.lor_spec, Z.ldiff_spec, Z.pow2_bits_eqb by lia.
  rewrite (Z.eqb_sym z i).
  destruct (Z.ltb_spec i z) as [Hlt|Hge].
  - rewrite Hlow by lia. reflexivity.
  - rewrite Z.ones_spec_high, orb_false_r by lia.
    destruct (Z.testbit b i), (i =? z); reflexivity.
Qed.

Lemma filter_drop_first (f g : Z -> bool) (l : list Z) (z : Z) :
  ordered Z.ltb l = true -> In z l -> f z = true ->
  (forall i, In i l -> g i = f i && negb (i =? z)) ->
  (forall i, In i l -> i < z -> f i = false) ->
  filter f l = z :: filter g l.
Proof.
  induction l as [|a t IH]; intros Ho Hin Hz Hg Hlow; [destruct Hin|].
  cbn [ordered] in Ho. apply andb_prop in Ho. destruct Ho as [Ha Ht].
  rewrite forallb_forall in Ha. cbn [filter].
  destruct (Z.eq_dec a z) as [->|Hne].
  - rewrite Hz, (Hg z (or_introl eq_refl)), Hz, Z.eqb_refl. cbn [andb negb]. f_equal.
    apply filter_ext_in. intros i Hi. rewrite (Hg i (or_intror Hi)).
    specialize (Ha i Hi). apply Z.ltb_lt in Ha.
    destruct (Z.eqb_spec i z); [lia|now rewrite andb_true_r].
  - destruct Hin as [->|Hin]; [contradiction|].
    specialize (Ha z Hin). apply Z.ltb_lt in Ha.
    rewrite (Hg a (or_introl eq_refl)), (Hlow a (or_introl eq_refl) Ha). cbn [andb].
    apply IH; trivial.
    + intros i Hi. apply Hg. now right.
    + intros i Hi. apply Hlow. now right.
Qed.

Lemma foreach_bit_filter (fuel : nat) (b : Z) :
  0 <= b < 2 ^ 64 ->
  (forall i, 0 <= i < 64 - Z.of_nat fuel -> Z.testbit b i = false) ->
  foreach_bit fuel b = filter (Z.testbit b) (zrange 64).
Proof.
  revert b. induction fuel as [|fuel IH]; intros b Hb Hlow.
  - cbn [foreach_bit]. symmetry.
    assert (E : filter (Z.testbit b) (zrange 64) = filter (fun _ => false) (zrange 64)).
    { apply filter_ext_in. intros i Hi. apply zrange_In_inv in Hi. apply Hlow.
      change (Z.of_nat 0) with 0. lia. }
    rewrite E. reflexivity.
  - cbn [foreach_bit]. destruct (Z.eqb_spec b 0) as [->|Hne].
    + reflexivity.
    + assert (Hex : exists i, 0 <= i < 64 /\ Z.testbit b i = true).
      { exists (Z.log2 b). split.
        - split; [apply Z.log2_nonneg|apply Z.log2_lt_pow2; lia].
        - apply Z.bit_log2. lia. }
      destruct (first_bit_lowest b Hex) as (Hz & Hbz & Hbl).
      set (z := first_bit b) in *.
      assert (Hb' : 0 <= Z.land b (b - 1) < 2 ^ 64).
      { rewrite Z.land_comm. apply land_range. exact Hb. }
      assert (Hzf : 64 - Z.of_nat (S fuel) <= z).
      { destruct (Z.le_gt_cases (64 - Z.of_nat (S fuel)) z); [assumption|].
        rewrite Hlow in Hbz by lia. discriminate. }
      rewrite IH; trivial.
      * symmetry. apply filter_drop_first; trivial.
        -- apply zrange_In. lia.
        -- intros i Hi. apply zrange_In_inv in Hi. apply clear_lowest; trivial; lia.
        -- intros i Hi Hlt. apply zrange_In_inv in Hi. apply Hbl. lia.
      * intros i Hi. rewrite (clear_lowest b z) by (trivial; lia).
        destruct (Z.eqb_spec i z) as [->|]; [apply andb_false_r|].
        rewrite Hbl; [reflexivity|lia].
Qed.

Lemma length_filter_count_on (b : Z) (l : list Z) :
  Z.of_nat (length (filter (Z.testbit b) l)) =
  fold_right (fun i acc => (if Z.testbit b i then 1 else 0) + acc) 0 l.
Proof.
  induction l as [|a t IH]; [reflexivity|].
  cbn [filter fold_right]. destruct (Z.testbit b a); cbn [length]; lia.
Qed.

(** X14: the loop [foreach_bit] visits the set bits of [b], each once, from
    the lowest to the highest, and so runs [bit_count b] times; 64 steps
    always suffice. *)
Theorem foreach_bit_visits (fuel : nat) (b : Z) :
  0 <= b < 2 ^ 64 -> (64 <= fuel)%nat ->
  foreach_bit fuel b = filter (Z.testbit b) (zrange 64) /\
  Z.of_nat (length (foreach_bit fuel b)) = bit_count b.
Proof.
  intros Hb Hf.
  assert (E : foreach_bit fuel b = filter (Z.testbit b) (zrange 64))
    by (apply foreach_bit_filter; trivial; intros i Hi; exfalso; lia).
  split; [exact E|]. rewrite E. apply length_filter_count_on.
Qed.

Lemma foreach_bit_visits_witness :
  foreach_bit 64 0x80400000 = filter (Z.testbit 0x80400000) (zrange 64) /\
  Z.of_nat (length (foreach_bit 64 0x80400000)) = bit_count 0x80400000.
Proof. apply (foreach_bit_visits 64 0x80400000); lia. Defined.

(** ** The guardian bit of [count_opp_reverse] *)

Lemma reverse_pairs_ok (pos : Z) : 0 <= pos <= 63 -> clz_ok pos = true.
Proof.
  intros H. apply (zrange_forall clz_ok 64); [vm_compute; reflexivity|lia].
Qed.

(** X15: in the variant of [count_opp_reverse] with a guardian bit, the
    argument of [__builtin_clzll] is 0 exactly for the empty [maskr]
    entries, whatever [O]; for the others the count is at most 63, so that
    the shift of [flip] stays below the width. *)
Theorem count_opp_reverse_guardian (pos O mo mr : Z) :
  0 <= pos <= 63 -> 0 <= O < 2 ^ 64 -> In (mo, mr) (reverse_pairs pos) ->
  (Z.lxor (Z.land O mo) mr = 0 <-> mr = 0) /\
  (mr <> 0 -> 0 <= count_opp_reverse NoLzcnt O mo mr <= 63).
Proof.
  intros Hpos HO Hin.
  pose proof (reverse_pairs_ok pos Hpos) as K. unfold clz_ok in K.
  rewrite forallb_forall in K. specialize (K _ Hin). cbn [fst snd] in K.
  apply andb_prop in K. destruct K as [K Kg].
  apply andb_prop in K. destruct K as [Ko Kr].
  apply in64_range in Ko, Kr.
  assert (E : Z.lxor (Z.land O mo) mr = 0 <-> mr = 0).
  { destruct (Z.eqb_spec mr 0) as [->|Hne].
    - apply Z.eqb_eq in Kg. subst mo. now rewrite Z.land_0_r.
    - split; [|contradiction]. intros E. exfalso.
      apply (guardian_bit O mo mr); trivial.
      apply negb_true_iff in Kg. now apply Z.eqb_neq in Kg. }
  split; [exact E|]. intros Hne.
  assert (Hx : 0 <= Z.lxor (Z.land O mo) mr < 2 ^ 64).
  { apply lxor_range; [apply land_range|]; trivial. }
  unfold count_opp_reverse, builtin_clzll, lzcnt64.
  destruct (Z.eqb_spec (Z.lxor (Z.land O mo) mr) 0) as [E0|E0];
    [apply E in E0; contradiction|].
  assert (0 <= Z.log2 (Z.lxor (Z.land O mo) mr) < 64).
  { split; [apply Z.log2_nonneg|]. apply Z.log2_lt_pow2; lia. }
  lia.
Qed.

Lemma count_opp_reverse_guardian_witness :
  (Z.lxor (Z.land 0x0000000000100000 0x0000000000102000) 0x0000000000102040 = 0
   <-> 0x0000000000102040 = 0) /\
  (0x0000000000102040 <> 0 ->
   0 <= count_opp_reverse NoLzcnt 0x0000000000100000 0x0000000000102000
          0x0000000000102040 <= 63).
Proof.
  apply (count_opp_reverse_guardian 27 0x0000000000100000 0x0000000000102000
           0x0000000000102040); [lia|lia|].
  vm_compute. tauto.
Defined.

(** ** [flipmask] and the outflank word *)

Lemma halves_of_bit (z : Z) : 0 <= z < 64 -> lo32 (2 ^ z) <> hi32 (2 ^ z).
Proof.
  intros Hz.
  assert (K : negb (lo32 (2 ^ z) =? hi32 (2 ^ z)) = true)
    by (apply (zrange_forall (fun z => negb (lo32 (2 ^ z) =? hi32 (2 ^ z))) 64);
        [vm_compute; reflexivity|lia]).
  apply negb_true_iff in K. now apply Z.eqb_neq.
Qed.

Lemma flipmask_lane_doc (a : Z) :
  zero_or_bit a -> flipmask_lane a = if a =? 0 then 2 ^ 64 - 1 else 0.
Proof.
  intros [->|(z & Hz & ->)]; [reflexivity|].
  assert (0 < 2 ^ z) by (apply Z.pow_pos_nonneg; lia).
  destruct (Z.eqb_spec (2 ^ z) 0); [lia|]. now apply flipmask_single.
Qed.

(** X16: [flipmask] does what its comment says on the words that [flip]
    hands to it: a lane that is 0 gives -1, a lane with exactly one bit
    set gives 0. *)
Theorem flipmask_zero_or_bit (a b : Z) :
  zero_or_bit a -> zero_or_bit b ->
  flipmask (V2 a b) = V2 (if a =? 0 then 2 ^ 64 - 1 else 0)
                         (if b =? 0 then 2 ^ 64 - 1 else 0).
Proof.
  intros Ha Hb. rewrite flipmask_lanes. cbn [q0 q1].
  now rewrite !flipmask_lane_doc.
Qed.

Lemma flipmask_zero_or_bit_witness :
  flipmask (V2 0 (2 ^ 35)) = V2 (if 0 =? 0 then 2 ^ 64 - 1 else 0)
                                (if 2 ^ 35 =? 0 then 2 ^ 64 - 1 else 0).
Proof.
  apply (flipmask_zero_or_bit 0 (2 ^ 35)).
  - left. reflexivity.
  - right. exists 35. split; [lia|reflexivity].
Defined.

Lemma stop_square_spec (O ml : Z) :
  match stop_square O ml with
  | Some z => 0 <= z < 64 /\ Z.testbit (Z.lor O ml) z = false /\
              forall j, 0 <= j < z -> Z.testbit (Z.lor O ml) j = true
  | None => forall i, 0 <= i < 64 -> Z.testbit (Z.lor O ml) i = true
  end.
Proof.
  unfold stop_square.
  destruct (find (fun i => negb (Z.testbit (Z.lor O ml) i)) (zrange 64))
    as [z|] eqn:E.
  - destruct (find_first _ _ _ E) as (pre & post & El & Hz & Hpre).
    apply negb_true_iff in Hz.
    assert (Hin : In z (zrange 64)) by (rewrite El; apply in_elt).
    apply zrange_In_inv in Hin.
    pose proof zrange_ordered as Ho. rewrite El in Ho.
    destruct (ordered_split _ _ _ _ Ho) as [_ Hgt].
    repeat split; trivial; try lia.
    intros j Hj. assert (Hjl : In j (zrange 64)) by (apply zrange_In; lia).
    rewrite El in Hjl. apply in_app_or in Hjl. destruct Hjl as [Hp|[<-|Hp]].
    + apply negb_false_iff. now apply Hpre.
    + lia.
    + specialize (Hgt j Hp). apply Z.ltb_lt in Hgt. lia.
  - intros i Hi. apply negb_false_iff.
    apply (find_none _ _ E i). apply zrange_In. lia.
Qed.

Lemma outflank_lane (P O ml : Z) :
  0 <= O < 2 ^ 64 -> 0 <= ml < 2 ^ 64 -> Z.land P O = 0 ->
  Z.land (Z.land (not64 ml) (sub64 (Z.lor O ml) (u64 (-1)))) P
  = outflank_rule P O ml.
Proof.
  intros HO Hml HPO. unfold outflank_rule.
  pose proof (lor_range O ml HO Hml) as HX.
  pose proof (stop_square_spec O ml) as S.
  destruct (stop_square O ml) as [z|].
  - destruct S as (Hz & Hc & Hlow).
    set (X := Z.lor O ml) in *.
    assert (Hne : X <> 2 ^ 64 - 1).
    { intros E. rewrite E in Hc. change (2 ^ 64 - 1) with (Z.ones 64) in Hc.
      rewrite Z.ones_spec_low in Hc by lia. discriminate. }
    assert (Hs : sub64 X (u64 (-1)) = X + 1).
    { unfold sub64. change (u64 (-1)) with (2 ^ 64 - 1). unfold u64.
      symmetry. apply Z.mod_unique_pos with (q := -1); lia. }
    assert (Hmz : Z.testbit ml z = false).
    { unfold X in Hc. rewrite Z.lor_spec in Hc.
      now apply orb_false_elim in Hc. }
    rewrite Hs. apply Z.bits_inj'. intros i Hi.
    rewrite !Z.land_spec, testbit_not64, (succ_bits X z i) by (trivial; lia).
    destruct (Z.ltb_spec i z) as [Hlt|Hge].
    + rewrite andb_false_r. cbn [andb].
      destruct (Z.testbit P z); [|now rewrite Z.bits_0].
      rewrite Z.pow2_bits_false by lia. reflexivity.
    + destruct (Z.eqb_spec i z) as [->|Hneq].
      * rewrite Hmz. destruct (Z.ltb_spec z 64); [|lia]. cbn [andb negb].
        destruct (Z.testbit P z); [now rewrite Z.pow2_bits_true|now rewrite Z.bits_0].
      * transitivity false.
        -- unfold X. rewrite Z.lor_spec.
           pose proof (disjoint_bits P O i HPO) as D.
           destruct (i <? 64), (Z.testbit ml i), (Z.testbit O i), (Z.testbit P i);
             try reflexivity; discriminate.
        -- destruct (Z.testbit P z); [|now rewrite Z.bits_0].
           rewrite Z.pow2_bits_false by lia. reflexivity.
  - rewrite (all_ones64 _ HX S).
    change (sub64 (2 ^ 64 - 1) (u64 (-1))) with 0.
    now rewrite Z.land_0_r.
Qed.

Lemma flip_forward_outflank (PP OO ml : v2di) :
  flip_forward PP OO ml
  = let o := outflank PP OO ml in
    v_and (v_not ml) (v_sub o (v_sub (flipmask o) minusone)).
Proof. reflexivity. Qed.

(** X17: on disjoint boards each lane of the outflank word of [flip] is
    the bit of the first square of its ray, counted from the played square,
    that holds no opponent disc, when that square holds a player disc; it
    is 0 when that square is empty and when the ray runs to the edge over
    opponent discs only. *)
Theorem outflank_single (P O a b : Z) :
  0 <= O < 2 ^ 64 -> 0 <= a < 2 ^ 64 -> 0 <= b < 2 ^ 64 -> Z.land P O = 0 ->
  outflank (mm_set1_epi64x P) (mm_set1_epi64x O) (V2 a b)
  = V2 (outflank_rule P O a) (outflank_rule P O b).
Proof.
  intros HO Ha Hb HPO.
  unfold outflank, mm_set1_epi64x, minusone, v_and, v_sub, v_or, v_not, v2_map2.
  cbn [q0 q1]. now rewrite !outflank_lane.
Qed.

Lemma outflank_single_witness :
  outflank (mm_set1_epi64x 0x0000000000000008) (mm_set1_epi64x 0x0000000000000006)
           (V2 0xffffffffffffff01 0xffffffffffffffff)
  = V2 (outflank_rule 0x0000000000000008 0x0000000000000006 0xffffffffffffff01)
       (outflank_rule 0x0000000000000008 0x0000000000000006 0xffffffffffffffff) /\
  outflank_rule 0x0000000000000008 0x0000000000000006 0xffffffffffffff01 = 2 ^ 3 /\
  outflank_rule 0x0000000000000008 0x0000000000000006 0xffffffffffffffff = 0.
Proof.
  split; [|split; reflexivity].
  apply (outflank_single 0x0000000000000008 0x0000000000000006
           0xffffffffffffff01 0xffffffffffffffff); try lia; reflexivity.
Defined.

(** ** The tables against the geometry of the board *)

(** X18: row [pos] of [maskr] holds the four rays of [pos] towards the
    low-order end, and row [pos] of [masko] the same rays without their
    farthest square. *)
Theorem maskr_masko_rays (pos : Z) :
  0 <= pos <= 63 ->
  zth maskr pos = Some (mask_of (ray pos (-1, 0)), mask_of (ray pos (1, -1)),
                        mask_of (ray pos (0, -1)), mask_of (ray pos (-1, -1))) /\
  zth masko pos = Some (mask_of (removelast (ray pos (-1, 0))),
                        mask_of (removelast (ray pos (1, -1))),
                        mask_of (removelast (ray pos (0, -1))),
                        mask_of (removelast (ray pos (-1, -1)))).
Proof.
  intros Hpos.
  pose proof (geometry pos Hpos) as G. unfold geometry_ok in G.
  apply andb_prop in G. destruct G as [G _].
  apply andb_prop in G. destruct G as [_ G].
  unfold reverse_rows_ok in G.
  destruct (zth masko pos) as [[[[o1 o7] o8] o9]|]; [|discriminate].
  destruct (zth maskr pos) as [[[[r1 r7] r8] r9]|]; [|discriminate].
  repeat (apply andb_prop in G; destruct G as [G ?]).
  repeat match goal with E : (_ =? _) = true |- _ => apply Z.eqb_eq in E; subst end.
  split; reflexivity.
Qed.

Lemma maskr_masko_rays_witness :
  zth maskr 27 = Some (mask_of (ray 27 (-1, 0)), mask_of (ray 27 (1, -1)),
                       mask_of (ray 27 (0, -1)), mask_of (ray 27 (-1, -1))) /\
  zth masko 27 = Some (mask_of (removelast (ray 27 (-1, 0))),
                       mask_of (removelast (ray 27 (1, -1))),
                       mask_of (removelast (ray 27 (0, -1))),
                       mask_of (removelast (ray 27 (-1, -1)))).
Proof. apply (maskr_masko_rays 27). lia. Defined.

(** X19: row [pos] of [maskl] holds the complements of the four rays of
    [pos] towards the high-order end: 64-bit complements, except ten
    entries that are complemented in the low 32 bits only and have their
    high half 0, the ray [(1, 0)] of the squares 24 to 30 and the ray
    [(1, 1)] of the squares 4, 13 and 22. *)
Theorem maskl_rays (pos : Z) :
  0 <= pos <= 63 ->
  zth maskl pos = Some (V2 (maskl_entry pos (1, 0)) (maskl_entry pos (-1, 1)),
                        V2 (maskl_entry pos (0, 1)) (maskl_entry pos (1, 1))).
Proof.
  intros Hpos.
  assert (K : maskl_ok pos = true)
    by (apply (zrange_forall maskl_ok 64); [vm_compute; reflexivity|lia]).
  unfold maskl_ok in K.
  destruct (zth maskl pos) as [[[l1 l7] [l8 l9]]|]; [|discriminate].
  repeat (apply andb_prop in K; destruct K as [K ?]).
  repeat match goal with E : (_ =? _) = true |- _ => apply Z.eqb_eq in E; subst end.
  reflexivity.
Qed.

Lemma maskl_rays_witness :
  zth maskl 13 = Some (V2 (maskl_entry 13 (1, 0)) (maskl_entry 13 (-1, 1)),
                       V2 (maskl_entry 13 (0, 1)) (maskl_entry 13 (1, 1))).
Proof. apply (maskl_rays 13). lia. Defined.

(** X20: row [pos] of [mask_d_v] holds the anti-diagonal, the diagonal and
    the column through [pos], [pos] included, and an empty fourth lane;
    row [pos] of [mask_d] holds the first two of them. *)
Theorem mask_d_lines (pos : Z) :
  0 <= pos <= 63 ->
  zth mask_d_v pos = Some (V4 (line_through pos (-1, 1)) (line_through pos (1, 1))
                              (line_through pos (0, 1)) 0) /\
  zth mask_d pos = Some (V2 (line_through pos (-1, 1)) (line_through pos (1, 1))).
Proof.
  intros Hpos.
  assert (K : mask_d_ok pos = true)
    by (apply (zrange_forall mask_d_ok 64); [vm_compute; reflexivity|lia]).
  unfold mask_d_ok in K.
  destruct (zth mask_d_v pos) as [[a b c d]|]; [|discriminate].
  destruct (zth mask_d pos) as [[a' b']|]; [|discriminate].
  repeat (apply andb_prop in K; destruct K as [K ?]).
  repeat match goal with E : (_ =? _) = true |- _ => apply Z.eqb_eq in E end.
  subst. split; reflexivity.
Qed.

Lemma mask_d_lines_witness :
  zth mask_d_v 13 = Some (V4 (line_through 13 (-1, 1)) (line_through 13 (1, 1))
                             (line_through 13 (0, 1)) 0) /\
  zth mask_d 13 = Some (V2 (line_through 13 (-1, 1)) (line_through 13 (1, 1))).
Proof. apply (mask_d_lines 13). lia. Defined.

(** ** Symmetries of [COUNT_FLIP] *)

(** X21: an entry [COUNT_FLIP[k][p]] does not read bit [k] of the pattern,
    equals the entry of the line read from its other end, and is at most
    twice the number of squares strictly between [k] and the ends of the
    line, hence 12 in the rows 0 and 7 and 10 in the others. *)
Theorem COUNT_FLIP_symmetry (k p : Z) :
  0 <= k <= 7 -> 0 <= p <= 255 ->
  exists v, count_flip k p = Some v /\
            count_flip k (Z.lor p (2 ^ k)) = Some v /\
            count_flip k (Z.ldiff p (2 ^ k)) = Some v /\
            count_flip (7 - k) (reverse8 p) = Some v /\
            0 <= v <= 2 * (Z.max 0 (k - 1) + Z.max 0 (6 - k)).
Proof.
  intros Hk Hp.
  assert (K : count_flip_ok k p = true)
    by (apply (zrange2_forall count_flip_ok 8 256); [vm_compute; reflexivity|lia|lia]).
  unfold count_flip_ok in K. destruct (count_flip k p) as [v|]; [|discriminate].
  repeat (apply andb_prop in K; destruct K as [K ?]).
  exists v. repeat split; try (now apply opt_eqb_eq); lia.
Qed.

Lemma COUNT_FLIP_symmetry_witness :
  exists v, count_flip 2 0x41 = Some v /\
            count_flip 2 (Z.lor 0x41 (2 ^ 2)) = Some v /\
            count_flip 2 (Z.ldiff 0x41 (2 ^ 2)) = Some v /\
            count_flip (7 - 2) (reverse8 0x41) = Some v /\
            0 <= v <= 2 * (Z.max 0 (2 - 1) + Z.max 0 (6 - 2)).
Proof. apply (COUNT_FLIP_symmetry 2 0x41); lia. Defined.

(** ** The bits of a mirrored board *)

Lemma testbit_byte_high (k x c : Z) : 8 <= c -> Z.testbit (byte k x) c = false.
Proof.
  intros Hc. unfold byte. rewrite Z.land_spec. change 255 with (Z.ones 8).
  rewrite Z.ones_spec_high by lia. apply andb_false_r.
Qed.

Lemma testbit_bswap_byte (k x i : Z) :
  0 <= k <= 7 -> 0 <= i ->
  Z.testbit (Z.shiftl (byte k x) (8 * (7 - k))) i
  = (i / 8 =? 7 - k) && Z.testbit x (8 * k + i mod 8).
Proof.
  intros Hk Hi. rewrite Z.shiftl_spec by lia.
  destruct (Z.eqb_spec (i / 8) (7 - k)) as [E|E]; cbn [andb].
  - replace (i - 8 * (7 - k)) with (i mod 8) by (Z.div_mod_to_equations; lia).
    apply testbit_byte; [lia|]. apply Z.mod_pos_bound. lia.
  - destruct (Z.lt_ge_cases (i - 8 * (7 - k)) 0) as [Hn|Hp].
    + apply Z.testbit_neg_r. exact Hn.
    + apply testbit_byte_high. Z.div_mod_to_equations. lia.
Qed.

Lemma testbit_vertical_mirror (x i : Z) :
  0 <= i -> Z.testbit (vertical_mirror x) i = (i <? 64) && Z.testbit x (vmirror i).
Proof.
  intros Hi. unfold vertical_mirror, builtin_bswap64, lanes8, vmirror.
  cbn [fold_right]. rewrite !Z.lor_spec, !testbit_bswap_byte, Z.bits_0 by lia.
  destruct (Z.ltb_spec i 64) as [Hlt|Hge]; cbn [andb].
  - assert (Hq : 0 <= i / 8 <= 7) by (Z.div_mod_to_equations; lia).
    repeat match goal with
    | |- context [i / 8 =? ?b] => destruct (Z.eqb_spec (i / 8) b)
    end;
    try lia; cbn [andb orb]; rewrite ?orb_false_r; f_equal; lia.
  - assert (Hq : 8 <= i / 8) by (Z.div_mod_to_equations; lia).
    repeat match goal with
    | |- context [i / 8 =? ?b] =>
        destruct (Z.eqb_spec (i / 8) b); [lia|]; cbn [andb orb]
    end.
    reflexivity.
Qed.

Lemma vmirror_range (c : Z) : 0 <= c < 64 -> 0 <= vmirror c < 64.
Proof. intros H. unfold vmirror. Z.div_mod_to_equations. lia. Qed.

Lemma vmirror_involutive (c : Z) : 0 <= c < 64 -> vmirror (vmirror c) = c.
Proof.
  intros H.
  assert (K : (vmirror (vmirror c) =? c) = true)
    by (apply (zrange_forall (fun c => vmirror (vmirror c) =? c) 64);
        [vm_compute; reflexivity|lia]).
  now apply Z.eqb_eq.
Qed.

Lemma vertical_mirror_range (x : Z) : 0 <= vertical_mirror x < 2 ^ 64.
Proof.
  apply range_of_bits.
  - unfold vertical_mirror, builtin_bswap64.
    induction lanes8 as [|a t IH]; cbn [fold_right]; [lia|].
    apply Z.lor_nonneg. split; [|exact IH].
    apply Z.shiftl_nonneg. unfold byte. apply Z.land_nonneg. right. lia.
  - intros i Hi. rewrite testbit_vertical_mirror by lia.
    destruct (Z.ltb_spec i 64); [lia|reflexivity].
Qed.

Lemma vertical_mirror_lor (a b : Z) :
  vertical_mirror (Z.lor a b) = Z.lor (vertical_mirror a) (vertical_mirror b).
Proof.
  apply Z.bits_inj'. intros i Hi.
  rewrite Z.lor_spec, !testbit_vertical_mirror, Z.lor_spec by exact Hi.
  destruct (i <? 64); reflexivity.
Qed.

Lemma vertical_mirror_x_to_bit (c : Z) :
  0 <= c < 64 -> vertical_mirror (x_to_bit c) = x_to_bit (vmirror c).
Proof.
  intros Hc. pose proof (vmirror_range c Hc) as Hv.
  apply Z.bits_inj'. intros i Hi.
  rewrite testbit_vertical_mirror, (testbit_x_to_bit (vmirror c)) by lia.
  destruct (Z.ltb_spec i 64) as [Hlt|Hge]; cbn [andb].
  - pose proof (vmirror_range i (conj Hi Hlt)).
    rewrite testbit_x_to_bit by lia.
    destruct (Z.eqb_spec (vmirror i) c) as [E|E], (Z.eqb_spec i (vmirror c)) as [E'|E'];
      trivial; exfalso.
    + apply E'. rewrite <- E. symmetry. apply vmirror_involutive. lia.
    + apply E. rewrite E'. apply vmirror_involutive. lia.
  - destruct (Z.eqb_spec i (vmirror c)); trivial; lia.
Qed.

Lemma vertical_mirror_0 : vertical_mirror 0 = 0.
Proof. reflexivity. Qed.

Lemma count_on_vertical_mirror (l : list Z) (x : Z) :
  (forall i, In i l -> 0 <= i < 64) ->
  count_on l (vertical_mirror x) = count_on (map vmirror l) x.
Proof.
  induction l as [|a t IH]; intros H; [reflexivity|].
  cbn [map count_on fold_right].
  fold (count_on t (vertical_mirror x)) (count_on (map vmirror t) x).
  rewrite IH by (intros i Hi; apply H; now right).
  pose proof (H a (or_introl eq_refl)) as Ha.
  rewrite testbit_vertical_mirror by lia. destruct (Z.ltb_spec a 64); [|lia].
  reflexivity.
Qed.

Lemma bit_count_vertical_mirror (x : Z) : bit_count (vertical_mirror x) = bit_count x.
Proof.
  unfold bit_count.
  fold (count_on (zrange 64) (vertical_mirror x)) (count_on (zrange 64) x).
  rewrite count_on_vertical_mirror by (intros i Hi; now apply zrange_In_inv in Hi).
  change (map vmirror (zrange 64))
    with (row_squares 7 ++ row_squares 6 ++ row_squares 5 ++ row_squares 4 ++
          row_squares 3 ++ row_squares 2 ++ row_squares 1 ++ row_squares 0).
  change (zrange 64)
    with (row_squares 0 ++ row_squares 1 ++ row_squares 2 ++ row_squares 3 ++
          row_squares 4 ++ row_squares 5 ++ row_squares 6 ++ row_squares 7).
  rewrite !count_on_app. lia.
Qed.

(** ** The moves on the mirrored board *)

Lemma run_vmirror (cells : list Z) (P O acc : Z) :
  on_board cells = true ->
  run (map vmirror cells) (vertical_mirror P) (vertical_mirror O) (vertical_mirror acc)
  = vertical_mirror (run cells P O acc).
Proof.
  revert acc. induction cells as [|c t IH]; intros acc Hb; cbn [map run].
  - reflexivity.
  - cbn [on_board forallb] in Hb. apply andb_prop in Hb. destruct Hb as [Hc Ht].
    assert (Hc' : 0 <= c < 64) by lia.
    pose proof (vmirror_range c Hc').
    rewrite !testbit_vertical_mirror, vmirror_involutive by lia.
    destruct (Z.ltb_spec (vmirror c) 64); [|lia]. cbn [andb].
    destruct (Z.testbit O c).
    + rewrite <- IH by exact Ht. f_equal.
      rewrite vertical_mirror_lor, vertical_mirror_x_to_bit by lia. reflexivity.
    + destruct (Z.testbit P c); reflexivity.
Qed.

Lemma run_vmirror0 (cells : list Z) (P O : Z) :
  on_board cells = true ->
  run (map vmirror cells) (vertical_mirror P) (vertical_mirror O) 0
  = vertical_mirror (run cells P O 0).
Proof. apply (run_vmirror cells P O 0). Qed.

Lemma ray_vmirror (pos : Z) (d : Z * Z) :
  0 <= pos <= 63 -> In d directions ->
  ray (vmirror pos) d = map vmirror (ray pos (vflip d)) /\ on_board (ray pos d) = true.
Proof.
  intros Hpos Hd.
  assert (H : vmirror_ok pos = true)
    by (apply (zrange_forall vmirror_ok 64); [vm_compute; reflexivity|lia]).
  unfold vmirror_ok in H. rewrite forallb_forall in H. specialize (H d Hd).
  apply andb_prop in H. destruct H as [H1 H2]. split; [|exact H2].
  now apply list_eqb_eq.
Qed.

Lemma flip_spec_vmirror (pos P O : Z) :
  0 <= pos <= 63 ->
  flip_spec (vmirror pos) (vertical_mirror P) (vertical_mirror O)
  = vertical_mirror (flip_spec pos P O).
Proof.
  intros Hpos. unfold flip_spec, directions, forward_dirs, reverse_dirs.
  cbn [app fold_right].
  rewrite !vertical_mirror_lor, vertical_mirror_0.
  repeat match goal with
  | |- context [run (ray (vmirror pos) ?d) _ _ 0] =>
      let H := fresh in
      destruct (ray_vmirror pos d Hpos) as [H _];
      [unfold directions, forward_dirs, reverse_dirs; cbn [app In]; tauto|];
      rewrite H; clear H
  end.
  unfold vflip. cbn [fst snd Z.opp].
  rewrite !run_vmirror0 by
    (apply (ray_vmirror pos _ Hpos);
     unfold directions, forward_dirs, reverse_dirs; cbn [app In]; tauto).
  apply Z.bits_inj'. intros i _. rewrite !Z.lor_spec, Z.bits_0.
  repeat match goal with |- context [Z.testbit ?x i] =>
    let b := fresh "b" in generalize (Z.testbit x i); intros b end.
  repeat match goal with b : bool |- _ => destruct b end; reflexivity.
Qed.

Lemma valid_position_vmirror (pos P O : Z) :
  valid_position pos P O ->
  valid_position (vmirror pos) (vertical_mirror P) (vertical_mirror O).
Proof.
  intros (Hpos & HP & HO & Hp & Ho & HPO).
  assert (Hpos' : 0 <= pos < 64) by lia.
  pose proof (vmirror_range pos Hpos').
  repeat split; try apply vertical_mirror_range; try lia.
  - rewrite testbit_vertical_mirror, vmirror_involutive by lia.
    rewrite Hp. apply andb_false_r.
  - rewrite testbit_vertical_mirror, vmirror_involutive by lia.
    rewrite Ho. apply andb_false_r.
  - apply Z.bits_inj'. intros i Hi.
    rewrite Z.land_spec, !testbit_vertical_mirror, Z.bits_0 by exact Hi.
    pose proof (disjoint_bits P O (vmirror i) HPO) as D.
    destruct (i <? 64), (Z.testbit P (vmirror i)), (Z.testbit O (vmirror i));
      trivial; discriminate.
Qed.

(** X24: off the defective rows, on both the square and its mirror image,
    [flip] commutes with [vertical_mirror]: the discs flipped on the
    mirrored board are the mirrored discs. *)
Theorem flip_vertical_mirror (b : build) (pos P O : Z) :
  valid_position pos P O ->
  ~ In pos defective -> ~ In (vmirror pos) defective ->
  flip b (vmirror pos) (vertical_mirror P) (vertical_mirror O)
  = option_map vertical_mirror (flip b pos P O).
Proof.
  intros Hv Hd Hd'.
  rewrite (flip_meets_spec b pos P O Hv Hd).
  rewrite (flip_meets_spec b _ _ _ (valid_position_vmirror pos P O Hv) Hd').
  cbn [option_map]. f_equal. apply flip_spec_vmirror, Hv.
Qed.

Lemma flip_vertical_mirror_witness :
  flip Lzcnt (vmirror 19) (vertical_mirror 0x0000000000000002)
       (vertical_mirror 0x0000000000000400)
  = option_map vertical_mirror (flip Lzcnt 19 0x0000000000000002 0x0000000000000400).
Proof.
  apply (flip_vertical_mirror Lzcnt 19 0x0000000000000002 0x0000000000000400).
  - unfold valid_position. repeat split; try lia; reflexivity.
  - unfold defective. simpl. lia.
  - unfold defective. vm_compute. lia.
Defined.

Lemma complement_vertical_mirror (pos P : Z) :
  0 <= pos <= 63 ->
  Z.land (not64 (vertical_mirror P)) (not64 (x_to_bit (vmirror pos)))
  = vertical_mirror (Z.land (not64 P) (not64 (x_to_bit pos))).
Proof.
  intros Hpos. assert (Hpos' : 0 <= pos < 64) by lia.
  pose proof (vmirror_range pos Hpos').
  apply Z.bits_inj'. intros i Hi.
  rewrite Z.land_spec, !testbit_not64, !testbit_vertical_mirror, testbit_x_to_bit by lia.
  destruct (Z.ltb_spec i 64) as [Hlt|Hge]; [|reflexivity]. cbn [andb].
  pose proof (vmirror_range i (conj Hi Hlt)).
  rewrite Z.land_spec, !testbit_not64, testbit_x_to_bit by lia.
  destruct (Z.ltb_spec (vmirror i) 64); [|lia]. cbn [andb].
  destruct (Z.eqb_spec i (vmirror pos)) as [E|E], (Z.eqb_spec (vmirror i) pos) as [E'|E'];
    trivial; exfalso.
  - apply E'. rewrite E. now apply vmirror_involutive.
  - apply E. rewrite <- E'. symmetry. apply vmirror_involutive. lia.
Qed.

(** X25: [last_flip] is unchanged when the board is mirrored with
    [vertical_mirror] and the square moved to the mirrored row, on every
    square. *)
Theorem last_flip_vertical_mirror (s : strategy) (pos P : Z) :
  0 <= pos <= 63 ->
  last_flip s (vmirror pos) (vertical_mirror P) = last_flip s pos P.
Proof.
  intros Hpos. assert (Hpos' : 0 <= pos < 64) by lia.
  pose proof (vmirror_range pos Hpos').
  rewrite !last_flip_counts_spec by lia.
  rewrite complement_vertical_mirror, flip_spec_vmirror, bit_count_vertical_mirror
    by exact Hpos.
  reflexivity.
Qed.

Lemma last_flip_vertical_mirror_witness :
  last_flip SSE (vmirror 13) (vertical_mirror 0xFFFFFFFF7FBFDFFF)
  = last_flip SSE 13 0xFFFFFFFF7FBFDFFF.
Proof. apply (last_flip_vertical_mirror SSE 13 0xFFFFFFFF7FBFDFFF). lia. Defined.
